(** * Constant folding of the Vyper AST (vyper/ast/folding.py) and the
      address primitive (vyper/semantics/types/value/address.py)

    The development embeds the functions of [folding.py] over a model of the
    Vyper syntax tree.  A Python node object is identified by its position in
    the tree (the path of child indices from the Module root): replacing a
    node keeps the position of every node that is not below it, which is what
    the in-place mutation of the Python tree does to the objects collected
    before a sweep. *)

From Stdlib Require Import ZArith Ascii String Lia.
From stdpp Require Import base option list strings gmap.

Set Warnings "-register-all".
Local Open Scope string_scope.
Local Open Scope list_scope.

(** ** Exceptions and results *)

Inductive exception : Type :=
| UnfoldableNode
| CompilerPanic (msg : string)
| InvalidLiteral (msg : string)
| UnexpectedNodeType
| IndexError
| AttributeError
| TypeError
| TypeResolutionError (msg : string)
| OtherException (name : string).

Inductive result (A : Type) : Type :=
| Ok (a : A)
| Raise (e : exception).
Arguments Ok {A} a.
Arguments Raise {A} e.

Definition bind {A B} (r : result A) (k : A -> result B) : result B :=
  match r with
  | Ok a => k a
  | Raise e => Raise e
  end.

Notation "x <- r ;; k" := (bind r (fun x => k))
  (at level 100, r at next level, right associativity).

(** [for node in l: body], threading the mutable state [s]. *)
Fixpoint for_in {A S} (l : list A) (body : A -> S -> result S) (s : S) : result S :=
  match l with
  | [] => Ok s
  | x :: rest => s' <- body x s ;; for_in rest body s'
  end.

(** [[f(i) for i in l]]: the first exception aborts the comprehension. *)
Definition list_comprehension {A B} (f : A -> result B) : list A -> result (list B) :=
  fix go (l : list A) : result (list B) :=
    match l with
    | [] => Ok []
    | x :: rest =>
        match f x with
        | Ok y => match go rest with Ok ys => Ok (y :: ys) | Raise e => Raise e end
        | Raise e => Raise e
        end
    end.

(** ** Type descriptors (vyper.semantics.types.bases) *)

(** Modelled from the spec: the folder consults a type descriptor only for
    its identity and for its [value_type] member (the element type of a list
    type); a descriptor without the member raises AttributeError when the
    folder reads it. *)

Inductive BaseTypeDefinition : Type :=
| TypeDefinition (_id : string) (value_type_member : option BaseTypeDefinition).

Definition value_type (t : BaseTypeDefinition) : result BaseTypeDefinition :=
  match t with
  | TypeDefinition _ (Some vt) => Ok vt
  | TypeDefinition _ None => Raise AttributeError
  end.

Inductive DataLocation : Type := UNSET | MEMORY | STORAGE | CALLDATA.

(** ** The syntax tree (vyper.ast.nodes) *)

Module vy_ast.

(** Source-position attributes of a node. *)
Record position : Type := {
  lineno : nat;
  col_offset : nat;
  end_lineno : nat;
  end_col_offset : nat
}.

(** What every node owns besides its children: the source position and the
    ["type"] slot of its [_metadata] dictionary. *)
Record attributes : Type := {
  src : position;
  _metadata : option BaseTypeDefinition
}.

(** The subclasses of [vy_ast.Constant]. *)
Inductive constant_class : Type := Int | Decimal | Hex | Str | Bytes | NameConstant.

(** Python values held by the [value] member of a Constant. A decimal is
    [coefficient * 10 ^ exponent]. *)
Inductive py_value : Type :=
| py_int (z : Z)
| py_decimal (coefficient exponent : Z)
| py_str (s : string)
| py_bool (b : bool)
| py_none.

(** Modelled from the spec: the node classes the folder tells apart, each
    with the members the folder and the tree walks read; every other class
    is an [Other] node with its children in document order. *)
Inductive node : Type :=
| Module (a : attributes) (body : list node)
| AnnAssign (a : attributes) (target annotation : node) (value : option node)
| Assign (a : attributes) (target value : node)
| AugAssign (a : attributes) (target : node) (op : string) (value : node)
| Name (a : attributes) (id : string)
| Constant (a : attributes) (cls : constant_class) (value : py_value)
| List (a : attributes) (elements : list node)
| Dict (a : attributes) (keys values : list node)
| Call (a : attributes) (func : node) (args keywords : list node)
| BinOp (a : attributes) (left : node) (op : string) (right : node)
| UnaryOp (a : attributes) (op : string) (operand : node)
| BoolOp (a : attributes) (op : string) (values : list node)
| Compare (a : attributes) (left : node) (op : string) (right : node)
| Subscript (a : attributes) (value slice : node)
| Index (a : attributes) (value : node)
| Other (a : attributes) (ast_type : string) (children : list node).

(** The class of a node, for [isinstance]. *)
Inductive node_class : Type :=
| cModule | cAnnAssign | cAssign | cAugAssign | cName | cConstant | cList
| cDict | cCall | cBinOp | cUnaryOp | cBoolOp | cCompare | cSubscript
| cIndex | cOther.

(** The member of the parent a child is stored in. *)
Inductive field : Type :=
| f_body | f_target | f_annotation | f_value | f_elements | f_keys | f_values
| f_func | f_args | f_keywords | f_left | f_right | f_operand | f_slice
| f_children.

End vy_ast.
Import vy_ast.

#[global] Instance node_class_eq_dec : EqDecision node_class.
Proof. solve_decision. Defined.
#[global] Instance field_eq_dec : EqDecision field.
Proof. solve_decision. Defined.

Definition class_of (n : node) : node_class :=
  match n with
  | Module _ _ => cModule
  | AnnAssign _ _ _ _ => cAnnAssign
  | Assign _ _ _ => cAssign
  | AugAssign _ _ _ _ => cAugAssign
  | Name _ _ => cName
  | Constant _ _ _ => cConstant
  | List _ _ => cList
  | Dict _ _ _ => cDict
  | Call _ _ _ _ => cCall
  | BinOp _ _ _ _ => cBinOp
  | UnaryOp _ _ _ => cUnaryOp
  | BoolOp _ _ _ => cBoolOp
  | Compare _ _ _ _ => cCompare
  | Subscript _ _ _ => cSubscript
  | Index _ _ => cIndex
  | Other _ _ _ => cOther
  end.

Definition isinstance (n : node) (node_type : list node_class) : bool :=
  existsb (fun c => bool_decide (class_of n = c)) node_type.

Definition attrs (n : node) : attributes :=
  match n with
  | Module a _ | AnnAssign a _ _ _ | Assign a _ _ | AugAssign a _ _ _
  | Name a _ | Constant a _ _ | List a _ | Dict a _ _ | Call a _ _ _
  | BinOp a _ _ _ | UnaryOp a _ _ | BoolOp a _ _ | Compare a _ _ _
  | Subscript a _ _ | Index a _ | Other a _ _ => a
  end.

(** Keys and values of a dictionary literal alternate in the source text. *)
Fixpoint interleave {A} (ks vs : list A) : list A :=
  match ks, vs with
  | [], _ => vs
  | _, [] => ks
  | k :: ks', v :: vs' => k :: v :: interleave ks' vs'
  end.

Fixpoint uninterleave {A} (nk nv : nat) (cs : list A) : list A * list A :=
  match nk, nv with
  | 0, _ => ([], cs)
  | _, 0 => (cs, [])
  | S nk', S nv' =>
      match cs with
      | k :: v :: cs' =>
          let '(ks, vs) := uninterleave nk' nv' cs' in (k :: ks, v :: vs)
      | _ => (cs, [])
      end
  end.

(** The children of a node in document order, each passed through [f]. *)
Definition map_children {B} (f : node -> B) (n : node) : list B :=
  match n with
  | Module _ body => f <$> body
  | AnnAssign _ target annotation value =>
      f target :: f annotation :: match value with Some v => [f v] | None => [] end
  | Assign _ target value => [f target; f value]
  | AugAssign _ target _ value => [f target; f value]
  | Name _ _ => []
  | Constant _ _ _ => []
  | List _ elements => f <$> elements
  | Dict _ keys values => interleave (f <$> keys) (f <$> values)
  | Call _ func args keywords => f func :: (f <$> args) ++ (f <$> keywords)
  | BinOp _ lhs _ rhs => [f lhs; f rhs]
  | UnaryOp _ _ operand => [f operand]
  | BoolOp _ _ values => f <$> values
  | Compare _ lhs _ rhs => [f lhs; f rhs]
  | Subscript _ value slice => [f value; f slice]
  | Index _ value => [f value]
  | Other _ _ children => f <$> children
  end.

Definition children (n : node) : list node := map_children id n.

(** The member each child is stored in, in the order of [children]. *)
Definition child_fields (n : node) : list field :=
  match n with
  | Module _ body => replicate (length body) f_body
  | AnnAssign _ _ _ value =>
      f_target :: f_annotation :: match value with Some _ => [f_value] | None => [] end
  | Assign _ _ _ => [f_target; f_value]
  | AugAssign _ _ _ _ => [f_target; f_value]
  | Name _ _ => []
  | Constant _ _ _ => []
  | List _ elements => replicate (length elements) f_elements
  | Dict _ keys values =>
      interleave (replicate (length keys) f_keys) (replicate (length values) f_values)
  | Call _ _ args keywords =>
      f_func :: replicate (length args) f_args ++ replicate (length keywords) f_keywords
  | BinOp _ _ _ _ => [f_left; f_right]
  | UnaryOp _ _ _ => [f_operand]
  | BoolOp _ _ values => replicate (length values) f_values
  | Compare _ _ _ _ => [f_left; f_right]
  | Subscript _ _ _ => [f_value; f_slice]
  | Index _ _ => [f_value]
  | Other _ _ children => replicate (length children) f_children
  end.

(** The node [n] with its children replaced by [cs] (as many as it has). *)
Definition with_children (n : node) (cs : list node) : node :=
  match n, cs with
  | Module a _, _ => Module a cs
  | AnnAssign a _ _ (Some _), [t; an; v] => AnnAssign a t an (Some v)
  | AnnAssign a _ _ None, [t; an] => AnnAssign a t an None
  | Assign a _ _, [t; v] => Assign a t v
  | AugAssign a _ op _, [t; v] => AugAssign a t op v
  | List a _, _ => List a cs
  | Dict a keys values, _ =>
      let '(ks, vs) := uninterleave (length keys) (length values) cs in Dict a ks vs
  | Call a _ args _, f :: rest => Call a f (take (length args) rest) (drop (length args) rest)
  | BinOp a _ op _, [l; r] => BinOp a l op r
  | UnaryOp a op _, [x] => UnaryOp a op x
  | BoolOp a op _, _ => BoolOp a op cs
  | Compare a _ op _, [l; r] => Compare a l op r
  | Subscript a _ _, [v; s] => Subscript a v s
  | Index a _, [v] => Index a v
  | Other a ty _, _ => Other a ty cs
  | _, _ => n
  end.

(** ** Positions *)

Definition path : Type := list nat.

(** The node at position [p] below [n]. *)
Fixpoint get (n : node) (p : path) : option node :=
  match p with
  | [] => Some n
  | i :: p' =>
      match children n !! i with
      | Some c => get c p'
      | None => None
      end
  end.

(** [n] with the subtree at position [p] replaced by [x]. *)
Fixpoint put (n : node) (p : path) (x : node) : option node :=
  match p with
  | [] => Some x
  | i :: p' =>
      match children n !! i with
      | Some c =>
          match put c p' x with
          | Some c' => Some (with_children n (<[i := c']> (children n)))
          | None => None
          end
      | None => None
      end
  end.

(** Pre-order numbering of the positions below a node: child [i], then the
    positions below child [i], then child [i+1], ... *)
Fixpoint number_from (i : nat) (below : list (list path)) : list path :=
  match below with
  | [] => []
  | ps :: rest => ([i] :: map (cons i) ps) ++ number_from (S i) rest
  end.

Fixpoint descendants (n : node) : list path :=
  number_from 0 (map_children descendants n).

Fixpoint node_count (n : node) : nat :=
  S (sum_list (map_children node_count n)).

(** ** Navigation and replacement (vyper.ast.nodes)

    [get_ancestor], [get_children], [get_descendants], [replace_in_tree] and
    [from_node] are methods of the node classes, which are not part of the
    folding module. *)

(** The proper prefixes of a position are the positions of its ancestors,
    the root first. *)
Fixpoint proper_prefixes (p : path) : list path :=
  match p with
  | [] => []
  | i :: p' => [] :: map (cons i) (proper_prefixes p')
  end.

Definition has_class (m : node) (node_type : option (list node_class)) (q : path) : bool :=
  match get m q, node_type with
  | Some a, Some classes => isinstance a classes
  | Some _, None => true
  | None, _ => false
  end.

(** Modelled from the spec: [node.get_ancestor(node_type)] is the closest
    ancestor of the given classes (the parent when no class is given), found
    by walking the parent links upwards. *)
Definition get_ancestor (m : node) (p : path) (node_type : option (list node_class)) : option path :=
  List.find (has_class m node_type) (reverse (proper_prefixes p)).

Definition isinstance_at (m : node) (q : option path) (classes : list node_class) : bool :=
  match q with
  | Some q => has_class m (Some classes) q
  | None => false
  end.

(** The positions of the nodes stored in member [f] of the node at [q]. *)
Definition member (m : node) (q : path) (f : field) : list path :=
  match get m q with
  | Some a =>
      omap (fun x => x)
        (imap (fun i g => if bool_decide (g = f) then Some (q ++ [i]) else None) (child_fields a))
  | None => []
  end.

Definition path_in (p : path) (l : list path) : bool := bool_decide (p ∈ l).

(** Modelled from the spec:
    [node.get_descendants(node_type, filters, include_self, reverse)] for the
    node at [q] lists the matching nodes below it in document order, or in reverse
    document order (deepest and rightmost first). *)
Definition get_descendants (m : node) (q : path) (matches : node -> bool)
    (include_self reverse : bool) : list path :=
  match get m q with
  | Some a =>
      let below := map (app q) (descendants a) in
      let all := if include_self then q :: below else below in
      let found :=
        List.filter (fun p => match get m p with Some x => matches x | None => false end) all in
      if reverse then List.rev found else found
  | None => []
  end.

(** Modelled from the spec: [node.get_children(node_type)] lists the direct children of the given class. *)
Definition get_children (m : node) (q : path) (matches : node -> bool) : list path :=
  match get m q with
  | Some a =>
      omap (fun x => x)
        (imap (fun i c => if matches c then Some (q ++ [i]) else None) (children a))
  | None => []
  end.

(** Modelled from the spec:
    [vyper_module.replace_in_tree(old_node, new_node)] puts [new_node] where
    [old_node] is and fails with an
    internal error when [old_node] is not attached to the tree. *)
Definition replace_in_tree (vyper_module : node) (old_node : path) (new_node : node) : result node :=
  match old_node with
  | [] => Raise (CompilerPanic "Node to be replaced has no parent")
  | _ :: _ =>
      match put vyper_module old_node new_node with
      | Some m' => Ok m'
      | None => Raise (CompilerPanic "Node to be replaced does not exist within parent's children")
      end
  end.

(** Modelled from the spec: the attributes [from_node] gives the node it
    builds are the source position
    of the template and an empty [_metadata]. *)
Definition from_node (template : node) : attributes :=
  {| src := src (attrs template); _metadata := None |}.

Definition set_metadata_type (n : node) (type_ : BaseTypeDefinition) : node :=
  let a := {| src := src (attrs n); _metadata := Some type_ |} in
  match n with
  | Constant _ cls value => Constant a cls value
  | List _ elements => List a elements
  | _ => n
  end.

(** The object a pass works on when a position is no longer in the tree
    (it never happens, see [sweep_loop_attached]). *)
Definition node_at (m : node) (p : path) : result node :=
  match get m p with
  | Some n => Ok n
  | None => Raise (CompilerPanic "node is not attached to the tree")
  end.

(** ** vyper/ast/folding.py *)

Definition no_position : position :=
  {| lineno := 0; col_offset := 0; end_lineno := 0; end_col_offset := 0 |}.

(** [node(value=value)]: a literal that was not read from source. *)
Definition fresh_attributes : attributes := {| src := no_position; _metadata := None |}.

Definition BUILTIN_CONSTANTS : list (string * (constant_class * py_value)) :=
  [ ("EMPTY_BYTES32",
      (Hex, py_str "0x0000000000000000000000000000000000000000000000000000000000000000"));
    ("ZERO_ADDRESS", (Hex, py_str "0x0000000000000000000000000000000000000000"));
    ("MAX_INT128", (Int, py_int (2 ^ 127 - 1)));
    ("MIN_INT128", (Int, py_int (- (2 ^ 127))));
    ("MAX_DECIMAL", (Decimal, py_decimal (2 ^ 127 - 1) 0));
    ("MIN_DECIMAL", (Decimal, py_decimal (- (2 ^ 127)) 0));
    ("MAX_UINT256", (Int, py_int (2 ^ 256 - 1))) ].

Fixpoint _replace (old_node new_node : node) (type_ : option BaseTypeDefinition) : result node :=
  match new_node with
  | Constant _ cls value =>
      let new_node := Constant (from_node old_node) cls value in
      match type_ with
      | Some t => Ok (set_metadata_type new_node t)
      | None => Ok new_node
      end
  | List _ elements =>
      base_type <- match type_ with
                   | Some t => vt <- value_type t ;; Ok (Some vt)
                   | None => Ok None
                   end ;;
      list_values <- list_comprehension (fun i => _replace old_node i base_type) elements ;;
      let new_node := List (from_node old_node) list_values in
      match type_ with
      | Some t => Ok (set_metadata_type new_node t)
      | None => Ok new_node
      end
  | _ => Raise UnfoldableNode
  end.

(** The [replacement_node] argument of [replace_constant]: a literal built
    by the caller, or a reference to a node of the tree being rewritten
    ([node.value] of a constant declaration, read again at every use). *)
Inductive node_ref : Type :=
| fresh (n : node)
| in_tree (p : path).

Definition deref (m : node) (r : node_ref) : option node :=
  match r with
  | fresh n => Some n
  | in_tree p => get m p
  end.

Definition Name_with_id (id_ : string) (n : node) : bool :=
  match n with
  | Name _ id => String.eqb id id_
  | _ => false
  end.

Definition assignments : list node_class := [cAssign; cAnnAssign; cAugAssign].

(** The three tests of [replace_constant] that leave a reference alone. *)
Definition is_call_func (m : node) (p : path) : bool :=
  let parent := get_ancestor m p None in
  isinstance_at m parent [cCall]
  && match parent with Some q => path_in p (member m q f_func) | None => false end.

Definition is_dict_key (m : node) (p : path) : bool :=
  let parent := get_ancestor m p None in
  isinstance_at m parent [cDict]
  && match parent with Some q => path_in p (member m q f_keys) | None => false end.

Definition is_assignment_target (m : node) (p : path) : bool :=
  match get_ancestor m p (Some [cIndex]) with
  | Some _ => false
  | None =>
      match get_ancestor m p (Some assignments) with
      | Some assign =>
          existsb (fun target => path_in p (get_descendants m target (fun _ => true) true false))
                  (member m assign f_target)
      | None => false
      end
  end.

Definition replace_constant_body (id_ : string) (replacement_node : node_ref)
    (raise_on_error : bool) (type_ : option BaseTypeDefinition)
    (p : path) (st : node * nat) : result (node * nat) :=
  let '(vyper_module, changed_nodes) := st in
  if is_call_func vyper_module p then Ok st
  else if is_dict_key vyper_module p then Ok st
  else if is_assignment_target vyper_module p then Ok st
  else
    node <- node_at vyper_module p ;;
    match match deref vyper_module replacement_node with
          | Some new => _replace node new type_
          | None => Raise UnfoldableNode
          end with
    | Raise UnfoldableNode =>
        if raise_on_error then Raise UnfoldableNode else Ok st
    | Raise e => Raise e
    | Ok new_node =>
        m' <- replace_in_tree vyper_module p new_node ;;
        Ok (m', changed_nodes + 1)
    end.

Definition replace_constant (vyper_module : node) (id_ : string)
    (replacement_node : node_ref) (raise_on_error : bool)
    (type_ : option BaseTypeDefinition) : result (node * nat) :=
  for_in (get_descendants vyper_module [] (Name_with_id id_) false true)
         (replace_constant_body id_ replacement_node raise_on_error type_)
         (vyper_module, 0).

Definition replace_builtin_constants_body (entry : string * (constant_class * py_value))
    (vyper_module : node) : result node :=
  let '(name, (node, value)) := entry in
  r <- replace_constant vyper_module name
         (fresh (Constant fresh_attributes node value)) true None ;;
  Ok (fst r).

Definition replace_builtin_constants (vyper_module : node) : result node :=
  for_in BUILTIN_CONSTANTS replace_builtin_constants_body vyper_module.

(** An entry of the dispatch table of builtin functions: it may or may not
    have an [evaluate] method. *)
Record builtin_function : Type := {
  evaluate_method : option (node -> result node)
}.

Section folding.

(** What the folding module imports and does not define. *)

(** [node.evaluate()] of the operator, comparison and subscript classes. *)
Variable evaluate : node -> result node.

(** [vyper.builtin_functions.DISPATCH_TABLE]. *)
Variable DISPATCH_TABLE : gmap string builtin_function.

(** [vyper.semantics.types.utils.get_type_from_annotation]: the type
    descriptor, or the message of the exception it raises. *)
Variable get_type_from_annotation : node -> DataLocation -> BaseTypeDefinition + string.

(** The truth value of a node object ([if constant_annotation]). *)
Variable truth_value : node -> bool.

Definition replace_literal_ops_body (p : path) (st : node * nat) : result (node * nat) :=
  let '(vyper_module, changed_nodes) := st in
  node <- node_at vyper_module p ;;
  match evaluate node with
  | Raise UnfoldableNode => Ok st
  | Raise e => Raise e
  | Ok new_node =>
      m' <- replace_in_tree vyper_module p new_node ;;
      Ok (m', changed_nodes + 1)
  end.

Definition replace_literal_ops (vyper_module : node) : result (node * nat) :=
  let node_types := [cBoolOp; cBinOp; cUnaryOp; cCompare] in
  for_in (get_descendants vyper_module [] (fun n => isinstance n node_types) false true)
         replace_literal_ops_body
         (vyper_module, 0).

Definition replace_subscripts_body (p : path) (st : node * nat) : result (node * nat) :=
  let '(vyper_module, changed_nodes) := st in
  node <- node_at vyper_module p ;;
  match evaluate node with
  | Raise UnfoldableNode => Ok st
  | Raise e => Raise e
  | Ok new_node =>
      m' <- replace_in_tree vyper_module p new_node ;;
      Ok (m', changed_nodes + 1)
  end.

Definition replace_subscripts (vyper_module : node) : result (node * nat) :=
  for_in (get_descendants vyper_module [] (fun n => isinstance n [cSubscript]) false true)
         replace_subscripts_body
         (vyper_module, 0).

Definition replace_builtin_functions_body (p : path) (st : node * nat) : result (node * nat) :=
  let '(vyper_module, changed_nodes) := st in
  node <- node_at vyper_module p ;;
  match node with
  | Call _ (Name _ name) _ _ =>
      match DISPATCH_TABLE !! name with
      | None => Ok st
      | Some func =>
          match evaluate_method func with
          | None => Ok st
          | Some func_evaluate =>
              match func_evaluate node with
              | Raise UnfoldableNode => Ok st
              | Raise e => Raise e
              | Ok new_node =>
                  m' <- replace_in_tree vyper_module p new_node ;;
                  Ok (m', changed_nodes + 1)
              end
          end
      end
  | _ => Ok st
  end.

Definition replace_builtin_functions (vyper_module : node) : result (node * nat) :=
  for_in (get_descendants vyper_module [] (fun n => isinstance n [cCall]) false true)
         replace_builtin_functions_body
         (vyper_module, 0).

Definition replace_user_defined_constants_body (p : path) (st : node * nat)
    : result (node * nat) :=
  let '(vyper_module, changed_nodes) := st in
  node <- node_at vyper_module p ;;
  match node with
  | AnnAssign _ (Name _ target_id) (Call _ (Name _ func_id) args _) _ =>
      if negb (String.eqb func_id "constant") then Ok st
      else
        match args with
        | [] => Raise IndexError
        | constant_annotation :: _ =>
            type_ <- (if truth_value constant_annotation
                      then match get_type_from_annotation constant_annotation UNSET with
                           | inl t => Ok (Some t)
                           | inr msg => Raise (TypeResolutionError msg)
                           end
                      else Ok None) ;;
            r <- replace_constant vyper_module target_id (in_tree (p ++ [2])) false type_ ;;
            Ok (fst r, changed_nodes + snd r)
        end
  | _ => Ok st
  end.

Definition replace_user_defined_constants (vyper_module : node) : result (node * nat) :=
  for_in (get_children vyper_module [] (fun n => isinstance n [cAnnAssign]))
         replace_user_defined_constants_body
         (vyper_module, 0).

(** One turn of the [while] loop of [fold]. *)
Definition fold_iteration (vyper_module : node) : result (node * nat) :=
  let changed_nodes := 0 in
  r1 <- replace_user_defined_constants vyper_module ;;
  let changed_nodes := changed_nodes + snd r1 in
  r2 <- replace_literal_ops (fst r1) ;;
  let changed_nodes := changed_nodes + snd r2 in
  r3 <- replace_subscripts (fst r2) ;;
  let changed_nodes := changed_nodes + snd r3 in
  r4 <- replace_builtin_functions (fst r3) ;;
  let changed_nodes := changed_nodes + snd r4 in
  Ok (fst r4, changed_nodes).

(** [while changed_nodes: ...], entered with [changed_nodes = 1]; [None]
    when the loop has not ended after [fuel] turns. *)
Fixpoint fold_while (fuel : nat) (vyper_module : node) : option (result node) :=
  match fuel with
  | 0 => None
  | S fuel' =>
      match fold_iteration vyper_module with
      | Raise e => Some (Raise e)
      | Ok (m', changed_nodes) =>
          if Nat.eqb changed_nodes 0 then Some (Ok m') else fold_while fuel' m'
      end
  end.

Definition fold (fuel : nat) (vyper_module : node) : option (result node) :=
  match replace_builtin_constants vyper_module with
  | Raise e => Some (Raise e)
  | Ok m => fold_while fuel m
  end.

(** *** The words of the spec about the passes and the driver *)

(** The node is replaced by what its [evaluate] method returns. *)
Definition evaluates_to (old new : node) : Prop := evaluate old = Ok new.

(** The node is a call of a builtin function by name and is replaced by what
    the [evaluate] method of the function returns for it. *)
Definition builtin_evaluates_to (old new : node) : Prop :=
  exists a fa name args keywords func func_evaluate,
    old = Call a (Name fa name) args keywords
    /\ DISPATCH_TABLE !! name = Some func
    /\ evaluate_method func = Some func_evaluate
    /\ func_evaluate old = Ok new.

(** One group runs user-defined constant substitution, literal operator
    evaluation, subscript evaluation and builtin call evaluation, in that
    order, and sums the counts they return. *)
Definition pass_group (m m' : node) (total : nat) : Prop :=
  exists m1 c1 m2 c2 m3 c3 c4,
    replace_user_defined_constants m = Ok (m1, c1)
    /\ replace_literal_ops m1 = Ok (m2, c2)
    /\ replace_subscripts m2 = Ok (m3, c3)
    /\ replace_builtin_functions m3 = Ok (m', c4)
    /\ total = c1 + c2 + c3 + c4.

(** The group is repeated while the sum is nonzero: [groups] counts the
    groups that were run, the last of which is the only one with sum zero. *)
Inductive repeated_groups : nat -> node -> node -> Prop :=
| last_group m m' :
    pass_group m m' 0 -> repeated_groups 1 m m'
| next_group groups m m1 m' total :
    pass_group m m1 total -> total <> 0 -> repeated_groups groups m1 m' ->
    repeated_groups (S groups) m m'.

(** Builtin constant substitution runs once, before the groups. *)
Definition fold_spec (groups : nat) (m m' : node) : Prop :=
  exists m0, replace_builtin_constants m = Ok m0 /\ repeated_groups groups m0 m'.

End folding.

(** * vyper/semantics/types/value/address.py *)

Definition AddressDefinition : BaseTypeDefinition := TypeDefinition "address" None.

Section AddressPrimitive.

(** [vyper.utils.checksum_encode]. *)
Variable checksum_encode : string -> result string.

(** [BasePrimitive.from_literal], for a class with the given
    [_valid_literal] and [_type] members. *)
Variable BasePrimitive_from_literal :
  list constant_class -> BaseTypeDefinition -> node -> result BaseTypeDefinition.

Definition _valid_literal : list constant_class := [Hex].

Definition from_literal (node : node) : result BaseTypeDefinition :=
  _ <- BasePrimitive_from_literal _valid_literal AddressDefinition node ;;
  match node with
  | Constant _ _ (py_str addr) =>
      if negb (String.length addr =? 42)%nat
      then Raise (InvalidLiteral "Invalid literal for type 'address'")
      else
        encoded <- checksum_encode addr ;;
        if negb (String.eqb encoded addr)
        then Raise (CompilerPanic "Address checksum mismatch")
        else Ok AddressDefinition
  | Constant _ _ _ => Raise TypeError
  | _ => Raise AttributeError
  end.

End AddressPrimitive.

(** * Vocabulary of the properties *)

(** [ordered R l]: every element is related to all the later ones. *)
Fixpoint ordered (R : path -> path -> Prop) (l : list path) : Prop :=
  match l with
  | [] => True
  | p :: rest => Forall (R p) rest /\ ordered R rest
  end.

Definition not_above (p q : path) : Prop := ~ q `prefix_of` p.

Definition spine_entry : Type := node_class * field.

Fixpoint spine (n : node) (p : path) : option (list spine_entry) :=
  match p with
  | [] => Some []
  | i :: p' =>
      match children n !! i, child_fields n !! i with
      | Some c, Some f =>
          match spine c p' with
          | Some s => Some ((class_of n, f) :: s)
          | None => None
          end
      | _, _ => None
      end
  end.

(** Replacing a subtree leaves the spine of every position that is not
    strictly below it. *)
Definition strictly_below (q p : path) : Prop := exists i r, p = q ++ i :: r.

(** The closest ancestor of one of the classes, as a spine entry. *)
Definition nearest (classes : list node_class) (s : list spine_entry) : option spine_entry :=
  List.find (fun e => bool_decide (e.1 ∈ classes)) (reverse s).

Definition spine_call_func (s : list spine_entry) : bool :=
  bool_decide (last s = Some (cCall, f_func)).

Definition spine_dict_key (s : list spine_entry) : bool :=
  bool_decide (last s = Some (cDict, f_keys)).

Definition spine_assignment_target (s : list spine_entry) : bool :=
  match nearest [cIndex] s with
  | Some _ => false
  | None =>
      match nearest assignments s with
      | Some e => bool_decide (e.2 = f_target)
      | None => false
      end
  end.

Definition spine_skips (s : list spine_entry) : bool :=
  spine_call_func s || spine_dict_key s || spine_assignment_target s.

(** A literal: a Constant, or a List of literals. *)
Fixpoint is_literal (n : node) : bool :=
  match n with
  | Constant _ _ _ => true
  | List _ elements => forallb is_literal elements
  | _ => false
  end.

Definition is_literal_class (c : node_class) : bool :=
  match c with
  | cConstant | cList => true
  | _ => false
  end.

(** The number of nodes that are neither a Constant nor a List. *)
Fixpoint unfolded_count (n : node) : nat :=
  (if is_literal_class (class_of n) then 0 else 1)
  + sum_list (map_children unfolded_count n).

(** [n] with the attributes [a]. *)
Definition set_attrs (a : attributes) (n : node) : node :=
  match n with
  | Module _ body => Module a body
  | AnnAssign _ target annotation value => AnnAssign a target annotation value
  | Assign _ target value => Assign a target value
  | AugAssign _ target op value => AugAssign a target op value
  | Name _ id => Name a id
  | Constant _ cls value => Constant a cls value
  | List _ elements => List a elements
  | Dict _ keys values => Dict a keys values
  | Call _ func args keywords => Call a func args keywords
  | BinOp _ lhs op rhs => BinOp a lhs op rhs
  | UnaryOp _ op operand => UnaryOp a op operand
  | BoolOp _ op values => BoolOp a op values
  | Compare _ lhs op rhs => Compare a lhs op rhs
  | Subscript _ value slice => Subscript a value slice
  | Index _ value => Index a value
  | Other _ ast_type children => Other a ast_type children
  end.

(** What a folding pass may put in the place of a node: a literal in the
    place of a node that is not one, or an element of a list literal in the
    place of a subscript of that list. *)
Definition selects_element (old new : node) : Prop :=
  exists a elts a' slice e a'',
    old = Subscript a (List a' elts) slice /\ e ∈ elts /\ new = set_attrs a'' e.

Definition folds_to (old new : node) : Prop :=
  (is_literal_class (class_of old) = false /\ is_literal new = true)
  \/ selects_element old new.

(** [rewrites R k m m']: [m'] is [m] after [k] replacements allowed by [R],
    each at a position below the root. *)
Inductive rewrites (R : node -> node -> Prop) : nat -> node -> node -> Prop :=
| rewrites_refl m : rewrites R 0 m m
| rewrites_step k m p old new m1 m' :
    p <> [] -> get m p = Some old -> R old new -> put m p new = Some m1 ->
    rewrites R k m1 m' -> rewrites R (S k) m m'.

Definition pending (matches : node -> bool) (m : node) (l : list path) : Prop :=
  ordered (fun p q => ~ p `prefix_of` q) l
  /\ Forall (fun p => p <> [] /\ exists x, get m p = Some x /\ matches x = true) l.

Definition antichain (l : list path) : Prop :=
  forall p q, p ∈ l -> q ∈ l -> p `prefix_of` q -> p = q.

(** A reference is replaced by a literal. *)
Definition name_to_literal (old new : node) : Prop :=
  class_of old = cName /\ is_literal new = true.

(** The reference is the callee of a call: its parent is a Call and holds
    it as its [func]. *)
Definition used_as_call_target (m : node) (p : path) : Prop :=
  exists s, spine m p = Some (s ++ [(cCall, f_func)]).

(** The reference is a key of a dictionary literal. *)
Definition used_as_dict_key (m : node) (p : path) : Prop :=
  exists s, spine m p = Some (s ++ [(cDict, f_keys)]).

(** The reference lies below an Index node. *)
Definition inside_Index (m : node) (p : path) : Prop :=
  exists s1 f s2, spine m p = Some (s1 ++ (cIndex, f) :: s2).

(** The reference lies in the target of the assignment statement (plain,
    annotated or augmented) that encloses it most closely. *)
Definition in_assignment_target (m : node) (p : path) : Prop :=
  exists s1 c s2,
    spine m p = Some (s1 ++ (c, f_target) :: s2)
    /\ c ∈ assignments /\ Forall (fun e => e.1 ∉ assignments) s2.

Definition not_substitutable (m : node) (p : path) : Prop :=
  used_as_call_target m p \/ used_as_dict_key m p
  \/ (in_assignment_target m p /\ ~ inside_Index m p).

(** ** A sample module and sample collaborators

    The module is
<<
      x: constant(int128) = 5
      x(7)
      {x: 1}
      x[0] = 2
      y = x + 1
      arr[x] = max(x, MAX_INT128)
      ARR: constant(int128[3]) = [1, 2, 3]
      z = ARR[1]
      MAX_UINT256(7)
>>
*)

Definition at_ (line col : nat) : attributes :=
  {| src := {| lineno := line; col_offset := col; end_lineno := line; end_col_offset := col |};
     _metadata := None |}.

Definition example_module : node :=
  Module (at_ 0 0)
    [ AnnAssign (at_ 1 0) (Name (at_ 1 0) "x")
        (Call (at_ 1 3) (Name (at_ 1 3) "constant") [Name (at_ 1 12) "int128"] [])
        (Some (Constant (at_ 1 22) Int (py_int 5)));
      Other (at_ 2 0) "Expr"
        [Call (at_ 2 0) (Name (at_ 2 0) "x") [Constant (at_ 2 2) Int (py_int 7)] []];
      Other (at_ 3 0) "Expr"
        [Dict (at_ 3 0) [Name (at_ 3 1) "x"] [Constant (at_ 3 4) Int (py_int 1)]];
      Assign (at_ 4 0)
        (Subscript (at_ 4 0) (Name (at_ 4 0) "x")
           (Index (at_ 4 2) (Constant (at_ 4 2) Int (py_int 0))))
        (Constant (at_ 4 7) Int (py_int 2));
      Assign (at_ 5 0) (Name (at_ 5 0) "y")
        (BinOp (at_ 5 4) (Name (at_ 5 4) "x") "Add" (Constant (at_ 5 8) Int (py_int 1)));
      Assign (at_ 6 0)
        (Subscript (at_ 6 0) (Name (at_ 6 0) "arr") (Index (at_ 6 4) (Name (at_ 6 4) "x")))
        (Call (at_ 6 9) (Name (at_ 6 9) "max")
           [Name (at_ 6 13) "x"; Name (at_ 6 16) "MAX_INT128"] []);
      AnnAssign (at_ 7 0) (Name (at_ 7 0) "ARR")
        (Call (at_ 7 5) (Name (at_ 7 5) "constant")
           [Subscript (at_ 7 14) (Name (at_ 7 14) "int128")
              (Index (at_ 7 21) (Constant (at_ 7 21) Int (py_int 3)))] [])
        (Some (List (at_ 7 27)
                 [Constant (at_ 7 28) Int (py_int 1); Constant (at_ 7 31) Int (py_int 2);
                  Constant (at_ 7 34) Int (py_int 3)]));
      Assign (at_ 8 0) (Name (at_ 8 0) "z")
        (Subscript (at_ 8 4) (Name (at_ 8 4) "ARR")
           (Index (at_ 8 8) (Constant (at_ 8 8) Int (py_int 1))));
      Other (at_ 9 0) "Expr"
        [Call (at_ 9 0) (Name (at_ 9 0) "MAX_UINT256") [Constant (at_ 9 12) Int (py_int 7)] []]
    ].

(** Addition of integer literals, and subscripts of list literals. *)
Definition int_value (n : node) : option Z :=
  match n with
  | Constant _ Int (py_int x) => Some x
  | _ => None
  end.

Definition example_evaluate (n : node) : result node :=
  match n with
  | BinOp _ lhs op rhs =>
      match int_value lhs, int_value rhs with
      | Some x, Some y =>
          if String.eqb op "Add" then Ok (Constant (from_node n) Int (py_int (x + y)))
          else Raise UnfoldableNode
      | _, _ => Raise UnfoldableNode
      end
  | Subscript _ (List _ elts) (Index _ idx) =>
      match int_value idx with
      | Some i =>
          if (i <? 0)%Z then Raise UnfoldableNode
          else match elts !! Z.to_nat i with
               | Some e => Ok e
               | None => Raise UnfoldableNode
               end
      | None => Raise UnfoldableNode
      end
  | _ => Raise UnfoldableNode
  end.

Definition example_max (n : node) : result node :=
  match n with
  | Call _ _ [x; y] [] =>
      match int_value x, int_value y with
      | Some x, Some y => Ok (Constant (from_node n) Int (py_int (Z.max x y)))
      | _, _ => Raise UnfoldableNode
      end
  | _ => Raise UnfoldableNode
  end.

(** [max] can be evaluated, [send] cannot. *)
Definition example_DISPATCH_TABLE : gmap string builtin_function :=
  {[ "max" := {| evaluate_method := Some example_max |};
     "send" := {| evaluate_method := None |} ]}.

Fixpoint example_get_type (n : node) (location : DataLocation) : BaseTypeDefinition + string :=
  match n with
  | Name _ id =>
      if String.eqb id "int128" then inl (TypeDefinition "int128" None)
      else inr "UnknownType"
  | Subscript _ v (Index _ (Constant _ Int _)) =>
      match example_get_type v location with
      | inl t => inl (TypeDefinition "array" (Some t))
      | inr e => inr e
      end
  | _ => inr "UnknownType"
  end.

Definition example_truth (n : node) : bool := true.

Definition example_fold : nat -> node -> option (result node) :=
  fold example_evaluate example_DISPATCH_TABLE example_get_type example_truth.

(** The element type [depth] levels below a list type. *)
Definition element_type (type_ : option BaseTypeDefinition) : option BaseTypeDefinition :=
  match type_ with
  | Some (TypeDefinition _ value_type_member) => value_type_member
  | None => None
  end.

Fixpoint nested_element_type (depth : nat) (type_ : option BaseTypeDefinition)
    : option BaseTypeDefinition :=
  match depth with
  | 0 => type_
  | S d => nested_element_type d (element_type type_)
  end.

(** What the folder expects of the evaluation methods it calls: an operator
    or a comparison evaluates to a literal, a subscript to a literal or to an
    element of the list literal it indexes, a builtin call to a literal. *)
Definition evaluate_contract (evaluate : node -> result node) : Prop :=
  forall n n', evaluate n = Ok n' -> is_literal n' = true \/ selects_element n n'.

Definition dispatch_contract (DISPATCH_TABLE : gmap string builtin_function) : Prop :=
  forall name func func_evaluate n n',
    DISPATCH_TABLE !! name = Some func ->
    evaluate_method func = Some func_evaluate ->
    func_evaluate n = Ok n' -> is_literal n' = true.

(** No reference to a builtin constant is left where it would be
    substituted. *)
Definition builtin_references_settled (m : node) : Prop :=
  forall p a name s,
    name ∈ BUILTIN_CONSTANTS.*1 -> p <> [] ->
    get m p = Some (Name a name) -> spine m p = Some s -> spine_skips s = true.

Definition raises_UnfoldableNode {A} (r : result A) : bool :=
  match r with
  | Raise UnfoldableNode => true
  | _ => false
  end.

Definition fold_raises_UnfoldableNode (r : option (result node)) : bool :=
  match r with
  | Some r => raises_UnfoldableNode r
  | None => false
  end.

(** A sample checksum: the letters after the [0x] prefix in upper case. *)
Definition upper (c : Ascii.ascii) : Ascii.ascii :=
  let n := Ascii.nat_of_ascii c in
  if (97 <=? n)%nat && (n <=? 122)%nat then Ascii.ascii_of_nat (n - 32) else c.

Fixpoint upper_string (s : string) : string :=
  match s with
  | EmptyString => EmptyString
  | String c rest => String (upper c) (upper_string rest)
  end.

Definition example_checksum_encode (addr : string) : result string :=
  match addr with
  | String "0"%char (String "x"%char digits) =>
      Ok (String "0"%char (String "x"%char (upper_string digits)))
  | _ => Raise (OtherException "AssertionError")
  end.

#[global] Instance constant_class_eq_dec : EqDecision constant_class.
Proof. solve_decision. Defined.

Definition example_BasePrimitive_from_literal (valid_literal : list constant_class)
    (type_ : BaseTypeDefinition) (n : node) : result BaseTypeDefinition :=
  match n with
  | Constant _ cls _ =>
      if existsb (fun c => bool_decide (c = cls)) valid_literal then Ok type_
      else Raise (InvalidLiteral "Invalid literal type")
  | _ => Raise UnexpectedNodeType
  end.

(** The statement [MAX_UINT256(7)]: a builtin constant used as the callee
    of a call. *)
Definition call_of_builtin_constant : node :=
  Module (at_ 0 0)
    [ Other (at_ 1 0) "Expr"
        [Call (at_ 1 0) (Name (at_ 1 0) "MAX_UINT256") [Constant (at_ 1 12) Int (py_int 7)] []] ].

(** A declaration whose type cannot be resolved: [bad: constant(uint7) = 1]. *)
Definition unresolvable_declaration : node :=
  Module (at_ 0 0)
    [ AnnAssign (at_ 1 0) (Name (at_ 1 0) "bad")
        (Call (at_ 1 5) (Name (at_ 1 5) "constant") [Name (at_ 1 14) "uint7"] [])
        (Some (Constant (at_ 1 23) Int (py_int 1))) ].

(** Case split on a list of at most three children. *)
Ltac split_children cs :=
  destruct cs as [|? [|? [|? [|? ?]]]]; simpl in *; try lia; try done.

(** A declaration that reuses the name of a builtin constant:
<<
      MAX_INT128: constant(int128) = 5
      y = MAX_INT128
>>
*)
Definition redefined_builtin_constant : node :=
  Module (at_ 0 0)
    [ AnnAssign (at_ 1 0) (Name (at_ 1 0) "MAX_INT128")
        (Call (at_ 1 12) (Name (at_ 1 12) "constant") [Name (at_ 1 21) "int128"] [])
        (Some (Constant (at_ 1 31) Int (py_int 5)));
      Assign (at_ 2 0) (Name (at_ 2 0) "y") (Name (at_ 2 4) "MAX_INT128") ].

(** The literal [n] with the attributes [a] on each of its nodes. *)
Fixpoint restamp (a : attributes) (n : node) : node :=
  match n with
  | Constant _ cls value => Constant a cls value
  | List _ elements => List a (map (restamp a) elements)
  | _ => n
  end.

(** The call is one [replace_builtin_functions] leaves alone: its callee is
    not a Name, or the name is not in the dispatch table, or the entry has
    no [evaluate] method, or the method raises UnfoldableNode for it. *)
Definition skipped_call (DISPATCH_TABLE : gmap string builtin_function) (call : node) : Prop :=
  exists a func args keywords,
    call = Call a func args keywords
    /\ (class_of func <> cName
        \/ (exists fa name, func = Name fa name /\ DISPATCH_TABLE !! name = None)
        \/ (exists fa name entry,
              func = Name fa name /\ DISPATCH_TABLE !! name = Some entry
              /\ evaluate_method entry = None)
        \/ (exists fa name entry func_evaluate,
              func = Name fa name /\ DISPATCH_TABLE !! name = Some entry
              /\ evaluate_method entry = Some func_evaluate
              /\ func_evaluate call = Raise UnfoldableNode)).

(** * Properties of the tree model *)

Section interleave_facts.
Context {A B : Type}.
Implicit Types (ks vs cs : list A).

Lemma interleave_nil_r ks : interleave ks [] = ks.
Proof. by destruct ks. Qed.

Lemma length_interleave ks vs :
  length (interleave ks vs) = length ks + length vs.
Proof.
  revert vs; induction ks as [|k ks IH]; intros [|v vs]; simpl; auto.
  rewrite IH; lia.
Qed.

Lemma interleave_fmap (f : A -> B) ks vs :
  interleave (f <$> ks) (f <$> vs) = f <$> interleave ks vs.
Proof.
  revert vs; induction ks as [|k ks IH]; intros [|v vs]; simpl; auto.
  by rewrite IH.
Qed.

Lemma uninterleave_interleave ks vs :
  uninterleave (length ks) (length vs) (interleave ks vs) = (ks, vs).
Proof.
  revert vs; induction ks as [|k ks IH]; intros [|v vs]; simpl; auto.
  by rewrite IH.
Qed.

Lemma interleave_uninterleave nk nv cs :
  length cs = nk + nv ->
  interleave (uninterleave nk nv cs).1 (uninterleave nk nv cs).2 = cs
  /\ length (uninterleave nk nv cs).1 = nk
  /\ length (uninterleave nk nv cs).2 = nv.
Proof.
  revert nv cs; induction nk as [|nk IH]; intros nv cs Hlen; simpl.
  { by destruct cs. }
  destruct nv as [|nv]; simpl.
  { rewrite interleave_nil_r. split; [done|]. split; [lia | done]. }
  destruct cs as [|k [|v cs]]; simpl in Hlen; try lia.
  specialize (IH nv cs ltac:(lia)).
  destruct (uninterleave nk nv cs) as [ks vs]; simpl in *.
  destruct IH as (-> & -> & ->); auto.
Qed.

End interleave_facts.

(** ** Children *)

Lemma map_children_fmap {B} (f : node -> B) n :
  map_children f n = f <$> children n.
Proof.
  unfold children; destruct n as [| ? ? ? [v|] | | | | | | | | | | | | | |];
    simpl; rewrite ?list_fmap_id, ?fmap_app, ?interleave_fmap; done.
Qed.

Lemma length_child_fields n : length (child_fields n) = length (children n).
Proof.
  unfold children; destruct n as [| ? ? ? [v|] | | | | | | | | | | | | | |];
    simpl;
    rewrite ?length_interleave, ?length_app, ?length_replicate, ?length_fmap;
    done.
Qed.

Lemma children_with_children n cs :
  length cs = length (children n) ->
  children (with_children n cs) = cs.
Proof.
  unfold children; destruct n as [| ? ? ? [v|] | | | | | | | | | | | | | |];
    simpl; rewrite ?list_fmap_id, ?length_interleave, ?length_app;
    intros Hlen; try (by rewrite ?list_fmap_id); try (split_children cs; fail).
  - pose proof (interleave_uninterleave (length keys) (length values) cs Hlen) as (H & _ & _).
    destruct (uninterleave (length keys) (length values) cs) as [ks vs]; simpl in *.
    by rewrite !list_fmap_id.
  - destruct cs as [|f' rest]; simpl in *; [lia|].
    by rewrite !list_fmap_id, take_drop.
Qed.

Lemma with_children_children n : with_children n (children n) = n.
Proof.
  unfold children; destruct n as [| ? ? ? [v|] | | | | | | | | | | | | | |];
    simpl; rewrite ?list_fmap_id; try done.
  - by rewrite uninterleave_interleave.
  - by rewrite take_app_length, drop_app_length.
Qed.

Lemma class_of_with_children n cs : class_of (with_children n cs) = class_of n.
Proof.
  destruct n as [| ? ? ? [v|] | | | | | | | | | | | | | |]; simpl; try done;
    try (split_children cs; fail);
    try (by destruct (uninterleave _ _ _)); by destruct cs.
Qed.

Lemma attrs_with_children n cs : attrs (with_children n cs) = attrs n.
Proof.
  destruct n as [| ? ? ? [v|] | | | | | | | | | | | | | |]; simpl; try done;
    try (split_children cs; fail);
    try (by destruct (uninterleave _ _ _)); by destruct cs.
Qed.

Lemma child_fields_with_children n cs :
  length cs = length (children n) ->
  child_fields (with_children n cs) = child_fields n.
Proof.
  unfold children; destruct n as [| ? ? ? [v|] | | | | | | | | | | | | | |];
    simpl; rewrite ?list_fmap_id, ?length_interleave, ?length_app;
    intros Hlen; try (by rewrite ?Hlen); try (split_children cs; fail).
  - pose proof (interleave_uninterleave (length keys) (length values) cs Hlen) as (_ & H1 & H2).
    destruct (uninterleave (length keys) (length values) cs) as [ks vs]; simpl in *.
    by rewrite H1, H2.
  - destruct cs as [|f' rest]; simpl in *; [lia|].
    rewrite length_take, length_drop. do 3 f_equal; lia.
Qed.

Lemma node_count_children n :
  node_count n = S (sum_list (node_count <$> children n)).
Proof. rewrite <- map_children_fmap. by destruct n. Qed.

Lemma node_count_child n c : c ∈ children n -> node_count c < node_count n.
Proof.
  rewrite (node_count_children n). generalize (children n) as l.
  induction l as [|x l IH]; csimpl; intros Hin.
  - by apply elem_of_nil in Hin.
  - apply elem_of_cons in Hin as [->|Hin]; [lia|]. specialize (IH Hin). lia.
Qed.

(** Induction over the tree through [children]. *)
Lemma node_children_ind (P : node -> Prop) :
  (forall n, (forall c, c ∈ children n -> P c) -> P n) ->
  forall n, P n.
Proof.
  intros step n. remember (node_count n) as k eqn:Hk.
  revert n Hk. induction k as [k IH] using lt_wf_ind. intros n ->.
  apply step; intros c Hc. eapply IH; [|reflexivity]. by apply node_count_child.
Qed.

(** ** Reading and replacing at a position *)

Lemma get_app n p q :
  get n (p ++ q) = match get n p with Some c => get c q | None => None end.
Proof.
  revert n; induction p as [|i p IH]; intros n; simpl; [done|].
  destruct (children n !! i); auto.
Qed.

Lemma get_snoc n p i :
  get n (p ++ [i]) = match get n p with Some c => children c !! i | None => None end.
Proof.
  rewrite get_app. destruct (get n p) as [c|]; simpl; [|done].
  by destruct (children c !! i).
Qed.

Lemma get_prefix_is_Some n p q :
  is_Some (get n (p ++ q)) -> is_Some (get n p).
Proof. rewrite get_app. destruct (get n p); [eauto | by intros [? ?]]. Qed.

Lemma put_is_Some n p x : is_Some (put n p x) <-> is_Some (get n p).
Proof.
  revert n; induction p as [|i p IH]; intros n; simpl; [split; eauto|].
  destruct (children n !! i) as [c|]; [|done].
  rewrite <- IH. destruct (put c p x); split; intros [? ?]; done || eauto.
Qed.

Lemma put_cons_inv n i p x n' :
  put n (i :: p) x = Some n' ->
  exists c c', children n !! i = Some c /\ put c p x = Some c'
    /\ n' = with_children n (<[i := c']> (children n)).
Proof.
  simpl. destruct (children n !! i) as [c|]; [|done].
  destruct (put c p x) as [c'|] eqn:Hput; [|done]. intros [= <-].
  by exists c, c'.
Qed.

(** Replacing below a node keeps its class, attributes and members. *)
Lemma put_cons_head n i p x n' :
  put n (i :: p) x = Some n' ->
  class_of n' = class_of n /\ attrs n' = attrs n
  /\ child_fields n' = child_fields n
  /\ exists c', children n' = <[i := c']> (children n).
Proof.
  intros (c & c' & Hc & Hput & ->)%put_cons_inv.
  rewrite class_of_with_children, attrs_with_children.
  rewrite child_fields_with_children, children_with_children
    by apply length_insert.
  eauto.
Qed.

Lemma get_put_prefix n p r x n' :
  put n (p ++ r) x = Some n' ->
  exists a a', get n p = Some a /\ put a r x = Some a' /\ get n' p = Some a'.
Proof.
  revert n n'; induction p as [|i p IH]; intros n n' Hput; simpl in *; [eauto|].
  apply put_cons_inv in Hput as (c & c' & Hc & Hput & ->).
  rewrite Hc. destruct (IH _ _ Hput) as (a & a' & Ha & Ha' & Hget).
  exists a, a'. split; [done|]. split; [done|].
  rewrite children_with_children by apply length_insert.
  rewrite list_lookup_insert_eq by (by eapply lookup_lt_Some). done.
Qed.

Lemma get_put_same n p x n' : put n p x = Some n' -> get n' p = Some x.
Proof.
  intros Hput. rewrite <- (app_nil_r p) in Hput.
  apply get_put_prefix in Hput as (a & a' & _ & [= <-] & Hget). done.
Qed.

Lemma get_put_below n p r x n' :
  put n p x = Some n' -> get n' (p ++ r) = get x r.
Proof. intros Hput. rewrite get_app. by rewrite (get_put_same _ _ _ _ Hput). Qed.

Lemma get_put_ne n p q x n' :
  put n p x = Some n' ->
  ~ p `prefix_of` q -> ~ q `prefix_of` p ->
  get n' q = get n q.
Proof.
  revert n n' q; induction p as [|i p IH]; intros n n' q Hput Hpq Hqp.
  { destruct Hpq. apply prefix_nil. }
  destruct q as [|j q]; [destruct Hqp; apply prefix_nil|].
  apply put_cons_inv in Hput as (c & c' & Hc & Hput & ->). simpl.
  rewrite children_with_children by apply length_insert.
  destruct (decide (i = j)) as [->|Hne].
  - rewrite list_lookup_insert_eq by (by eapply lookup_lt_Some). rewrite Hc.
    apply (IH _ _ _ Hput); intros Hpre; [apply Hpq|apply Hqp]; by apply prefix_cons.
  - by rewrite list_lookup_insert_ne.
Qed.

(** ** Positions below a node *)

Lemma descendants_children n :
  descendants n = number_from 0 (descendants <$> children n).
Proof. rewrite <- map_children_fmap. by destruct n. Qed.

Lemma elem_of_number_from p k bs :
  p ∈ number_from k bs <->
  exists i ps r, bs !! i = Some ps /\ p = (k + i) :: r /\ (r = [] \/ r ∈ ps).
Proof.
  revert k; induction bs as [|ps bs IH]; intros k; simpl.
  { split; [by intros ?%elem_of_nil | by intros (i & ? & ? & ? & _)]. }
  rewrite elem_of_cons, elem_of_app, list_elem_of_fmap, IH. split.
  - intros [->|[(r & -> & Hr)|(i & ps' & r & Hi & -> & Hr)]].
    + exists 0, ps, []. rewrite Nat.add_0_r. auto.
    + exists 0, ps, r. rewrite Nat.add_0_r. auto.
    + exists (S i), ps', r. rewrite Nat.add_succ_r. auto.
  - intros ([|i] & ps' & r & Hi & -> & Hr); simpl in Hi.
    + injection Hi as ->. rewrite Nat.add_0_r. destruct Hr as [->|Hr]; eauto.
    + right; right. exists i, ps', r. rewrite Nat.add_succ_r. auto.
Qed.

Lemma elem_of_descendants n p :
  p ∈ descendants n <-> p <> [] /\ is_Some (get n p).
Proof.
  revert p; induction n as [n IH] using node_children_ind; intros p.
  rewrite descendants_children, elem_of_number_from. split.
  - intros (i & ps & r & Hi & -> & Hr). split; [done|]. simpl.
    rewrite list_lookup_fmap in Hi.
    destruct (children n !! i) as [c|] eqn:Hc; [|done]. injection Hi as <-.
    destruct Hr as [->|Hr]; [by eauto|].
    apply IH in Hr as [_ ?]; [done|]. by eapply list_elem_of_lookup_2.
  - intros [Hne Hget]. destruct p as [|i r]; [done|]. simpl in Hget.
    destruct (children n !! i) as [c|] eqn:Hc; [|by destruct Hget].
    exists i, (descendants c), r. rewrite list_lookup_fmap, Hc. do 2 (split; [done|]).
    destruct r as [|j r]; [by left|right].
    apply IH; [by eapply list_elem_of_lookup_2|done].
Qed.

Lemma ordered_app R l1 l2 :
  ordered R (l1 ++ l2) <->
  ordered R l1 /\ ordered R l2 /\ forall p q, p ∈ l1 -> q ∈ l2 -> R p q.
Proof.
  induction l1 as [|x l1 IH]; simpl.
  { split; [intros ?; split_and!; auto; by intros ? ? ?%elem_of_nil | tauto]. }
  rewrite Forall_app, IH, !Forall_forall. split.
  - intros [[H1 H2] (H3 & H4 & H5)]. split_and!; auto.
    intros p q [->|Hp]%elem_of_cons Hq; auto.
  - intros ([H1 H2] & H3 & H4). split_and!; auto.
    + intros q Hq. apply H4; [left|done].
    + intros p q Hp Hq. apply H4; [by right|done].
Qed.

Lemma ordered_rev R l : ordered R l -> ordered (flip R) (rev l).
Proof.
  induction l as [|x l IH]; simpl; [done|]. intros [H1 H2].
  apply ordered_app. split_and!; auto; [by simpl|].
  intros p q Hp%list_elem_of_In%in_rev%list_elem_of_In ->%list_elem_of_singleton.
  rewrite Forall_forall in H1. by apply H1.
Qed.

Lemma ordered_filter R (f : path -> bool) l :
  ordered R l -> ordered R (List.filter f l).
Proof.
  induction l as [|x l IH]; simpl; [done|]. intros [H1 H2].
  assert (Forall (R x) (List.filter f l)).
  { rewrite Forall_forall in *. intros q Hq. apply H1.
    apply list_elem_of_In, filter_In in Hq as [Hq _]. by apply list_elem_of_In. }
  destruct (f x); simpl; auto.
Qed.

Lemma ordered_map_cons R R' k l :
  (forall p q, R p q -> R' (k :: p) (k :: q)) ->
  ordered R l -> ordered R' (map (cons k) l).
Proof.
  intros HR. induction l as [|x l IH]; simpl; [done|]. intros [H1 H2].
  split; [|auto]. rewrite Forall_forall in *.
  intros q (r & -> & Hr)%list_elem_of_fmap. auto.
Qed.

Lemma number_from_head p k bs : p ∈ number_from k bs -> exists i r, p = i :: r /\ k <= i.
Proof.
  intros (i & ps & r & _ & -> & _)%elem_of_number_from. exists (k + i), r. split; [done|lia].
Qed.

Lemma number_from_ordered k bs :
  Forall (fun ps => ordered not_above ps /\ Forall (fun p => p <> []) ps) bs ->
  ordered not_above (number_from k bs).
Proof.
  revert k; induction bs as [|ps bs IH]; intros k Hall; simpl; [done|].
  apply Forall_cons in Hall as [[Hps Hne] Hall].
  rewrite Forall_forall in Hne.
  split.
  - rewrite Forall_app, !Forall_forall. split.
    + intros q (r & -> & Hr)%list_elem_of_fmap [t Ht].
      specialize (Hne _ Hr). destruct r; [done|]. done.
    + intros q (i & r & -> & Hle)%number_from_head [t Ht].
      injection Ht as ->. lia.
  - apply ordered_app. split_and!; [| by apply IH |].
    + eapply ordered_map_cons; [|done]. unfold not_above.
      intros p q Hpq Hpre. apply Hpq. by eapply prefix_cons_inv_2.
    + intros p q (r & -> & Hr)%list_elem_of_fmap (i & r' & -> & Hle)%number_from_head [t Ht].
      injection Ht as -> _. lia.
Qed.

Lemma descendants_ordered n : ordered not_above (descendants n).
Proof.
  induction n as [n IH] using node_children_ind.
  rewrite descendants_children. apply number_from_ordered.
  rewrite Forall_forall. intros ps (c & -> & Hc)%list_elem_of_fmap.
  split; [by apply IH|]. rewrite Forall_forall. by intros p [? _]%elem_of_descendants.
Qed.

(** ** The ancestors of a position

    The spine of a position lists, from the root down to the parent, the
    class of each ancestor and the member of that ancestor through which the
    position is reached. *)

Lemma child_fields_lookup n i c :
  children n !! i = Some c -> exists f, child_fields n !! i = Some f.
Proof.
  intros Hc%lookup_lt_Some. rewrite <- length_child_fields in Hc.
  by apply lookup_lt_is_Some_2 in Hc as [f ?]; eauto.
Qed.

Lemma children_lookup_field n i f :
  child_fields n !! i = Some f -> exists c, children n !! i = Some c.
Proof.
  intros Hc%lookup_lt_Some. rewrite length_child_fields in Hc.
  by apply lookup_lt_is_Some_2 in Hc as [c ?]; eauto.
Qed.

Lemma spine_is_Some n p : is_Some (spine n p) <-> is_Some (get n p).
Proof.
  revert n; induction p as [|i p IH]; intros n; simpl; [split; eauto|].
  destruct (children n !! i) as [c|] eqn:Hc; [|done].
  destruct (child_fields_lookup _ _ _ Hc) as [f ->]. rewrite <- IH.
  destruct (spine c p); split; intros [? ?]; done || eauto.
Qed.

Lemma spine_length n p s : spine n p = Some s -> length s = length p.
Proof.
  revert n s; induction p as [|i p IH]; intros n s; simpl; [by intros [= <-]|].
  destruct (children n !! i) as [c|]; [|done]. destruct (child_fields n !! i); [|done].
  destruct (spine c p) as [s'|] eqn:Hs; [|done]. intros [= <-]. simpl. f_equal. eauto.
Qed.

Lemma spine_app n p q :
  spine n (p ++ q) =
  match spine n p, get n p with
  | Some s, Some c => match spine c q with Some t => Some (s ++ t) | None => None end
  | _, _ => None
  end.
Proof.
  revert n; induction p as [|i p IH]; intros n; simpl.
  { by destruct (spine n q). }
  destruct (children n !! i) as [c|]; [|done]. destruct (child_fields n !! i); [|done].
  rewrite IH. destruct (spine c p); [|done]. destruct (get c p) as [d|]; [|done].
  by destruct (spine d q).
Qed.

Lemma spine_snoc n p i :
  spine n (p ++ [i]) =
  match spine n p, get n p with
  | Some s, Some a =>
      match children a !! i, child_fields a !! i with
      | Some _, Some f => Some (s ++ [(class_of a, f)])
      | _, _ => None
      end
  | _, _ => None
  end.
Proof.
  rewrite spine_app. destruct (spine n p); [|done]. destruct (get n p) as [a|]; [|done].
  simpl. destruct (children a !! i); [|done]. by destruct (child_fields a !! i).
Qed.

Lemma strictly_below_prefix q p : strictly_below q p -> q `prefix_of` p.
Proof. intros (i & r & ->). by eexists. Qed.

Lemma prefix_strictly_below q p : q `prefix_of` p -> q = p \/ strictly_below q p.
Proof.
  intros [[|i r] ->]; [left; by rewrite app_nil_r | right; by exists i, r].
Qed.

Lemma spine_put n q x n' p :
  put n q x = Some n' -> ~ strictly_below q p -> spine n' p = spine n p.
Proof.
  revert n n' p; induction q as [|i q IH]; intros n n' p Hput Hpre.
  { destruct p as [|j p]; [done|]. destruct Hpre. by exists j, p. }
  destruct p as [|j p]; [done|].
  pose proof (put_cons_head _ _ _ _ _ Hput) as (Hcls & _ & Hflds & c'' & Hch).
  apply put_cons_inv in Hput as (c & c' & Hc & Hput & ->). simpl.
  rewrite Hcls, Hflds, children_with_children by apply length_insert.
  destruct (decide (i = j)) as [->|Hne].
  - rewrite list_lookup_insert_eq by (by eapply lookup_lt_Some). rewrite Hc.
    rewrite (IH _ _ p Hput); [done|]. intros (k & r & ->). apply Hpre. by exists k, r.
  - by rewrite list_lookup_insert_ne.
Qed.

Lemma strictly_below_irrefl q : ~ strictly_below q q.
Proof.
  intros (i & r & H). apply (f_equal length) in H. rewrite length_app in H. simpl in H. lia.
Qed.

Lemma spine_put_below n q x n' r :
  put n q x = Some n' ->
  spine n' (q ++ r) =
  match spine n q, spine x r with
  | Some s, Some t => Some (s ++ t)
  | _, _ => None
  end.
Proof.
  intros Hput. rewrite spine_app, (get_put_same _ _ _ _ Hput).
  by rewrite (spine_put _ _ _ _ q Hput) by apply strictly_below_irrefl.
Qed.

(** The class of the node at a position that is not below the replaced one. *)
Lemma class_put n q x n' p :
  put n q x = Some n' -> ~ q `prefix_of` p ->
  class_of <$> get n' p = class_of <$> get n p.
Proof.
  revert n n' p; induction q as [|i q IH]; intros n n' p Hput Hpre.
  { destruct Hpre. apply prefix_nil. }
  pose proof (put_cons_head _ _ _ _ _ Hput) as (Hcls & _ & Hflds & c'' & Hch).
  destruct p as [|j p]; [simpl; by rewrite Hcls|].
  apply put_cons_inv in Hput as (c & c' & Hc & Hput & ->). simpl.
  rewrite children_with_children by apply length_insert.
  destruct (decide (i = j)) as [->|Hne].
  - rewrite list_lookup_insert_eq by (by eapply lookup_lt_Some). rewrite Hc.
    apply (IH _ _ p Hput). intros Hp. apply Hpre. by apply prefix_cons.
  - by rewrite list_lookup_insert_ne.
Qed.

(** ** Navigation *)

Lemma isinstance_spec n classes :
  isinstance n classes = true <-> class_of n ∈ classes.
Proof.
  unfold isinstance. rewrite existsb_exists. split.
  - intros (c & Hc%list_elem_of_In & Heq%bool_decide_eq_true). by rewrite Heq.
  - intros Hin. exists (class_of n). split; [by apply list_elem_of_In|].
    by apply bool_decide_eq_true.
Qed.

Lemma proper_prefixes_snoc p i :
  proper_prefixes (p ++ [i]) = proper_prefixes p ++ [p].
Proof.
  induction p as [|j p IH]; simpl; [done|]. by rewrite IH, map_app.
Qed.

(** The recursion of the Python method: the parent if it has one of the
    classes, otherwise the parent's ancestor. *)
Lemma get_ancestor_snoc m p i node_type :
  get_ancestor m (p ++ [i]) node_type =
  if has_class m node_type p then Some p else get_ancestor m p node_type.
Proof.
  unfold get_ancestor. by rewrite proper_prefixes_snoc, reverse_snoc.
Qed.

Lemma get_ancestor_parent m p i :
  is_Some (get m p) -> get_ancestor m (p ++ [i]) None = Some p.
Proof.
  intros [a Ha]. rewrite get_ancestor_snoc. unfold has_class. by rewrite Ha.
Qed.

Lemma elem_of_member m q f x :
  x ∈ member m q f <->
  exists a i, get m q = Some a /\ x = q ++ [i] /\ child_fields a !! i = Some f.
Proof.
  unfold member. destruct (get m q) as [a|]; [|split; [by intros ?%elem_of_nil|by intros (?&?&?&_)]].
  rewrite list_elem_of_omap. split.
  - intros (o & (i & g & -> & Hg)%elem_of_lookup_imap & Ho).
    case_bool_decide; [|done]. injection Ho as <-. subst g. eauto.
  - intros (a' & i & [= <-] & -> & Hi). exists (Some (q ++ [i])). split; [|done].
    apply elem_of_lookup_imap. exists i, f. by rewrite bool_decide_eq_true_2.
Qed.

Lemma elem_of_get_children m q matches x :
  x ∈ get_children m q matches <->
  exists a i c, get m q = Some a /\ x = q ++ [i] /\ children a !! i = Some c
                /\ matches c = true.
Proof.
  unfold get_children.
  destruct (get m q) as [a|]; [|split; [by intros ?%elem_of_nil|by intros (?&?&?&?&_)]].
  rewrite list_elem_of_omap. split.
  - intros (o & (i & c & -> & Hc)%elem_of_lookup_imap & Ho).
    destruct (matches c) eqn:Hm; [|done]. injection Ho as <-. eauto 10.
  - intros (a' & i & c & [= <-] & -> & Hi & Hm). exists (Some (q ++ [i])). split; [|done].
    apply elem_of_lookup_imap. exists i, c. by rewrite Hm.
Qed.

Lemma elem_of_get_descendants m q matches include_self reverse p :
  p ∈ get_descendants m q matches include_self reverse <->
  (exists x, get m p = Some x /\ matches x = true)
  /\ ((include_self = true /\ p = q) \/ strictly_below q p).
Proof.
  unfold get_descendants. destruct (get m q) as [a|] eqn:Ha.
  - set (below := map (app q) (descendants a)).
    set (all := if include_self then q :: below else below).
    assert (Hall : forall p, p ∈ all <->
      is_Some (get m p) /\ ((include_self = true /\ p = q) \/ strictly_below q p)).
    { intros p'. assert (Hbelow : p' ∈ below <-> is_Some (get m p') /\ strictly_below q p').
      { unfold below. rewrite list_elem_of_In, in_map_iff. split.
        - intros (r & <- & [Hne Hr]%list_elem_of_In%elem_of_descendants).
          rewrite get_app, Ha. split; [done|]. destruct r as [|i r]; [done|]. by exists i, r.
        - intros [Hp (i & r & ->)]. exists (i :: r). split; [done|].
          apply list_elem_of_In, elem_of_descendants. split; [done|]. by rewrite get_app, Ha in Hp. }
      unfold all. destruct include_self.
      - rewrite elem_of_cons, Hbelow. split.
        + intros [->|[? ?]]; [split; [by rewrite Ha|by left]|split; [done|by right]].
        + intros [Hp [[_ ->]|Hb]]; [by left|by right].
      - rewrite Hbelow. split; [intros [? ?]; split; [done|by right]|].
        intros [Hp [[? _]|Hb]]; done. }
    assert (p ∈ List.filter
        (fun p => match get m p with Some x => matches x | None => false end) all <->
      (exists x, get m p = Some x /\ matches x = true)
      /\ ((include_self = true /\ p = q) \/ strictly_below q p)) as Hfilter.
    { rewrite list_elem_of_In, filter_In, <- list_elem_of_In, Hall. split.
      - intros [[[x Hx] Hq] Hm]. rewrite Hx in Hm. eauto.
      - intros [(x & Hx & Hm) Hq]. rewrite Hx. eauto. }
    destruct reverse; [|done].
    by rewrite list_elem_of_In, <- in_rev, <- list_elem_of_In.
  - split; [by intros ?%elem_of_nil|].
    intros [(x & Hx & _) [[_ ->]|(i & r & ->)]]; [congruence|].
    by rewrite get_app, Ha in Hx.
Qed.

(** The positions a sweep collects are visited so that no position is
    visited after one of its ancestors. *)
Lemma get_descendants_reverse_ordered m matches :
  ordered (fun p q => ~ p `prefix_of` q) (get_descendants m [] matches false true).
Proof.
  unfold get_descendants. simpl.
  apply (ordered_rev not_above), ordered_filter.
  rewrite map_id.
  apply descendants_ordered.
Qed.

(** ** The tests of [replace_constant], read off the spine *)

Lemma nearest_snoc classes s e :
  nearest classes (s ++ [e]) =
  if bool_decide (e.1 ∈ classes) then Some e else nearest classes s.
Proof. unfold nearest. by rewrite reverse_snoc. Qed.

Lemma path_in_member m q i a f g :
  get m q = Some a -> child_fields a !! i = Some f ->
  path_in (q ++ [i]) (member m q g) = bool_decide (f = g).
Proof.
  intros Ha Hf. unfold path_in. apply bool_decide_ext. rewrite elem_of_member. split.
  - intros (a' & j & Ha' & Heq%app_inv_head & Hj). simplify_eq. congruence.
  - intros <-. eauto.
Qed.

Lemma isinstance_singleton a c : isinstance a [c] = bool_decide (class_of a = c).
Proof. unfold isinstance. simpl. by rewrite orb_false_r. Qed.

Lemma spine_snoc_inv m p i s :
  spine m (p ++ [i]) = Some s ->
  exists s' a c f, spine m p = Some s' /\ get m p = Some a /\ children a !! i = Some c
    /\ child_fields a !! i = Some f /\ s = s' ++ [(class_of a, f)].
Proof.
  rewrite spine_snoc. destruct (spine m p) as [s'|]; [|done].
  destruct (get m p) as [a|]; [|done]. destruct (children a !! i) as [c|] eqn:Hc; [|done].
  destruct (child_fields a !! i) as [f|] eqn:Hf; [|done]. intros [= <-]. eauto 10.
Qed.

Lemma is_call_func_spine m p s :
  spine m p = Some s -> is_call_func m p = spine_call_func s.
Proof.
  unfold is_call_func, spine_call_func.
  destruct p as [|i p _] using rev_ind; [by intros [= <-]|].
  intros (s' & a & c & f & Hs' & Ha & Hc & Hf & ->)%spine_snoc_inv.
  rewrite get_ancestor_parent by eauto. simpl. unfold has_class. rewrite Ha.
  rewrite (path_in_member _ _ _ _ _ _ Ha Hf), isinstance_singleton, last_snoc.
  rewrite <- bool_decide_and. apply bool_decide_ext. split; [by intros [-> ->]|by intros [= -> ->]].
Qed.

Lemma is_dict_key_spine m p s :
  spine m p = Some s -> is_dict_key m p = spine_dict_key s.
Proof.
  unfold is_dict_key, spine_dict_key.
  destruct p as [|i p _] using rev_ind; [by intros [= <-]|].
  intros (s' & a & c & f & Hs' & Ha & Hc & Hf & ->)%spine_snoc_inv.
  rewrite get_ancestor_parent by eauto. simpl. unfold has_class. rewrite Ha.
  rewrite (path_in_member _ _ _ _ _ _ Ha Hf), isinstance_singleton, last_snoc.
  rewrite <- bool_decide_and. apply bool_decide_ext. split; [by intros [-> ->]|by intros [= -> ->]].
Qed.

(** The closest ancestor of the given classes and its spine entry. *)
Lemma get_ancestor_nearest m classes p s :
  spine m p = Some s ->
  match get_ancestor m p (Some classes), nearest classes s with
  | Some q, Some e =>
      exists i r a, p = q ++ i :: r /\ get m q = Some a /\ class_of a = e.1
                    /\ child_fields a !! i = Some e.2
  | None, None => True
  | _, _ => False
  end.
Proof.
  revert s; induction p as [|i p IH] using rev_ind; intros s.
  { by intros [= <-]. }
  intros (s' & a & c & f & Hs' & Ha & Hc & Hf & ->)%spine_snoc_inv.
  rewrite get_ancestor_snoc, nearest_snoc. unfold has_class. rewrite Ha. simpl.
  destruct (isinstance a classes) eqn:Hi.
  - apply isinstance_spec in Hi. rewrite bool_decide_eq_true_2 by done.
    exists i, [], a. eauto.
  - rewrite bool_decide_eq_false_2 by (by rewrite <- isinstance_spec, Hi).
    specialize (IH _ Hs').
    destruct (get_ancestor m p (Some classes)) as [q|], (nearest classes s') as [e|]; try done.
    destruct IH as (j & r & a' & -> & ? & ? & ?).
    exists j, (r ++ [i]), a'. by rewrite <- app_assoc.
Qed.

Lemma is_assignment_target_spine m p s :
  spine m p = Some s -> is_assignment_target m p = spine_assignment_target s.
Proof.
  intros Hs. unfold is_assignment_target, spine_assignment_target.
  pose proof (get_ancestor_nearest m [cIndex] p s Hs) as HI.
  destruct (get_ancestor m p (Some [cIndex])), (nearest [cIndex] s); try done.
  pose proof (get_ancestor_nearest m assignments p s Hs) as HA.
  destruct (get_ancestor m p (Some assignments)) as [q|], (nearest assignments s) as [e|];
    try done.
  destruct HA as (i & r & a & -> & Ha & Hcls & Hf).
  assert (Hp : is_Some (get m (q ++ i :: r))) by (apply spine_is_Some; eauto).
  apply eq_true_iff_eq. rewrite existsb_exists, bool_decide_eq_true. split.
  - intros (t & (a' & j & Ha' & -> & Hj)%list_elem_of_In%elem_of_member & Hin).
    apply bool_decide_eq_true, elem_of_get_descendants in Hin as [_ Hin].
    assert (j = i) as ->.
    { destruct Hin as [[_ Heq]|(k & r' & Heq)].
      - apply app_inv_head in Heq. by injection Heq.
      - rewrite <- app_assoc in Heq. apply app_inv_head in Heq. by injection Heq. }
    congruence.
  - intros Heq. exists (q ++ [i]). split.
    + apply list_elem_of_In, elem_of_member. exists a, i. rewrite <- Heq. eauto.
    + apply bool_decide_eq_true, elem_of_get_descendants. split.
      * destruct Hp as [x Hx]. eauto.
      * destruct r as [|k r]; [by left|right]. exists k, r. by rewrite <- app_assoc.
Qed.

Lemma skips_spine m p s :
  spine m p = Some s ->
  is_call_func m p = spine_call_func s
  /\ is_dict_key m p = spine_dict_key s
  /\ is_assignment_target m p = spine_assignment_target s.
Proof.
  intros Hs. split_and!.
  - by apply is_call_func_spine.
  - by apply is_dict_key_spine.
  - by apply is_assignment_target_spine.
Qed.

(** ** Literals and the termination measure *)

Lemma unfolded_count_children n :
  unfolded_count n =
  (if is_literal_class (class_of n) then 0 else 1)
  + sum_list (unfolded_count <$> children n).
Proof. rewrite <- map_children_fmap. by destruct n. Qed.

Lemma sum_list_fmap_zero {A} (f : A -> nat) l :
  (forall x, x ∈ l -> f x = 0) -> sum_list (f <$> l) = 0.
Proof.
  induction l as [|x l IH]; csimpl; [done|]. intros H.
  rewrite (H x) by left. rewrite IH; [done|]. intros y Hy. apply H. by right.
Qed.

Lemma is_literal_unfolded_count n : is_literal n = true -> unfolded_count n = 0.
Proof.
  induction n as [n IH] using node_children_ind. rewrite unfolded_count_children.
  destruct n; simpl; try done. intros Hall.
  apply sum_list_fmap_zero. intros x Hx. apply IH; [done|].
  rewrite forallb_forall in Hall. apply Hall. unfold children in Hx. simpl in Hx.
  rewrite list_fmap_id in Hx. by apply list_elem_of_In.
Qed.

Lemma sum_list_fmap_insert {A} (f : A -> nat) l i x y :
  l !! i = Some x ->
  sum_list (f <$> <[i := y]> l) + f x = sum_list (f <$> l) + f y.
Proof.
  revert i; induction l as [|z l IH]; intros [|i]; csimpl; try done.
  - intros [= ->]. lia.
  - intros Hi. specialize (IH _ Hi). lia.
Qed.

Lemma sum_list_fmap_lookup {A} (f : A -> nat) l i x :
  l !! i = Some x -> f x <= sum_list (f <$> l).
Proof.
  revert i; induction l as [|z l IH]; intros [|i]; csimpl; try done.
  - intros [= ->]. lia.
  - intros Hi. specialize (IH _ Hi). lia.
Qed.

(** Replacing a subtree changes the measure by the difference of the two
    subtrees. *)
Lemma unfolded_count_put n p old new n' :
  get n p = Some old -> put n p new = Some n' ->
  unfolded_count n' + unfolded_count old = unfolded_count n + unfolded_count new.
Proof.
  revert n n'; induction p as [|i p IH]; intros n n'; simpl.
  { intros [= ->] [= ->]. lia. }
  intros Hget Hput.
  destruct (children n !! i) as [c|] eqn:Hc; [|done].
  destruct (put c p new) as [c'|] eqn:Hc'; [|done]. injection Hput as <-.
  rewrite (unfolded_count_children (with_children _ _)), (unfolded_count_children n).
  rewrite class_of_with_children, children_with_children by apply length_insert.
  pose proof (IH _ _ Hget Hc') as IH'.
  pose proof (sum_list_fmap_insert unfolded_count _ _ _ c' Hc) as Hsum. lia.
Qed.

Lemma set_attrs_attrs n : set_attrs (attrs n) n = n.
Proof. by destruct n. Qed.

Lemma children_set_attrs a n : children (set_attrs a n) = children n.
Proof. by destruct n. Qed.

Lemma class_of_set_attrs a n : class_of (set_attrs a n) = class_of n.
Proof. by destruct n. Qed.

Lemma child_fields_set_attrs a n : child_fields (set_attrs a n) = child_fields n.
Proof. by destruct n. Qed.

Lemma unfolded_count_set_attrs a n : unfolded_count (set_attrs a n) = unfolded_count n.
Proof.
  by rewrite !unfolded_count_children, class_of_set_attrs, children_set_attrs.
Qed.

Lemma folds_to_decreases old new :
  folds_to old new -> unfolded_count new < unfolded_count old.
Proof.
  intros [[Hold Hnew]|(a & elts & a' & slice & e & a'' & -> & He & ->)].
  - rewrite (is_literal_unfolded_count _ Hnew), (unfolded_count_children old), Hold. lia.
  - rewrite unfolded_count_set_attrs.
    apply list_elem_of_lookup in He as [i Hi].
    pose proof (sum_list_fmap_lookup unfolded_count _ _ _ Hi) as Hle.
    change (unfolded_count (Subscript a (List a' elts) slice))
      with (1 + (sum_list (unfolded_count <$> elts) + (unfolded_count slice + 0))).
    lia.
Qed.

Lemma rewrites_trans R j k a b c :
  rewrites R j a b -> rewrites R k b c -> rewrites R (j + k) a c.
Proof.
  induction 1 as [|j m p old new m1 m' Hp Hget HR Hput _ IH]; simpl; [done|].
  intros Hbc. eapply rewrites_step; eauto.
Qed.

Lemma rewrites_one R m p old new m' :
  p <> [] -> get m p = Some old -> R old new -> put m p new = Some m' ->
  rewrites R 1 m m'.
Proof. intros. eapply rewrites_step; eauto. apply rewrites_refl. Qed.

Lemma rewrites_mono (R R' : node -> node -> Prop) k m m' :
  (forall old new, R old new -> R' old new) ->
  rewrites R k m m' -> rewrites R' k m m'.
Proof. intros HR. induction 1; [apply rewrites_refl|eapply rewrites_step; eauto]. Qed.

Lemma rewrites_zero R m m' : rewrites R 0 m m' -> m' = m.
Proof. by inversion 1. Qed.

(** Every replacement lowers the measure by at least one. *)
Lemma rewrites_measure k m m' :
  rewrites folds_to k m m' -> unfolded_count m' + k <= unfolded_count m.
Proof.
  induction 1 as [|k m p old new m1 m' Hp Hget HR Hput _ IH]; [lia|].
  pose proof (unfolded_count_put _ _ _ _ _ Hget Hput).
  pose proof (folds_to_decreases _ _ HR). lia.
Qed.

(** ** Sweeps *)

Lemma get_put_head n q x n' p a :
  put n q x = Some n' -> ~ q `prefix_of` p -> get n p = Some a ->
  exists cs, length cs = length (children a) /\ get n' p = Some (with_children a cs).
Proof.
  revert n n' p; induction q as [|i q IH]; intros n n' p Hput Hpre Hget.
  { destruct Hpre. apply prefix_nil. }
  destruct p as [|j p].
  - injection Hget as ->. apply put_cons_inv in Hput as (c & c' & Hc & Hput & ->).
    eexists. split; [|done]. apply length_insert.
  - apply put_cons_inv in Hput as (c & c' & Hc & Hput & ->). simpl in *.
    rewrite children_with_children by apply length_insert.
    destruct (decide (i = j)) as [->|Hne].
    + rewrite list_lookup_insert_eq by (by eapply lookup_lt_Some). rewrite Hc in Hget.
      apply (IH _ _ _ Hput); [|done]. intros Hp. apply Hpre. by apply prefix_cons.
    + rewrite list_lookup_insert_ne by done. destruct (children n !! j); [|done].
      exists (children a). by rewrite with_children_children.
Qed.

Lemma for_in_cons {A S} (x : A) rest (body : A -> S -> result S) s :
  for_in (x :: rest) body s =
  match body x s with Ok s' => for_in rest body s' | Raise e => Raise e end.
Proof. done. Qed.

Lemma bind_Ok {A B} (r : result A) (k : A -> result B) b :
  bind r k = Ok b <-> exists a, r = Ok a /\ k a = Ok b.
Proof.
  destruct r as [a|e]; simpl; [|split; [done|by intros (? & ? & ?)]].
  split; [eauto|by intros (? & [= <-] & ?)].
Qed.

Section sweep.

Context (matches : node -> bool).
Context (R : node -> node -> Prop).
Context (body : path -> node * nat -> result (node * nat)).

Hypothesis matches_head :
  forall x cs, length cs = length (children x) -> matches (with_children x cs) = matches x.

(** The body leaves the state alone, or replaces the node it is run on and
    counts one. *)
Hypothesis body_spec :
  forall p m c r old,
    get m p = Some old -> matches old = true -> body p (m, c) = Ok r ->
    r = (m, c) \/ exists new m', R old new /\ put m p new = Some m' /\ r = (m', c + 1).

Lemma pending_snapshot m : pending matches m (get_descendants m [] matches false true).
Proof.
  split; [apply get_descendants_reverse_ordered|].
  rewrite Forall_forall. intros p [Hx [[? _]|(i & r & ->)]]%elem_of_get_descendants; done.
Qed.

Lemma pending_put m p l new m' :
  pending matches m (p :: l) -> put m p new = Some m' -> pending matches m' l.
Proof.
  intros [[Hp Hord] [_ Hall]%Forall_cons] Hput. split; [done|].
  rewrite Forall_forall in *. intros q Hq. destruct (Hall q Hq) as [Hne (x & Hx & Hm)].
  split; [done|]. destruct (get_put_head _ _ _ _ q x Hput (Hp q Hq) Hx) as (cs & Hlen & ->).
  eexists. split; [done|]. by rewrite matches_head.
Qed.

Lemma sweep_loop l m c m' c' :
  pending matches m l ->
  for_in l body (m, c) = Ok (m', c') ->
  exists k, c' = c + k /\ rewrites R k m m'.
Proof.
  revert m c; induction l as [|p l IH]; intros m c Hpend; simpl.
  { intros [= <- <-]. exists 0. split; [lia|apply rewrites_refl]. }
  intros ([m1 c1] & Hbody & Hrest)%bind_Ok.
  pose proof Hpend as [_ [[Hne (old & Hold & Hm)] _]%Forall_cons].
  destruct (body_spec _ _ _ _ _ Hold Hm Hbody) as [[= -> ->]|(new & m2 & HR & Hput & [= -> ->])].
  - apply (IH _ _) in Hrest; [done|]. destruct Hpend as [[_ ?] [_ ?]%Forall_cons]. by split.
  - apply (IH _ _) in Hrest as (k & -> & Hk); [|by eapply pending_put].
    exists (S k). split; [lia|]. eapply rewrites_step; eauto.
Qed.

Lemma sweep_rewrites m m' c :
  for_in (get_descendants m [] matches false true) body (m, 0) = Ok (m', c) ->
  rewrites R c m m'.
Proof.
  intros (k & -> & Hk)%sweep_loop; [done|apply pending_snapshot].
Qed.

(** No position of a sweep is found detached from the tree. *)
Lemma sweep_loop_attached l m c :
  pending matches m l ->
  (forall p m c, is_Some (get m p) -> body p (m, c) <> Raise (CompilerPanic "node is not attached to the tree")) ->
  for_in l body (m, c) <> Raise (CompilerPanic "node is not attached to the tree").
Proof.
  intros Hpend Hbody. revert m c Hpend; induction l as [|p l IH]; intros m c Hpend; simpl; [done|].
  pose proof Hpend as [_ [[Hne (old & Hold & Hm)] _]%Forall_cons].
  destruct (body p (m, c)) as [[m1 c1]|e] eqn:Hb; simpl.
  - destruct (body_spec _ _ _ _ _ Hold Hm Hb) as [[= -> ->]|(new & m2 & HR & Hput & [= -> ->])].
    + apply IH. destruct Hpend as [[_ ?] [_ ?]%Forall_cons]. by split.
    + apply IH. by eapply pending_put.
  - intros [= ->]. by eapply Hbody.
Qed.

End sweep.

(** ** [_replace] *)

Lemma list_comprehension_Ok {A B} (f : A -> result B) l ys :
  list_comprehension f l = Ok ys <-> Forall2 (fun x y => f x = Ok y) l ys.
Proof.
  revert ys; induction l as [|x l IH]; intros ys; simpl.
  { split; [intros [= <-]; constructor | by inversion 1]. }
  destruct (f x) as [y|e] eqn:Hx.
  - destruct (list_comprehension f l) as [ys'|e] eqn:Hl.
    + split.
      * intros [= <-]. constructor; [done|]. by apply IH.
      * inversion 1 as [|? y' ? ys'' Hy Hys]; subst. apply IH in Hys. congruence.
    + split; [done|]. inversion 1 as [|? y' ? ys'' Hy Hys]; subst. by apply IH in Hys.
  - split; [done|]. inversion 1; congruence.
Qed.

Lemma list_comprehension_Raise {A B} (f : A -> result B) l e :
  list_comprehension f l = Raise e -> exists x, x ∈ l /\ f x = Raise e.
Proof.
  induction l as [|x l IH]; simpl; [done|].
  destruct (f x) as [y|e'] eqn:Hx.
  - destruct (list_comprehension f l) as [ys'|e'] eqn:Hl; [done|].
    intros [= ->]. destruct IH as (z & Hz & Hfz); [done|]. exists z. split; [by right|done].
  - intros [= ->]. exists x. split; [by left|done].
Qed.

Lemma _replace_List old a elements type_ :
  _replace old (List a elements) type_ =
  (base_type <- match type_ with
                | Some t => vt <- value_type t ;; Ok (Some vt)
                | None => Ok None
                end ;;
   list_values <- list_comprehension (fun i => _replace old i base_type) elements ;;
   match type_ with
   | Some t => Ok (set_metadata_type (List (from_node old) list_values) t)
   | None => Ok (List (from_node old) list_values)
   end).
Proof. done. Qed.

Lemma is_literal_set_metadata_type n t :
  is_literal (set_metadata_type n t) = is_literal n.
Proof. by destruct n. Qed.

(** What [_replace] returns is a literal. *)
Lemma _replace_is_literal old new type_ r :
  _replace old new type_ = Ok r -> is_literal r = true.
Proof.
  revert type_ r; induction new as [new IH] using node_children_ind; intros type_ r.
  destruct new; try done.
  - simpl. destruct type_; intros [= <-]; done.
  - rewrite _replace_List.
    intros (base_type & _ & (list_values & Hl & Hr)%bind_Ok)%bind_Ok.
    assert (is_literal (List (from_node old) list_values) = true) as Hlit.
    { simpl. apply forallb_forall. intros y Hy%list_elem_of_In.
      apply list_comprehension_Ok in Hl.
      apply list_elem_of_lookup in Hy as [i Hi].
      destruct (Forall2_lookup_r _ _ _ _ _ Hl Hi) as (x & Hx & Hxy).
      eapply IH; [|done]. unfold children. simpl. rewrite list_fmap_id.
      by eapply list_elem_of_lookup_2. }
    destruct type_; injection Hr as <-; exact Hlit.
Qed.

(** The exceptions of [_replace]: the replacement is not a literal, or the
    type descriptor has no [value_type] member. *)
Lemma _replace_Raise old new type_ e :
  _replace old new type_ = Raise e -> e = UnfoldableNode \/ e = AttributeError.
Proof.
  revert type_; induction new as [new IH] using node_children_ind; intros type_.
  destruct new; try (intros [= <-]; by left).
  - simpl. by destruct type_.
  - rewrite _replace_List.
    destruct type_ as [[? [vt|]]|]; simpl; try (intros [= <-]; by right).
    + destruct (list_comprehension _ elements) as [ys|e'] eqn:Hl; simpl; [done|].
      intros [= ->]. apply list_comprehension_Raise in Hl as (x & Hx & Hr).
      eapply IH; [|done]. unfold children. simpl. by rewrite list_fmap_id.
    + destruct (list_comprehension _ elements) as [ys|e'] eqn:Hl; simpl; [done|].
      intros [= ->]. apply list_comprehension_Raise in Hl as (x & Hx & Hr).
      eapply IH; [|done]. unfold children. simpl. by rewrite list_fmap_id.
Qed.

Lemma _replace_Constant old a cls value type_ :
  _replace old (Constant a cls value) type_ =
  Ok (Constant {| src := src (attrs old); _metadata := type_ |} cls value).
Proof. simpl. by destruct type_. Qed.

(** ** [replace_in_tree] *)

Lemma replace_in_tree_Ok m p new m' :
  replace_in_tree m p new = Ok m' <-> p <> [] /\ put m p new = Some m'.
Proof.
  unfold replace_in_tree. destruct p as [|i p]; [split; [done|by intros [? _]]|].
  destruct (put m (i :: p) new); split; try done; [by intros [= ->]|by intros [_ [= ->]]|by intros [_ ?]].
Qed.

Lemma replace_in_tree_attached m p new :
  p <> [] -> is_Some (get m p) -> exists m', replace_in_tree m p new = Ok m'.
Proof.
  intros Hne Hp. apply (put_is_Some _ _ new) in Hp as [m' Hm'].
  exists m'. by apply replace_in_tree_Ok.
Qed.

Lemma node_at_Ok m p n : node_at m p = Ok n <-> get m p = Some n.
Proof. unfold node_at. destruct (get m p); split; congruence. Qed.

(** ** Loops over positions that do not contain one another *)

Lemma antichain_cons p l : antichain (p :: l) -> antichain l.
Proof. intros H q r Hq Hr. apply H; by right. Qed.

Lemma ordered_NoDup l : ordered (fun p q => ~ p `prefix_of` q) l -> NoDup l.
Proof.
  induction l as [|p l IH]; simpl; [constructor|]. intros [Hp Hl].
  constructor; [|auto]. rewrite Forall_forall in Hp. intros Hin. by apply (Hp p Hin).
Qed.

Section local_loop.

Context (body : path -> node * nat -> result (node * nat)).

(** The body changes the tree at most at the position it is run on. *)
Hypothesis body_local :
  forall p m c m1 c1,
    body p (m, c) = Ok (m1, c1) -> m1 = m \/ exists new, put m p new = Some m1.

Lemma local_loop_frame l m c m' c' :
  for_in l body (m, c) = Ok (m', c') ->
  (forall q, (forall p, p ∈ l -> ~ p `prefix_of` q /\ ~ q `prefix_of` p) -> get m' q = get m q)
  /\ (forall q, (forall p, p ∈ l -> ~ strictly_below p q) -> spine m' q = spine m q).
Proof.
  revert m c; induction l as [|x l IH]; intros m c; simpl.
  { by intros [= <- <-]. }
  intros ([m1 c1] & Hbody & Hrest)%bind_Ok.
  destruct (IH _ _ Hrest) as [IH1 IH2]. split.
  - intros q Hq. rewrite IH1 by (intros p Hp; apply Hq; by right).
    destruct (body_local _ _ _ _ _ Hbody) as [->|[new Hput]]; [done|].
    destruct (Hq x) as [? ?]; [by left|]. by eapply get_put_ne.
  - intros q Hq. rewrite IH2 by (intros p Hp; apply Hq; by right).
    destruct (body_local _ _ _ _ _ Hbody) as [->|[new Hput]]; [done|].
    eapply spine_put; [done|]. apply Hq. by left.
Qed.

(** When a position is visited, the node at it and its spine are those of the
    tree the loop started on; what the body leaves at the position stays
    until the end of the loop.  [Inv] is any property of the tree that the
    body keeps when it is run on a position holding a node with [Q]. *)
Context (Inv : node -> Prop) (Q : node -> Prop).

Hypothesis body_inv :
  forall p m c m1 c1 x,
    Inv m -> get m p = Some x -> Q x -> body p (m, c) = Ok (m1, c1) -> Inv m1.

Lemma local_loop_visit l m c m' c' :
  NoDup l -> antichain l ->
  (forall p, p ∈ l -> exists x, get m p = Some x /\ Q x) ->
  Inv m ->
  for_in l body (m, c) = Ok (m', c') ->
  Inv m'
  /\ forall p, p ∈ l ->
     exists mc c0 r0,
       Inv mc /\ get mc p = get m p /\ spine mc p = spine m p
       /\ body p (mc, c0) = Ok r0
       /\ get m' p = get r0.1 p /\ spine m' p = spine m p.
Proof.
  revert m c; induction l as [|x l IH]; intros m c Hnd Hac HQ Hinv; simpl.
  { intros [= <- <-]. split; [done|]. by intros p ?%elem_of_nil. }
  intros ([m1 c1] & Hbody & Hrest)%bind_Ok.
  apply NoDup_cons in Hnd as [Hx Hnd].
  assert (Hsp : forall q, ~ strictly_below x q -> spine m1 q = spine m q).
  { intros q Hq. destruct (body_local _ _ _ _ _ Hbody) as [->|[new Hput]]; [done|].
    by eapply spine_put. }
  assert (Hinc : forall q, q ∈ l -> ~ x `prefix_of` q /\ ~ q `prefix_of` x).
  { intros q Hq. split; intros Hpre.
    - apply Hac in Hpre; [|by left|by right]. by subst.
    - apply Hac in Hpre; [|by right|by left]. by subst. }
  assert (Hget : forall q, q ∈ l -> get m1 q = get m q).
  { intros q Hq. destruct (Hinc q Hq).
    destruct (body_local _ _ _ _ _ Hbody) as [->|[new Hput]]; [done|].
    by eapply get_put_ne. }
  assert (Hinv1 : Inv m1).
  { destruct (HQ x) as (y & Hy & HQy); [by left|]. eapply body_inv; eauto. }
  destruct (IH m1 c1 Hnd (antichain_cons _ _ Hac)) as [Hinv' Hvisit]; try done.
  { intros q Hq. rewrite (Hget q Hq). apply HQ. by right. }
  split; [done|].
  destruct (local_loop_frame _ _ _ _ _ Hrest) as [F1 F2].
  intros p [->|Hin]%elem_of_cons.
  - exists m, c, (m1, c1). split_and!; try done.
    + simpl. apply F1. intros q Hq. destruct (Hinc q Hq). by split.
    + rewrite F2; [apply Hsp, strictly_below_irrefl|].
      intros q Hq Hb%strictly_below_prefix. by destruct (Hinc q Hq).
  - destruct (Hinc p Hin) as [Hxp Hpx].
    destruct (Hvisit p Hin) as (mc & c0 & r0 & Hi & Hg & Hs & Hb & Hg' & Hs').
    assert (Hspx : spine m1 p = spine m p).
    { apply Hsp. by intros ?%strictly_below_prefix. }
    exists mc, c0, r0. split_and!; try done; try congruence.
    by rewrite Hg, Hget.
Qed.

End local_loop.

(** ** [replace_constant] *)

Lemma Name_with_id_spec id_ n :
  Name_with_id id_ n = true <-> exists a, n = Name a id_.
Proof.
  destruct n; simpl; try (split; [done|by intros [? ?]]).
  rewrite String.eqb_eq. split; [intros ->; eauto|by intros [? [= _ ->]]].
Qed.

Lemma Name_with_id_with_children id_ n cs :
  Name_with_id id_ (with_children n cs) = Name_with_id id_ n.
Proof.
  destruct n as [| ? ? ? [v|] | | | | | | | | | | | | | |]; simpl; try done;
    try (split_children cs; fail);
    try (by destruct (uninterleave _ _ _)); by destruct cs.
Qed.

Lemma replace_constant_body_cases id_ repl roe type_ p m c r :
  replace_constant_body id_ repl roe type_ p (m, c) = Ok r ->
  (r = (m, c)
   /\ (is_call_func m p || is_dict_key m p || is_assignment_target m p = true
       \/ roe = false /\ exists old, get m p = Some old
            /\ match deref m repl with
               | Some new => _replace old new type_ = Raise UnfoldableNode
               | None => True
               end))
  \/ (is_call_func m p || is_dict_key m p || is_assignment_target m p = false
      /\ exists old new new_node m',
           get m p = Some old /\ deref m repl = Some new
           /\ _replace old new type_ = Ok new_node
           /\ p <> [] /\ put m p new_node = Some m' /\ r = (m', c + 1)).
Proof.
  unfold replace_constant_body.
  destruct (is_call_func m p); [intros [= <-]; left; by auto|].
  destruct (is_dict_key m p); [intros [= <-]; left; by auto|].
  destruct (is_assignment_target m p); [intros [= <-]; left; by auto|].
  simpl. intros (old & Hold%node_at_Ok & Hr)%bind_Ok.
  destruct (deref m repl) as [new|] eqn:Hd.
  - destruct (_replace old new type_) as [new_node|e] eqn:Hrep.
    + apply bind_Ok in Hr as (m' & [Hne Hput]%replace_in_tree_Ok & [= <-]).
      right. split; [done|]. by exists old, new, new_node, m'.
    + destruct e; try done. destruct roe; [done|]. injection Hr as <-.
      left. split; [done|]. right. split; [done|]. exists old. by split.
  - destruct roe; [done|]. injection Hr as <-.
    left. split; [done|]. right. split; [done|]. exists old. by split.
Qed.

Lemma replace_constant_body_local id_ repl roe type_ p m c m1 c1 :
  replace_constant_body id_ repl roe type_ p (m, c) = Ok (m1, c1) ->
  m1 = m \/ exists new, put m p new = Some m1.
Proof.
  intros [[[= -> ->] _]|(_ & old & new & new_node & m' & _ & _ & _ & _ & Hput & [= -> ->])]%replace_constant_body_cases;
    [by left|right; eauto].
Qed.

Lemma name_to_literal_folds old new : name_to_literal old new -> folds_to old new.
Proof. intros [Hold Hnew]. left. by rewrite Hold. Qed.

Lemma replace_constant_rewrites m id_ repl roe type_ m' c :
  replace_constant m id_ repl roe type_ = Ok (m', c) ->
  rewrites name_to_literal c m m'.
Proof.
  apply (sweep_rewrites (Name_with_id id_)).
  - intros x cs _. apply Name_with_id_with_children.
  - intros p m0 c0 r old Hold [a ->]%Name_with_id_spec
      [[-> _]|(_ & old' & new & new_node & m1 & Hold' & _ & Hrep & _ & Hput & ->)]%replace_constant_body_cases;
      [by left|right].
    exists new_node, m1. split; [|done]. split; [done|]. by eapply _replace_is_literal.
Qed.

Lemma Name_positions m id_ p :
  p ∈ get_descendants m [] (Name_with_id id_) false true <->
  p <> [] /\ exists a, get m p = Some (Name a id_).
Proof.
  rewrite elem_of_get_descendants. split.
  - intros [(x & Hx & [a ->]%Name_with_id_spec) [[? _]|(i & r & ->)]]; [done|]. eauto.
  - intros [Hne [a Ha]]. split.
    + exists (Name a id_). split; [done|]. apply Name_with_id_spec. eauto.
    + right. destruct p as [|i r]; [done|]. by exists i, r.
Qed.

(** A Name has no children. *)
Lemma Name_leaf m p a id i r :
  get m p = Some (Name a id) -> get m (p ++ i :: r) = None.
Proof. intros Hp. by rewrite get_app, Hp. Qed.

Lemma Name_positions_antichain m id_ :
  antichain (get_descendants m [] (Name_with_id id_) false true).
Proof.
  intros p q [_ [a Ha]]%Name_positions [_ [b Hb]]%Name_positions
    [->|(i & r & ->)]%prefix_strictly_below; [done|].
  by rewrite (Name_leaf _ _ _ _ i r Ha) in Hb.
Qed.

(** ** The positions a reference can be used in *)

Lemma last_Some_snoc {A} (l : list A) x : last l = Some x <-> exists l', l = l' ++ [x].
Proof.
  split; [|intros [l' ->]; apply last_snoc].
  destruct l as [|y l _] using rev_ind; [done|]. rewrite last_snoc. intros [= ->]. eauto.
Qed.

Lemma nearest_None classes s :
  nearest classes s = None <-> Forall (fun e => e.1 ∉ classes) s.
Proof.
  induction s as [|e s IH] using rev_ind; [split; [constructor|done]|].
  rewrite nearest_snoc, Forall_app, Forall_singleton. case_bool_decide; [|tauto].
  split; [done|]. by intros [_ ?].
Qed.

Lemma nearest_Some classes s e :
  nearest classes s = Some e <->
  exists s1 s2, s = s1 ++ e :: s2 /\ e.1 ∈ classes /\ Forall (fun e => e.1 ∉ classes) s2.
Proof.
  induction s as [|x s IH] using rev_ind.
  { split; [done|]. intros (s1 & s2 & Hs & _). by destruct s1. }
  rewrite nearest_snoc. case_bool_decide as Hx.
  - split.
    + intros [= ->]. exists s, []. split_and!; [done..|constructor].
    + intros (s1 & s2 & Hs & He & Hall).
      destruct s2 as [|y s2 _] using rev_ind.
      * apply app_inj_tail in Hs as [_ ->]. done.
      * rewrite app_comm_cons, app_assoc in Hs. apply app_inj_tail in Hs as [_ ->].
        rewrite Forall_app, Forall_singleton in Hall. by destruct Hall as [_ []].
  - rewrite IH. split.
    + intros (s1 & s2 & -> & He & Hall). exists s1, (s2 ++ [x]).
      rewrite <- app_assoc. split_and!; [done..|]. apply Forall_app. split; [done|].
      by apply Forall_singleton.
    + intros (s1 & s2 & Hs & He & Hall).
      destruct s2 as [|y s2 _] using rev_ind.
      * apply app_inj_tail in Hs as [_ ->]. done.
      * rewrite app_comm_cons, app_assoc in Hs. apply app_inj_tail in Hs as [-> ->].
        apply Forall_app in Hall as [Hall _]. eauto.
Qed.

(** The tests of [replace_constant] decide [not_substitutable]. *)
Lemma spine_skips_spec m p s :
  spine m p = Some s -> spine_skips s = true <-> not_substitutable m p.
Proof.
  intros Hs. unfold spine_skips, not_substitutable.
  rewrite !orb_true_iff.
  assert (spine_call_func s = true <-> used_as_call_target m p) as ->.
  { unfold spine_call_func, used_as_call_target. rewrite bool_decide_eq_true, last_Some_snoc.
    split; [intros [l' ->]; eauto|intros [l' Hl]; exists l'; rewrite Hs in Hl; by injection Hl]. }
  assert (spine_dict_key s = true <-> used_as_dict_key m p) as ->.
  { unfold spine_dict_key, used_as_dict_key. rewrite bool_decide_eq_true, last_Some_snoc.
    split; [intros [l' ->]; eauto|intros [l' Hl]; exists l'; rewrite Hs in Hl; by injection Hl]. }
  assert (spine_assignment_target s = true <-> in_assignment_target m p /\ ~ inside_Index m p) as ->;
    [|tauto].
  unfold spine_assignment_target, in_assignment_target, inside_Index. rewrite Hs.
  destruct (nearest [cIndex] s) as [e|] eqn:HI.
  - split; [done|]. intros [_ []].
    destruct e as [c f].
    apply nearest_Some in HI as (s1 & s2 & -> & Hc%list_elem_of_singleton & _).
    simpl in Hc. subst c. eauto.
  - apply nearest_None in HI.
    assert (~ (exists s1 f s2, Some s = Some (s1 ++ (cIndex, f) :: s2))) as HnI.
    { intros (s1 & f & s2 & [= ->]). apply Forall_app in HI as [_ [HI _]%Forall_cons].
      apply HI. by left. }
    destruct (nearest assignments s) as [[c f]|] eqn:HA.
    + apply nearest_Some in HA as (s1 & s2 & -> & Hc & Hall). simpl in Hc.
      rewrite bool_decide_eq_true. simpl. split.
      * intros ->. split; [|done]. by exists s1, c, s2.
      * intros [(s1' & c' & s2' & [= Heq] & Hc' & Hall') _].
        assert (nearest assignments (s1 ++ (c, f) :: s2) = Some (c', f_target)) as HN.
        { apply nearest_Some. by exists s1', s2'. }
        assert (nearest assignments (s1 ++ (c, f) :: s2) = Some (c, f)) as HN'.
        { apply nearest_Some. by exists s1, s2. }
        congruence.
    + split; [done|]. intros [(s1 & c & s2 & [= ->] & Hc & _) _].
      apply nearest_None, Forall_app in HA as [_ [HA _]%Forall_cons]. done.
Qed.

(** ** The replacement node during a call of [replace_constant] *)

Lemma _replace_input_literal old new type_ r :
  _replace old new type_ = Ok r -> is_literal new = true.
Proof.
  revert type_ r; induction new as [new IH] using node_children_ind; intros type_ r.
  destruct new; try done.
  rewrite _replace_List.
  intros (base_type & _ & (list_values & Hl & Hr)%bind_Ok)%bind_Ok.
  simpl. apply forallb_forall. intros x Hx%list_elem_of_In.
  apply list_comprehension_Ok in Hl.
  apply list_elem_of_lookup in Hx as [i Hi].
  destruct (Forall2_lookup_l _ _ _ _ _ Hl Hi) as (y & Hy & Hxy).
  eapply IH; [|done]. unfold children. simpl. rewrite list_fmap_id.
  by eapply list_elem_of_lookup_2.
Qed.

(** Below a literal there are only literals. *)
Lemma is_literal_get n r x :
  is_literal n = true -> get n r = Some x -> is_literal x = true.
Proof.
  revert n; induction r as [|i r IH]; intros n Hn; simpl; [by intros [= <-]|].
  destruct (children n !! i) as [c|] eqn:Hc; [|done]. apply IH.
  destruct n; try done. unfold children in Hc. simpl in *. rewrite list_fmap_id in Hc.
  rewrite forallb_forall in Hn. apply Hn, list_elem_of_In. by eapply list_elem_of_lookup_2.
Qed.

Lemma replace_constant_body_deref id_ repl roe type_ p m c m1 c1 a :
  get m p = Some (Name a id_) ->
  replace_constant_body id_ repl roe type_ p (m, c) = Ok (m1, c1) ->
  deref m1 repl = deref m repl.
Proof.
  intros Hp [[[= -> ->] _]|(_ & old & new & new_node & m' & Hold & Hd & Hrep & _ & Hput & [= -> ->])]%replace_constant_body_cases;
    [done|].
  destruct repl as [n|v]; [done|]. simpl in *.
  pose proof (_replace_input_literal _ _ _ _ Hrep) as Hlit.
  eapply get_put_ne; [done|..].
  - intros [[|i r] ->].
    + rewrite app_nil_r in Hd. rewrite Hp in Hd. by injection Hd as <-.
    + by rewrite (Name_leaf _ _ _ _ i r Hp) in Hd.
  - intros [r ->]. rewrite get_app, Hd in Hp.
    by apply (is_literal_get _ _ _ Hlit) in Hp.
Qed.

(** What [replace_constant] does to each reference [Name a id_] of the tree
    it is called on: a reference in one of the excluded uses is kept; any
    other reference is replaced by [_replace] of the replacement node, and
    kept when that raises UnfoldableNode and [raise_on_error] is false. *)
Lemma replace_constant_at m id_ repl roe type_ m' c p a s :
  replace_constant m id_ repl roe type_ = Ok (m', c) ->
  p <> [] -> get m p = Some (Name a id_) -> spine m p = Some s ->
  spine m' p = Some s
  /\ (spine_skips s = true -> get m' p = Some (Name a id_))
  /\ (spine_skips s = false ->
      match deref m repl with
      | Some new =>
          match _replace (Name a id_) new type_ with
          | Ok r => get m' p = Some r
          | Raise e => get m' p = Some (Name a id_) /\ roe = false /\ e = UnfoldableNode
          end
      | None => get m' p = Some (Name a id_) /\ roe = false
      end).
Proof.
  intros Hrc Hne Hp Hs. unfold replace_constant in Hrc.
  destruct (local_loop_visit _ (replace_constant_body_local id_ repl roe type_)
              (fun mc => deref mc repl = deref m repl)
              (fun x => exists b, x = Name b id_)) with
      (l := get_descendants m [] (Name_with_id id_) false true)
      (m := m) (c := 0) (m' := m') (c' := c) as [_ Hvisit]; try done.
  { intros q mc c0 m1 c1 x Hinv Hx [b ->] Hb. rewrite <- Hinv.
    by eapply replace_constant_body_deref. }
  { by apply ordered_NoDup, get_descendants_reverse_ordered. }
  { apply Name_positions_antichain. }
  { intros q [_ [b Hb]]%Name_positions. eauto. }
  destruct (Hvisit p) as (mc & c0 & r0 & Hderef & Hg & Hsp & Hbody & Hg' & Hs').
  { apply Name_positions. eauto. }
  rewrite Hs in Hsp, Hs'. rewrite Hp in Hg. split; [done|].
  destruct (skips_spine _ _ _ Hsp) as (T1 & T2 & T3).
  assert (Htests : is_call_func mc p || is_dict_key mc p || is_assignment_target mc p
                   = spine_skips s) by (by rewrite T1, T2, T3).
  apply replace_constant_body_cases in Hbody. rewrite Htests, Hderef in Hbody.
  destruct Hbody as [[-> Hwhy]|(Hfalse & old & new & new_node & m1 & Hold & Hd & Hrep & _ & Hput & ->)].
  - simpl in Hg'. rewrite Hg in Hg'. split; [done|]. intros Hskip.
    destruct Hwhy as [?|(-> & old & Hold & Hwhy)]; [congruence|].
    rewrite Hg in Hold. injection Hold as <-.
    destruct (deref m repl) as [new|]; [|done]. by rewrite Hwhy.
  - split; [congruence|]. intros _. simpl in Hg'.
    rewrite (get_put_same _ _ _ _ Hput) in Hg'. rewrite Hg in Hold. injection Hold as <-.
    by rewrite Hd, Hrep.
Qed.

(** Positions outside the references are left as they are. *)
Lemma replace_constant_frame m id_ repl roe type_ m' c q :
  replace_constant m id_ repl roe type_ = Ok (m', c) ->
  (forall p a, get m p = Some (Name a id_) -> ~ p `prefix_of` q) ->
  spine m' q = spine m q
  /\ ((forall p a, get m p = Some (Name a id_) -> ~ q `prefix_of` p) -> get m' q = get m q).
Proof.
  intros Hrc Hq. unfold replace_constant in Hrc.
  destruct (local_loop_frame _ (replace_constant_body_local id_ repl roe type_) _ _ _ _ _ Hrc)
    as [F1 F2].
  split.
  - apply F2. intros p [_ [a Ha]]%Name_positions Hb%strictly_below_prefix. by eapply Hq.
  - intros Hq'. apply F1. intros p [_ [a Ha]]%Name_positions. split; eauto.
Qed.

(** A node without children that is not a reference to [id_] stays. *)
Lemma replace_constant_other m id_ repl roe type_ m' c q x :
  replace_constant m id_ repl roe type_ = Ok (m', c) ->
  get m q = Some x -> children x = [] -> Name_with_id id_ x = false ->
  get m' q = Some x /\ spine m' q = spine m q.
Proof.
  intros Hrc Hx Hleaf Hnot.
  destruct (replace_constant_frame _ _ _ _ _ _ _ q Hrc) as [Hs Hg].
  - intros p a Hp [[|i r] ->].
    + rewrite app_nil_r in Hx. rewrite Hp in Hx. injection Hx as <-.
      simpl in Hnot. by rewrite String.eqb_refl in Hnot.
    + by rewrite (Name_leaf _ _ _ _ i r Hp) in Hx.
  - split; [|done]. rewrite Hg; [done|]. intros p a Hp [[|i r] ->].
    + rewrite app_nil_r in Hp. rewrite Hp in Hx. injection Hx as <-.
      simpl in Hnot. by rewrite String.eqb_refl in Hnot.
    + rewrite get_app, Hx in Hp. simpl in Hp. by rewrite Hleaf in Hp.
Qed.

(** * Provenance of the substituted nodes *)

Lemma _replace_List_inv old a elements type_ r :
  _replace old (List a elements) type_ = Ok r ->
  exists list_values,
    r = List {| src := src (attrs old); _metadata := type_ |} list_values
    /\ Forall2 (fun i v => _replace old i (element_type type_) = Ok v) elements list_values
    /\ (forall t, type_ = Some t -> value_type t = Ok (default t (element_type type_))
                                   /\ is_Some (element_type type_)).
Proof.
  rewrite _replace_List.
  intros (base_type & Hbase & (list_values & Hl%list_comprehension_Ok & Hr)%bind_Ok)%bind_Ok.
  exists list_values. destruct type_ as [[i [vt|]]|]; simpl in *; try done.
  - injection Hbase as <-. injection Hr as <-. split_and!; [done..|].
    intros t [= <-]. simpl. eauto.
  - injection Hbase as <-. injection Hr as <-. split_and!; done.
Qed.

(** Every node of what [_replace] builds has the position of the replaced
    node and the type of its nesting depth in its metadata. *)
Lemma _replace_stamp old new type_ r q x :
  _replace old new type_ = Ok r -> get r q = Some x ->
  src (attrs x) = src (attrs old)
  /\ _metadata (attrs x) = nested_element_type (length q) type_.
Proof.
  revert type_ r q; induction new as [new IH] using node_children_ind; intros type_ r q.
  destruct new; try done.
  - rewrite _replace_Constant. intros [= <-]. destruct q as [|i q]; [|done].
    by intros [= <-].
  - intros Hrep. apply _replace_List_inv in Hrep as (list_values & -> & Hl & _).
    destruct q as [|i q]; [by intros [= <-]|]. simpl. unfold children. simpl.
    rewrite list_fmap_id. destruct (list_values !! i) as [v|] eqn:Hv; [|done].
    destruct (Forall2_lookup_r _ _ _ _ _ Hl Hv) as (e & He & Hrep).
    apply (IH e); [|done]. unfold children. simpl. rewrite list_fmap_id.
    by eapply list_elem_of_lookup_2.
Qed.

(** A reference in none of the excluded uses is replaced by [_replace] of
    the replacement node. *)
Lemma replace_constant_substitutes
    m id_ replacement_node raise_on_error type_ m' changed_nodes p a new r :
  replace_constant m id_ replacement_node raise_on_error type_ = Ok (m', changed_nodes) ->
  p <> [] -> get m p = Some (Name a id_) -> ~ not_substitutable m p ->
  deref m replacement_node = Some new ->
  _replace (Name a id_) new type_ = Ok r ->
  get m' p = Some r.
Proof.
  intros Hrc Hne Hp Hsub Hd Hrep.
  assert (is_Some (spine m p)) as [s Hs] by (apply spine_is_Some; eauto).
  destruct (replace_constant_at _ _ _ _ _ _ _ _ _ _ Hrc Hne Hp Hs) as (_ & _ & Hsubst).
  rewrite Hd, Hrep in Hsubst. apply Hsubst.
  destruct (spine_skips s) eqn:Hskip; [|done]. destruct Hsub.
  by apply (spine_skips_spec _ _ _ Hs).
Qed.

(** A reference in one of the excluded uses is kept. *)
Lemma replace_constant_keeps
    m id_ replacement_node raise_on_error type_ m' changed_nodes p a :
  replace_constant m id_ replacement_node raise_on_error type_ = Ok (m', changed_nodes) ->
  p <> [] -> get m p = Some (Name a id_) -> not_substitutable m p ->
  get m' p = Some (Name a id_).
Proof.
  intros Hrc Hne Hp Hsub.
  assert (is_Some (spine m p)) as [s Hs] by (apply spine_is_Some; eauto).
  destruct (replace_constant_at _ _ _ _ _ _ _ _ _ _ Hrc Hne Hp Hs) as (_ & Hskip & _).
  by apply Hskip, (spine_skips_spec _ _ _ Hs).
Qed.

(** ** [replace_builtin_constants] *)

(** A loop over a sweep whose body does not raise does not raise. *)
Lemma sweep_loop_total matches R body l m c :
  (forall x cs, length cs = length (children x) -> matches (with_children x cs) = matches x) ->
  (forall p m c r old,
      get m p = Some old -> matches old = true -> body p (m, c) = Ok r ->
      r = (m, c) \/ exists new m', R old new /\ put m p new = Some m' /\ r = (m', c + 1)) ->
  (forall p m c old,
      p <> [] -> get m p = Some old -> matches old = true -> exists r, body p (m, c) = Ok r) ->
  pending matches m l ->
  exists r, for_in l body (m, c) = Ok r.
Proof.
  intros Hhead Hspec Htotal. revert m c; induction l as [|p l IH]; intros m c Hpend; simpl;
    [eauto|].
  pose proof Hpend as [_ [[Hne (old & Hold & Hm)] _]%Forall_cons].
  destruct (Htotal p m c old Hne Hold Hm) as [[m1 c1] Hb]. rewrite Hb. simpl.
  destruct (Hspec _ _ _ _ _ Hold Hm Hb) as [[= -> ->]|(new & m2 & HR & Hput & [= -> ->])].
  - apply IH. destruct Hpend as [[_ ?] [_ ?]%Forall_cons]. by split.
  - apply IH. by eapply pending_put.
Qed.

Lemma replace_constant_body_spec id_ repl roe type_ p m c r old :
  get m p = Some old -> Name_with_id id_ old = true ->
  replace_constant_body id_ repl roe type_ p (m, c) = Ok r ->
  r = (m, c)
  \/ exists new m', name_to_literal old new /\ put m p new = Some m' /\ r = (m', c + 1).
Proof.
  intros Hold [a ->]%Name_with_id_spec
    [[-> _]|(_ & old' & new & new_node & m1 & Hold' & _ & Hrep & _ & Hput & ->)]%replace_constant_body_cases;
    [by left|right].
  exists new_node, m1. split; [|done]. split; [done|]. by eapply _replace_is_literal.
Qed.

(** Substituting a Constant built by the caller never raises. *)
Lemma replace_constant_Constant_total m id_ a cls value roe type_ :
  exists m' c, replace_constant m id_ (fresh (Constant a cls value)) roe type_ = Ok (m', c).
Proof.
  destruct (sweep_loop_total (Name_with_id id_) name_to_literal
              (replace_constant_body id_ (fresh (Constant a cls value)) roe type_)
              (get_descendants m [] (Name_with_id id_) false true) m 0)
    as [[m' c] Hr]; [| | |apply pending_snapshot|by exists m', c].
  - intros x cs _. apply Name_with_id_with_children.
  - apply replace_constant_body_spec.
  - intros p m0 c0 old Hne Hold Hm. unfold replace_constant_body.
    destruct (is_call_func m0 p); [eauto|]. destruct (is_dict_key m0 p); [eauto|].
    destruct (is_assignment_target m0 p); [eauto|].
    unfold node_at. rewrite Hold. cbn [bind deref]. rewrite _replace_Constant.
    destruct (replace_in_tree_attached m0 p
                (Constant {| src := src (attrs old); _metadata := type_ |} cls value))
      as [m1 ->]; [done|eauto|]. cbn [bind]. eauto.
Qed.

Lemma replace_builtin_constants_unfold m :
  replace_builtin_constants m = for_in BUILTIN_CONSTANTS replace_builtin_constants_body m.
Proof. done. Qed.

Lemma builtin_loop entries m :
  NoDup entries.*1 ->
  exists m',
    for_in entries replace_builtin_constants_body m = Ok m'
    /\ (forall q x, get m q = Some x -> children x = [] ->
          (forall e, e ∈ entries -> Name_with_id e.1 x = false) ->
          get m' q = Some x /\ spine m' q = spine m q)
    /\ (forall name cls value p a s,
          (name, (cls, value)) ∈ entries -> p <> [] ->
          get m p = Some (Name a name) -> spine m p = Some s ->
          spine m' p = Some s
          /\ get m' p = Some (if spine_skips s then Name a name
                              else Constant {| src := src a; _metadata := None |} cls value)).
Proof.
  revert m; induction entries as [|[name [cls value]] entries IH]; intros m Hnd.
  { exists m. split; [done|]. split; [done|]. by intros ? ? ? ? ? ? ?%elem_of_nil. }
  rewrite fmap_cons in Hnd. apply NoDup_cons in Hnd as [Hname Hnd].
  destruct (replace_constant_Constant_total m name fresh_attributes cls value true None)
    as (m1 & c1 & Hrc).
  destruct (IH m1 Hnd) as (m' & Hloop & Hother & Hrefs).
  exists m'. split; [simpl; by rewrite Hrc|]. split.
  - intros q x Hx Hleaf Hnot.
    destruct (replace_constant_other _ _ _ _ _ _ _ q x Hrc Hx Hleaf) as [Hx1 Hs1].
    { apply (Hnot (name, (cls, value))). by left. }
    destruct (Hother q x Hx1 Hleaf) as [Hx' Hs']; [|by rewrite Hs', Hs1].
    intros e He. apply Hnot. by right.
  - intros name' cls' value' p a s [[= -> -> ->]|Hin]%elem_of_cons Hne Hp Hs.
    + destruct (replace_constant_at _ _ _ _ _ _ _ _ _ _ Hrc Hne Hp Hs) as (Hs1 & Hskip & Hsubst).
      assert (Hafter : forall x, get m1 p = Some x -> children x = [] ->
                (forall e, e ∈ entries -> Name_with_id e.1 x = false) ->
                spine m' p = Some s /\ get m' p = Some x).
      { intros x Hx Hleaf Hnot. destruct (Hother p x Hx Hleaf Hnot) as [? ->]. by rewrite Hs1. }
      destruct (spine_skips s).
      * apply Hafter; [by apply Hskip|done|].
        intros [n' ?] He. simpl. apply String.eqb_neq. intros ->.
        apply Hname. apply list_elem_of_fmap. by exists (n', p0).
      * simpl in Hsubst. apply Hafter; [by apply Hsubst|done..].
    + assert (name' <> name) as Hdiff.
      { intros ->. apply Hname. apply list_elem_of_fmap. by exists (name, (cls', value')). }
      destruct (replace_constant_other _ _ _ _ _ _ _ p (Name a name') Hrc Hp) as [Hp1 Hs1];
        [done|by apply String.eqb_neq|].
      rewrite Hs in Hs1. by apply (Hrefs name' cls' value' p a s).
Qed.

Lemma BUILTIN_CONSTANTS_NoDup : NoDup BUILTIN_CONSTANTS.*1.
Proof. apply NoDup_ListNoDup. vm_compute. repeat (constructor; [simpl; intuition discriminate|]). constructor. Qed.

(** * The passes of [fold] as sequences of replacements *)

Section passes.

Variable evaluate : node -> result node.
Variable DISPATCH_TABLE : gmap string builtin_function.
Variable get_type_from_annotation : node -> DataLocation -> BaseTypeDefinition + string.
Variable truth_value : node -> bool.

Lemma isinstance_with_children classes x cs :
  isinstance (with_children x cs) classes = isinstance x classes.
Proof. unfold isinstance. by rewrite class_of_with_children. Qed.

Lemma evaluate_body_spec p m c r old :
  get m p = Some old ->
  replace_literal_ops_body evaluate p (m, c) = Ok r ->
  r = (m, c) \/ exists new m', (evaluates_to evaluate) old new /\ put m p new = Some m' /\ r = (m', c + 1).
Proof.
  intros Hold. unfold replace_literal_ops_body, node_at. rewrite Hold. cbn [bind].
  destruct (evaluate old) as [new|e] eqn:He.
  - intros (m' & [_ Hput]%replace_in_tree_Ok & [= <-])%bind_Ok. right. by exists new, m'.
  - destruct e; try done. intros [= <-]. by left.
Qed.

Lemma replace_literal_ops_rewrites m m' c :
  replace_literal_ops evaluate m = Ok (m', c) ->
  rewrites (fun old new => class_of old ∈ [cBoolOp; cBinOp; cUnaryOp; cCompare]
                           /\ (evaluates_to evaluate) old new) c m m'.
Proof.
  apply (sweep_rewrites (fun n => isinstance n [cBoolOp; cBinOp; cUnaryOp; cCompare])).
  - intros x cs _. apply isinstance_with_children.
  - intros p m0 c0 r old Hold Hm%isinstance_spec Hbody.
    destruct (evaluate_body_spec _ _ _ _ _ Hold Hbody) as [->|(new & m1 & He & Hput & ->)];
      [by left|right]. by exists new, m1.
Qed.

Lemma replace_subscripts_rewrites m m' c :
  replace_subscripts evaluate m = Ok (m', c) ->
  rewrites (fun old new => class_of old = cSubscript /\ (evaluates_to evaluate) old new) c m m'.
Proof.
  apply (sweep_rewrites (fun n => isinstance n [cSubscript])).
  - intros x cs _. apply isinstance_with_children.
  - intros p m0 c0 r old Hold Hm%isinstance_spec%list_elem_of_singleton Hbody.
    destruct (evaluate_body_spec _ _ _ _ _ Hold Hbody) as [->|(new & m1 & He & Hput & ->)];
      [by left|right]. by exists new, m1.
Qed.

Lemma replace_builtin_functions_body_spec p m c r old :
  get m p = Some old ->
  replace_builtin_functions_body DISPATCH_TABLE p (m, c) = Ok r ->
  r = (m, c)
  \/ exists new m', (builtin_evaluates_to DISPATCH_TABLE) old new /\ put m p new = Some m' /\ r = (m', c + 1).
Proof.
  intros Hold. unfold replace_builtin_functions_body, node_at. rewrite Hold. cbn [bind].
  destruct old as [| | | | | | | |a [| | | |fa name| | | | | | | | | | |] args keywords| | | | | | |];
    try (intros [= <-]; by left).
  destruct (DISPATCH_TABLE !! name) as [func|] eqn:Hfunc; [|intros [= <-]; by left].
  destruct (evaluate_method func) as [func_evaluate|] eqn:Hev; [|intros [= <-]; by left].
  destruct (func_evaluate _) as [new|e] eqn:He.
  - intros (m' & [_ Hput]%replace_in_tree_Ok & [= <-])%bind_Ok. right.
    exists new, m'. split; [|done]. by exists a, fa, name, args, keywords, func, func_evaluate.
  - destruct e; try done. intros [= <-]. by left.
Qed.

Lemma replace_builtin_functions_rewrites m m' c :
  replace_builtin_functions DISPATCH_TABLE m = Ok (m', c) ->
  rewrites (builtin_evaluates_to DISPATCH_TABLE) c m m'.
Proof.
  apply (sweep_rewrites (fun n => isinstance n [cCall])).
  - intros x cs _. apply isinstance_with_children.
  - intros p m0 c0 r old Hold _. by apply replace_builtin_functions_body_spec.
Qed.

Lemma replace_user_defined_constants_body_rewrites p m c m' c' :
  replace_user_defined_constants_body get_type_from_annotation truth_value p (m, c)
    = Ok (m', c') ->
  exists k, c' = c + k /\ rewrites name_to_literal k m m'.
Proof.
  unfold replace_user_defined_constants_body.
  intros (node & _ & Hr)%bind_Ok.
  assert (Hskip : Ok (m, c) = Ok (m', c') -> exists k, c' = c + k /\ rewrites name_to_literal k m m').
  { intros [= <- <-]. exists 0. split; [lia|apply rewrites_refl]. }
  destruct node as [|a target annotation value| | | | | | | | | | | | | |]; try by apply Hskip.
  destruct target as [| | | |ta target_id| | | | | | | | | | |]; try by apply Hskip.
  destruct annotation as [| | | | | | | |ca func args keywords| | | | | | |]; try by apply Hskip.
  destruct func as [| | | |fa func_id| | | | | | | | | | |]; try by apply Hskip.
  destruct (negb (func_id =? "constant")%string); [by apply Hskip|].
  destruct args as [|constant_annotation args]; [done|].
  apply bind_Ok in Hr as (type_ & _ & ([m1 k] & Hrc & [= <- <-])%bind_Ok).
  exists k. split; [done|]. by eapply replace_constant_rewrites.
Qed.

Lemma replace_user_defined_constants_rewrites m m' c :
  replace_user_defined_constants get_type_from_annotation truth_value m = Ok (m', c) ->
  rewrites name_to_literal c m m'.
Proof.
  unfold replace_user_defined_constants.
  generalize (get_children m [] (fun n => isinstance n [cAnnAssign])) as l.
  assert (forall l m0 c0,
    for_in l (replace_user_defined_constants_body get_type_from_annotation truth_value)
           (m0, c0) = Ok (m', c) ->
    exists k, c = c0 + k /\ rewrites name_to_literal k m0 m') as Hloop.
  { induction l as [|p l IH]; intros m0 c0; simpl.
    - intros [= <- <-]. exists 0. split; [lia|apply rewrites_refl].
    - intros ([m1 c1] & Hbody & Hrest)%bind_Ok.
      apply replace_user_defined_constants_body_rewrites in Hbody as (k1 & -> & Hk1).
      apply IH in Hrest as (k2 & -> & Hk2). exists (k1 + k2). split; [lia|].
      by eapply rewrites_trans. }
  intros l (k & -> & Hk)%Hloop. done.
Qed.

(** Under the contracts every pass is a sequence of folding replacements. *)
Hypothesis evaluate_ok : evaluate_contract evaluate.
Hypothesis dispatch_ok : dispatch_contract DISPATCH_TABLE.

Lemma fold_iteration_rewrites m m' c :
  fold_iteration evaluate DISPATCH_TABLE get_type_from_annotation truth_value m = Ok (m', c) ->
  rewrites folds_to c m m'.
Proof.
  unfold fold_iteration.
  intros ([m1 c1] & H1 & ([m2 c2] & H2 & ([m3 c3] & H3 & ([m4 c4] & H4 & [= <- <-])%bind_Ok)%bind_Ok)%bind_Ok)%bind_Ok.
  simpl in *.
  apply replace_user_defined_constants_rewrites in H1.
  apply replace_literal_ops_rewrites in H2. apply replace_subscripts_rewrites in H3.
  apply replace_builtin_functions_rewrites in H4.
  repeat eapply rewrites_trans.
  - eapply rewrites_mono; [|exact H1]. apply name_to_literal_folds.
  - eapply rewrites_mono; [|exact H2]. intros old new [Hc He].
    destruct (evaluate_ok _ _ He) as [Hlit|Hsel]; [left|by right].
    split; [|done]. by repeat (apply elem_of_cons in Hc as [->|Hc]; [done|]); apply elem_of_nil in Hc.
  - eapply rewrites_mono; [|exact H3]. intros old new [Hc He].
    destruct (evaluate_ok _ _ He) as [Hlit|Hsel]; [left|by right]. by rewrite Hc.
  - eapply rewrites_mono; [|exact H4].
    intros old new (a & fa & name & args & keywords & func & fe & -> & Hf & Hm & He).
    left. split; [done|]. by eapply dispatch_ok.
Qed.

End passes.

(** ** [replace_builtin_constants] as a sequence of replacements *)

Lemma replace_builtin_constants_rewrites m m' :
  replace_builtin_constants m = Ok m' -> exists k, rewrites name_to_literal k m m'.
Proof.
  rewrite replace_builtin_constants_unfold. generalize BUILTIN_CONSTANTS as l.
  intros l; revert m; induction l as [|[name [cls value]] l IH]; intros m; simpl.
  - intros [= <-]. exists 0. apply rewrites_refl.
  - intros (m1 & ([m1' c1] & Hrc & [= <-])%bind_Ok & Hrest)%bind_Ok.
    apply replace_constant_rewrites in Hrc. apply IH in Hrest as [k Hk].
    exists (c1 + k). by eapply rewrites_trans.
Qed.

(** ** The driver *)

Section driver.

Variable evaluate : node -> result node.
Variable DISPATCH_TABLE : gmap string builtin_function.
Variable get_type_from_annotation : node -> DataLocation -> BaseTypeDefinition + string.
Variable truth_value : node -> bool.

Local Abbreviation fold_iteration' :=
  (fold_iteration evaluate DISPATCH_TABLE get_type_from_annotation truth_value).
Local Abbreviation fold_while' :=
  (fold_while evaluate DISPATCH_TABLE get_type_from_annotation truth_value).
Local Abbreviation fold' :=
  (fold evaluate DISPATCH_TABLE get_type_from_annotation truth_value).

Lemma fold_iteration_Ok m m' total :
  fold_iteration' m = Ok (m', total) <-> (pass_group evaluate DISPATCH_TABLE get_type_from_annotation truth_value) m m' total.
Proof.
  unfold fold_iteration, pass_group. split.
  - intros ([m1 c1] & H1 & ([m2 c2] & H2 & ([m3 c3] & H3 & ([m4 c4] & H4 & [= <- <-])%bind_Ok)%bind_Ok)%bind_Ok)%bind_Ok.
    simpl in *. by exists m1, c1, m2, c2, m3, c3, c4.
  - intros (m1 & c1 & m2 & c2 & m3 & c3 & c4 & H1 & H2 & H3 & H4 & ->).
    rewrite H1. simpl. rewrite H2. simpl. rewrite H3. simpl. rewrite H4. done.
Qed.

Lemma fold_while_Ok fuel m m' :
  fold_while' fuel m = Some (Ok m') <->
  exists groups, groups <= fuel /\ (repeated_groups evaluate DISPATCH_TABLE get_type_from_annotation truth_value) groups m m'.
Proof.
  revert m; induction fuel as [|fuel IH]; intros m; simpl.
  { split; [done|]. intros (groups & Hle & Hg). inversion Hg; subst; lia. }
  destruct (fold_iteration' m) as [[m1 total]|e] eqn:Hit.
  - apply fold_iteration_Ok in Hit. destruct (Nat.eqb_spec total 0) as [->|Hne].
    + split.
      * intros [= <-]. exists 1. split; [lia|]. by apply last_group.
      * intros (groups & _ & Hg). inversion Hg as [? ? Hp|? ? ? ? ? Hp Hne]; subst.
        -- apply fold_iteration_Ok in Hit, Hp. congruence.
        -- apply fold_iteration_Ok in Hit, Hp. congruence.
    + rewrite IH. split.
      * intros (groups & Hle & Hg). exists (S groups). split; [lia|]. by eapply next_group.
      * intros (groups & Hle & Hg). inversion Hg as [? ? Hp|g ? ? ? ? Hp Hne' Hrest]; subst.
        -- apply fold_iteration_Ok in Hit, Hp. congruence.
        -- apply fold_iteration_Ok in Hit, Hp. exists g. split; [lia|]. congruence.
  - split; [done|]. intros (groups & _ & Hg).
    inversion Hg as [? ? Hp|? ? ? ? ? Hp]; subst; apply fold_iteration_Ok in Hp; congruence.
Qed.

(** More fuel does not change what the loop returns. *)
Lemma fold_while_fuel fuel fuel' m r :
  fold_while' fuel m = Some r -> fuel <= fuel' -> fold_while' fuel' m = Some r.
Proof.
  revert fuel' m; induction fuel as [|fuel IH]; intros fuel' m; simpl; [done|].
  intros Hr Hle. destruct fuel' as [|fuel']; [lia|]. simpl.
  destruct (fold_iteration' m) as [[m1 total]|e]; [|done].
  destruct (total =? 0)%nat; [done|]. apply IH; [done|lia].
Qed.

(** The loop ends when its last turn changed nothing. *)
Lemma fold_while_fixed fuel m m' :
  fold_while' fuel m = Some (Ok m') -> exists m1, fold_iteration' m1 = Ok (m', 0).
Proof.
  revert m; induction fuel as [|fuel IH]; intros m; simpl; [done|].
  destruct (fold_iteration' m) as [[m1 total]|e] eqn:Hit; [|done].
  destruct (Nat.eqb_spec total 0) as [->|Hne]; [|by apply IH].
  intros [= <-]. eauto.
Qed.

(** Under the contracts a turn that changes something lowers the measure,
    so the loop ends. *)
Lemma fold_while_terminates fuel m :
  evaluate_contract evaluate -> dispatch_contract DISPATCH_TABLE ->
  unfolded_count m < fuel -> exists r, fold_while' fuel m = Some r.
Proof.
  intros He Hd. revert m; induction fuel as [|fuel IH]; intros m Hlt; [lia|]. simpl.
  destruct (fold_iteration' m) as [[m1 total]|e] eqn:Hit; [|eauto].
  destruct (Nat.eqb_spec total 0) as [->|Hne]; [eauto|].
  apply IH. apply (fold_iteration_rewrites _ _ _ _ He Hd), rewrites_measure in Hit. lia.
Qed.

End driver.

(** ** References to builtin constants after [replace_builtin_constants] *)

Lemma nearest_app classes s t :
  nearest classes (s ++ t) =
  match nearest classes t with
  | Some e => Some e
  | None => nearest classes s
  end.
Proof.
  induction t as [|e t IH] using rev_ind; [by rewrite app_nil_r|].
  rewrite app_assoc, !nearest_snoc. by case_bool_decide.
Qed.

Lemma nearest_cons_other classes e s :
  e.1 ∉ classes -> nearest classes (e :: s) = nearest classes s.
Proof.
  intros He. change (e :: s) with ([e] ++ s). rewrite nearest_app.
  destruct (nearest classes s); [done|].
  change [e] with ([] ++ [e]). rewrite nearest_snoc. by rewrite bool_decide_eq_false_2.
Qed.

(** Taking a list element out of a subscript keeps a reference that was not
    to be substituted not to be substituted. *)
Lemma spine_skips_selected s0 t :
  spine_skips (s0 ++ (cSubscript, f_value) :: (cList, f_elements) :: t) = true ->
  spine_skips (s0 ++ t) = true.
Proof.
  assert (Hn : forall classes, cSubscript ∉ classes -> cList ∉ classes ->
    nearest classes (s0 ++ (cSubscript, f_value) :: (cList, f_elements) :: t)
    = nearest classes (s0 ++ t)).
  { intros classes H1 H2. rewrite !nearest_app, !nearest_cons_other by done. done. }
  assert (Ha : spine_assignment_target (s0 ++ (cSubscript, f_value) :: (cList, f_elements) :: t)
               = spine_assignment_target (s0 ++ t)).
  { unfold spine_assignment_target. rewrite !Hn; [done|..]; unfold assignments;
      rewrite ?elem_of_cons, ?elem_of_nil; intuition discriminate. }
  unfold spine_skips, spine_call_func, spine_dict_key. rewrite Ha.
  destruct t as [|e t _] using rev_ind.
  - rewrite app_nil_r.
    replace (s0 ++ [(cSubscript, f_value); (cList, f_elements)])
      with ((s0 ++ [(cSubscript, f_value)]) ++ [(cList, f_elements)])
      by (by rewrite <- app_assoc).
    rewrite last_snoc. rewrite !bool_decide_eq_false_2 by done. simpl.
    intros ->. apply orb_true_r.
  - replace (s0 ++ (cSubscript, f_value) :: (cList, f_elements) :: t ++ [e])
      with ((s0 ++ (cSubscript, f_value) :: (cList, f_elements) :: t) ++ [e])
      by (by rewrite <- app_assoc).
    by rewrite (app_assoc s0 t [e]), !last_snoc.
Qed.

Lemma spine_set_attrs a n r : spine (set_attrs a n) r = spine n r.
Proof.
  destruct r as [|i r]; [done|]. simpl.
  by rewrite children_set_attrs, child_fields_set_attrs, class_of_set_attrs.
Qed.

Lemma get_set_attrs_cons a n i r : get (set_attrs a n) (i :: r) = get n (i :: r).
Proof. simpl. by rewrite children_set_attrs. Qed.

(** A reference found after a replacement that is not below the replaced
    position was there before, in the same use. *)
Lemma Name_outside_put m p new m1 q a id :
  put m p new = Some m1 -> ~ p `prefix_of` q ->
  get m1 q = Some (Name a id) ->
  get m q = Some (Name a id) /\ spine m q = spine m1 q.
Proof.
  intros Hput Hpq Hq.
  assert (~ q `prefix_of` p) as Hqp.
  { intros [[|i r] ->]; [apply Hpq; by rewrite app_nil_r|].
    apply get_put_same in Hput. by rewrite (Name_leaf _ _ _ _ i r Hq) in Hput. }
  split.
  - by rewrite <- (get_put_ne _ _ _ _ _ Hput Hpq Hqp).
  - symmetry. eapply spine_put; [done|]. by intros ?%strictly_below_prefix.
Qed.

Lemma folds_to_settled m p old new m1 :
  get m p = Some old -> folds_to old new -> put m p new = Some m1 ->
  builtin_references_settled m -> builtin_references_settled m1.
Proof.
  intros Hold Hfold Hput Hset q a name s Hname Hne Hq Hs.
  destruct (decide (p `prefix_of` q)) as [[r ->]|Hpq].
  - rewrite (get_put_below _ _ _ _ _ Hput) in Hq.
    destruct Hfold as [[_ Hlit]|(a0 & elts & a1 & slice & e & a2 & -> & He & ->)].
    { by apply (is_literal_get _ _ _ Hlit) in Hq. }
    apply list_elem_of_lookup in He as [j Hj].
    rewrite (spine_put_below _ _ _ _ _ Hput), spine_set_attrs in Hs.
    destruct (spine m p) as [s0|] eqn:Hs0; [|done].
    destruct (spine e r) as [t|] eqn:Ht; [|done]. injection Hs as <-.
    assert (exists a', get e r = Some (Name a' name)) as [a' Hr].
    { destruct r as [|i r]; [|rewrite get_set_attrs_cons in Hq; eauto].
      injection Hq as Hq. destruct e; try done. injection Hq as _ ->. eauto. }
    apply spine_skips_selected.
    apply (Hset (p ++ 0 :: j :: r) a' name); [done|by destruct p| |].
    + rewrite get_app, Hold. simpl. unfold children. simpl. rewrite list_fmap_id, Hj. done.
    + rewrite spine_app, Hs0, Hold. simpl. unfold children. simpl.
      rewrite list_fmap_id, Hj, Ht.
      assert (replicate (length elts) f_elements !! j = Some f_elements) as ->.
      { apply lookup_replicate_2. by eapply lookup_lt_Some. }
      done.
  - destruct (Name_outside_put _ _ _ _ _ _ _ Hput Hpq Hq) as [Hq' Hs'].
    apply (Hset q a name); [done..|congruence].
Qed.

Lemma rewrites_settled k m m' :
  rewrites folds_to k m m' ->
  builtin_references_settled m -> builtin_references_settled m'.
Proof.
  induction 1 as [|k m p old new m1 m' Hp Hget HR Hput _ IH]; [done|].
  intros Hset. apply IH. by eapply folds_to_settled.
Qed.

(** A reference left by replacements of names by literals was there before. *)
Lemma rewrites_Name_inv k m m' q a id :
  rewrites name_to_literal k m m' ->
  get m' q = Some (Name a id) ->
  get m q = Some (Name a id) /\ spine m q = spine m' q.
Proof.
  induction 1 as [|k m p old new m1 m' Hp Hget [_ Hlit] Hput _ IH]; [done|].
  intros Hq. destruct (IH Hq) as [Hq1 Hs1].
  destruct (decide (p `prefix_of` q)) as [[r ->]|Hpq].
  - rewrite (get_put_below _ _ _ _ _ Hput) in Hq1.
    by apply (is_literal_get _ _ _ Hlit) in Hq1.
  - destruct (Name_outside_put _ _ _ _ _ _ _ Hput Hpq Hq1) as [? ?]. split; congruence.
Qed.

Lemma replace_builtin_constants_total m :
  exists m', replace_builtin_constants m = Ok m'.
Proof.
  destruct (builtin_loop BUILTIN_CONSTANTS m BUILTIN_CONSTANTS_NoDup) as (m' & H & _).
  by exists m'.
Qed.

Lemma replace_builtin_constants_settles m m' :
  replace_builtin_constants m = Ok m' -> builtin_references_settled m'.
Proof.
  intros Hrb q a name s Hname Hne Hq Hs.
  destruct (replace_builtin_constants_rewrites _ _ Hrb) as [k Hk].
  destruct (rewrites_Name_inv _ _ _ _ _ _ Hk Hq) as [Hq0 Hs0].
  destruct (builtin_loop BUILTIN_CONSTANTS m BUILTIN_CONSTANTS_NoDup) as (m'' & Hloop & _ & Hrefs).
  rewrite <- replace_builtin_constants_unfold, Hrb in Hloop. injection Hloop as <-.
  apply list_elem_of_fmap in Hname as ([name' [cls value]] & -> & Hin). simpl in *.
  rewrite <- Hs0 in Hs.
  destruct (Hrefs name' cls value q a s Hin Hne Hq0 Hs) as [_ Hq'].
  rewrite Hq in Hq'. by destruct (spine_skips s).
Qed.

Lemma for_in_skip {A S} (l : list A) (body : A -> S -> result S) s :
  (forall x, x ∈ l -> body x s = Ok s) -> for_in l body s = Ok s.
Proof.
  induction l as [|x l IH]; simpl; [done|]. intros H.
  rewrite (H x) by left. simpl. apply IH. intros y Hy. apply H. by right.
Qed.

(** When every reference to [id_] is in an excluded use, [replace_constant]
    changes nothing. *)
Lemma replace_constant_nothing m id_ repl roe type_ :
  (forall p a s, p <> [] -> get m p = Some (Name a id_) -> spine m p = Some s ->
                 spine_skips s = true) ->
  replace_constant m id_ repl roe type_ = Ok (m, 0).
Proof.
  intros Hall. apply for_in_skip. intros p [Hne [a Hp]]%Name_positions.
  assert (is_Some (spine m p)) as [s Hs] by (apply spine_is_Some; eauto).
  destruct (skips_spine _ _ _ Hs) as (T1 & T2 & T3).
  pose proof (Hall p a s Hne Hp Hs) as Hskip. unfold spine_skips in Hskip.
  unfold replace_constant_body. rewrite T1, T2, T3.
  destruct (spine_call_func s); [done|]. destruct (spine_dict_key s); [done|].
  by destruct (spine_assignment_target s).
Qed.

Lemma settled_replace_builtin_constants m :
  builtin_references_settled m -> replace_builtin_constants m = Ok m.
Proof.
  intros Hset. rewrite replace_builtin_constants_unfold.
  apply for_in_skip. intros [name [cls value]] Hin. simpl.
  rewrite (replace_constant_nothing m name); [done|].
  intros p a s Hne Hp Hs. apply (Hset p a name); [|done..].
  apply list_elem_of_fmap. by exists (name, (cls, value)).
Qed.

(** ** Exceptions of the passes *)

Lemma for_in_no_UnfoldableNode {A S} (l : list A) (body : A -> S -> result S) s :
  (forall x s, raises_UnfoldableNode (body x s) = false) ->
  raises_UnfoldableNode (for_in l body s) = false.
Proof.
  intros Hbody. revert s; induction l as [|x l IH]; intros s; simpl; [done|].
  specialize (Hbody x s). destruct (body x s) as [s'|e]; simpl; [apply IH|done].
Qed.

Lemma for_in_app {A S} (l1 l2 : list A) (body : A -> S -> result S) s :
  for_in (l1 ++ l2) body s = (s' <- for_in l1 body s ;; for_in l2 body s').
Proof.
  revert s; induction l1 as [|x l1 IH]; intros s; simpl; [done|].
  destruct (body x s); simpl; [apply IH|done].
Qed.

(** An exception of the body ends the loop. *)
Lemma for_in_Raise {A S} (l1 l2 : list A) x (body : A -> S -> result S) s s' e :
  for_in l1 body s = Ok s' -> body x s' = Raise e ->
  for_in (l1 ++ x :: l2) body s = Raise e.
Proof. intros H1 H2. rewrite for_in_app, H1. simpl. by rewrite H2. Qed.

Lemma node_at_no_UnfoldableNode m p : raises_UnfoldableNode (node_at m p) = false.
Proof. unfold node_at. by destruct (get m p). Qed.

Lemma replace_in_tree_no_UnfoldableNode m p new :
  raises_UnfoldableNode (replace_in_tree m p new) = false.
Proof. unfold replace_in_tree. destruct p; [done|]. by destruct (put m _ new). Qed.

Lemma replace_constant_body_no_UnfoldableNode id_ repl type_ p st :
  raises_UnfoldableNode (replace_constant_body id_ repl false type_ p st) = false.
Proof.
  destruct st as [m c]. unfold replace_constant_body.
  destruct (is_call_func m p); [done|]. destruct (is_dict_key m p); [done|].
  destruct (is_assignment_target m p); [done|].
  unfold node_at. destruct (get m p) as [old|]; [|done]. cbn [bind].
  destruct (deref m repl) as [new|]; [|done].
  destruct (_replace old new type_) as [new_node|e]; [|by destruct e].
  pose proof (replace_in_tree_no_UnfoldableNode m p new_node).
  by destruct (replace_in_tree m p new_node).
Qed.

Lemma replace_constant_no_UnfoldableNode m id_ repl type_ :
  raises_UnfoldableNode (replace_constant m id_ repl false type_) = false.
Proof. apply for_in_no_UnfoldableNode, replace_constant_body_no_UnfoldableNode. Qed.

Lemma replace_builtin_constants_no_UnfoldableNode m :
  raises_UnfoldableNode (replace_builtin_constants m) = false.
Proof. by destruct (replace_builtin_constants_total m) as [m' ->]. Qed.

Section exceptions.

Variable evaluate : node -> result node.
Variable DISPATCH_TABLE : gmap string builtin_function.
Variable get_type_from_annotation : node -> DataLocation -> BaseTypeDefinition + string.
Variable truth_value : node -> bool.

Lemma replace_literal_ops_body_no_UnfoldableNode p st :
  raises_UnfoldableNode (replace_literal_ops_body evaluate p st) = false.
Proof.
  destruct st as [m c]. unfold replace_literal_ops_body, node_at.
  destruct (get m p) as [old|]; [|done]. cbn [bind].
  destruct (evaluate old) as [new|e]; [|by destruct e].
  pose proof (replace_in_tree_no_UnfoldableNode m p new).
  by destruct (replace_in_tree m p new).
Qed.

Lemma replace_builtin_functions_body_no_UnfoldableNode p st :
  raises_UnfoldableNode (replace_builtin_functions_body DISPATCH_TABLE p st) = false.
Proof.
  destruct st as [m c]. unfold replace_builtin_functions_body, node_at.
  destruct (get m p) as [old|]; [|done]. cbn [bind].
  destruct old as [| | | | | | | |a [| | | |fa name| | | | | | | | | | |] args keywords| | | | | | |];
    try done.
  destruct (DISPATCH_TABLE !! name) as [func|]; [|done].
  destruct (evaluate_method func) as [func_evaluate|]; [|done].
  destruct (func_evaluate _) as [new|e]; [|by destruct e].
  pose proof (replace_in_tree_no_UnfoldableNode m p new).
  by destruct (replace_in_tree m p new).
Qed.

(** The body of [replace_user_defined_constants] on a constant declaration:
    the type is resolved from the first argument of [constant(...)] when that
    argument is true, and is [None] otherwise; the exception of the resolver
    is not caught. *)
Lemma replace_user_defined_constants_body_declaration
    p m c a ta target_id ca fa constant_annotation args keywords value :
  get m p = Some (AnnAssign a (Name ta target_id)
                    (Call ca (Name fa "constant") (constant_annotation :: args) keywords)
                    value) ->
  replace_user_defined_constants_body get_type_from_annotation truth_value p (m, c) =
  (type_ <- (if truth_value constant_annotation
             then match get_type_from_annotation constant_annotation UNSET with
                  | inl t => Ok (Some t)
                  | inr msg => Raise (TypeResolutionError msg)
                  end
             else Ok None) ;;
   r <- replace_constant m target_id (in_tree (p ++ [2])) false type_ ;;
   Ok (fst r, c + snd r)).
Proof. intros Hp. unfold replace_user_defined_constants_body, node_at. by rewrite Hp. Qed.

Lemma replace_user_defined_constants_body_no_UnfoldableNode p st :
  raises_UnfoldableNode
    (replace_user_defined_constants_body get_type_from_annotation truth_value p st) = false.
Proof.
  destruct st as [m c]. unfold replace_user_defined_constants_body, node_at.
  destruct (get m p) as [node|]; [|done]. cbn [bind].
  destruct node as [|a target annotation value| | | | | | | | | | | | | |]; try done.
  destruct target as [| | | |ta target_id| | | | | | | | | | |]; try done.
  destruct annotation as [| | | | | | | |ca func args keywords| | | | | | |]; try done.
  destruct func as [| | | |fa func_id| | | | | | | | | | |]; try done.
  destruct (negb (func_id =? "constant")%string); [done|].
  destruct args as [|constant_annotation args]; [done|].
  destruct (truth_value constant_annotation);
    [destruct (get_type_from_annotation constant_annotation UNSET); [|done]|]; cbn [bind].
  - pose proof (replace_constant_no_UnfoldableNode m target_id (in_tree (p ++ [2])) (Some b)).
    by destruct (replace_constant _ _ _ _ _).
  - pose proof (replace_constant_no_UnfoldableNode m target_id (in_tree (p ++ [2])) None).
    by destruct (replace_constant _ _ _ _ _).
Qed.

Lemma fold_iteration_no_UnfoldableNode m :
  raises_UnfoldableNode
    (fold_iteration evaluate DISPATCH_TABLE get_type_from_annotation truth_value m) = false.
Proof.
  unfold fold_iteration.
  pose proof (for_in_no_UnfoldableNode
                (get_children m [] (fun n => isinstance n [cAnnAssign])) _ (m, 0)
                replace_user_defined_constants_body_no_UnfoldableNode) as H1.
  fold (replace_user_defined_constants get_type_from_annotation truth_value m) in H1.
  destruct (replace_user_defined_constants _ _ m) as [[m1 c1]|e]; [|done]. cbn [bind fst snd].
  pose proof (for_in_no_UnfoldableNode
                (get_descendants m1 [] (fun n => isinstance n [cBoolOp; cBinOp; cUnaryOp; cCompare]) false true)
                _ (m1, 0) replace_literal_ops_body_no_UnfoldableNode) as H2.
  fold (replace_literal_ops evaluate m1) in H2.
  destruct (replace_literal_ops evaluate m1) as [[m2 c2]|e]; [|done]. cbn [bind fst snd].
  pose proof (for_in_no_UnfoldableNode
                (get_descendants m2 [] (fun n => isinstance n [cSubscript]) false true)
                _ (m2, 0) replace_literal_ops_body_no_UnfoldableNode) as H3.
  change (raises_UnfoldableNode (replace_subscripts evaluate m2) = false) in H3.
  destruct (replace_subscripts evaluate m2) as [[m3 c3]|e]; [|done]. cbn [bind fst snd].
  pose proof (for_in_no_UnfoldableNode
                (get_descendants m3 [] (fun n => isinstance n [cCall]) false true)
                _ (m3, 0) replace_builtin_functions_body_no_UnfoldableNode) as H4.
  fold (replace_builtin_functions DISPATCH_TABLE m3) in H4.
  by destruct (replace_builtin_functions DISPATCH_TABLE m3) as [[m4 c4]|e].
Qed.

Lemma fold_while_no_UnfoldableNode fuel m :
  fold_raises_UnfoldableNode
    (fold_while evaluate DISPATCH_TABLE get_type_from_annotation truth_value fuel m) = false.
Proof.
  revert m; induction fuel as [|fuel IH]; intros m; simpl; [done|].
  pose proof (fold_iteration_no_UnfoldableNode m) as Hit.
  destruct (fold_iteration _ _ _ _ m) as [[m1 total]|e]; [|done].
  by destruct (total =? 0)%nat.
Qed.

Lemma fold_no_UnfoldableNode fuel m :
  fold_raises_UnfoldableNode
    (fold evaluate DISPATCH_TABLE get_type_from_annotation truth_value fuel m) = false.
Proof.
  unfold fold. pose proof (replace_builtin_constants_no_UnfoldableNode m).
  destruct (replace_builtin_constants m); [apply fold_while_no_UnfoldableNode|done].
Qed.

End exceptions.

Lemma example_evaluate_ok : evaluate_contract example_evaluate.
Proof.
  intros n n'. destruct n; try done; simpl.
  - destruct (int_value n1), (int_value n2); try done.
    destruct (op =? "Add")%string; [|done]. intros [= <-]. by left.
  - destruct n1; try done. destruct n2; try done.
    destruct (int_value n2) as [i|]; [|done]. destruct (i <? 0)%Z; [done|].
    destruct (elements !! Z.to_nat i) as [e|] eqn:He; [|done]. intros [= <-]. right.
    exists a, elements, a0, (Index a1 n2), e, (attrs e).
    split_and!; [done|by eapply list_elem_of_lookup_2|by rewrite set_attrs_attrs].
Qed.

Lemma example_dispatch_ok : dispatch_contract example_DISPATCH_TABLE.
Proof.
  intros name func fe n n' Hf Hm He. unfold example_DISPATCH_TABLE in Hf.
  apply lookup_insert_Some in Hf as [[<- <-]|[_ Hf]].
  - injection Hm as <-. destruct n; try done. simpl in He.
    destruct args as [|x [|y [|? ?]]]; try done. destruct keywords; try done.
    destruct (int_value x), (int_value y); try done. by injection He as <-.
  - apply lookup_singleton_Some in Hf as [<- <-]. done.
Qed.


(** * The fold driver *)

(** C1. On every module, [fold] returns [m'] exactly when builtin constant
    substitution, run once, succeeds and is followed by groups of the four
    passes (user-defined constant substitution, literal operator evaluation,
    subscript evaluation, builtin call evaluation, in that order, their
    counts summed) of which every group but the last has a nonzero sum and
    the last has sum zero; the turns of the loop are the groups. *)
Theorem fold_runs_groups_until_unchanged
    evaluate DISPATCH_TABLE get_type_from_annotation truth_value fuel m m' :
  fold evaluate DISPATCH_TABLE get_type_from_annotation truth_value fuel m = Some (Ok m')
  <-> exists groups,
        groups <= fuel
        /\ fold_spec evaluate DISPATCH_TABLE get_type_from_annotation truth_value groups m m'.
Proof.
  unfold fold, fold_spec. destruct (replace_builtin_constants m) as [m0|e] eqn:Hb.
  - rewrite fold_while_Ok. split.
    + intros (groups & Hle & Hg). exists groups. split; [done|]. by exists m0.
    + intros (groups & Hle & m0' & [= <-] & Hg). by exists groups.
  - split; [done|]. by intros (groups & _ & m0 & ? & _).
Qed.

(** On the sample module the loop takes two turns: the first changes
    seven nodes, the second none. *)
Lemma fold_runs_groups_until_unchanged_witness :
  exists m', example_fold 2 example_module = Some (Ok m')
    /\ exists groups, groups <= 2
         /\ fold_spec example_evaluate example_DISPATCH_TABLE example_get_type example_truth
              groups example_module m'.
Proof.
  eexists. split; [vm_compute; reflexivity|].
  apply (proj1 (fold_runs_groups_until_unchanged example_evaluate example_DISPATCH_TABLE
                  example_get_type example_truth 2 example_module _)).
  vm_compute. reflexivity.
Defined.
(** * The substitution rules of [replace_constant] *)

(** C2. Whatever name [replace_constant] substitutes (builtin or
    user-defined), a reference used as the callee of a call is never replaced,
    a reference used as a key of a dictionary literal is never replaced, and a
    reference in the target of the enclosing plain, annotated or augmented
    assignment is never replaced unless it lies below an Index node; a
    reference below an Index node of the target that is neither a callee nor a
    dictionary key is replaced by [_replace] of the replacement node, as is
    every reference in none of the excluded uses. *)
Theorem replace_constant_exclusion_rules
    m id_ replacement_node raise_on_error type_ m' changed_nodes p a :
  replace_constant m id_ replacement_node raise_on_error type_ = Ok (m', changed_nodes) ->
  p <> [] -> get m p = Some (Name a id_) ->
  (used_as_call_target m p -> get m' p = Some (Name a id_))
  /\ (used_as_dict_key m p -> get m' p = Some (Name a id_))
  /\ (in_assignment_target m p -> ~ inside_Index m p -> get m' p = Some (Name a id_))
  /\ (in_assignment_target m p -> inside_Index m p ->
      ~ used_as_call_target m p -> ~ used_as_dict_key m p ->
      forall new r,
        deref m replacement_node = Some new ->
        _replace (Name a id_) new type_ = Ok r -> get m' p = Some r)
  /\ (~ not_substitutable m p ->
      forall new r,
        deref m replacement_node = Some new ->
        _replace (Name a id_) new type_ = Ok r -> get m' p = Some r).
Proof.
  intros Hrc Hne Hp.
  pose proof (replace_constant_keeps _ _ _ _ _ _ _ _ _ Hrc Hne Hp) as Hyes.
  pose proof (fun H new r => replace_constant_substitutes _ _ _ _ _ _ _ _ _ new r Hrc Hne Hp H)
    as Hno.
  split_and!.
  - intros H. apply Hyes. by left.
  - intros H. apply Hyes. right; by left.
  - intros H1 H2. apply Hyes. right; by right.
  - intros H1 H2 H3 H4. apply Hno. intros [?|[?|[_ ?]]]; done.
  - done.
Qed.

(** The rules on the sample module, for its constant [x]: the callee of
    [x(7)], the key of [{x: 1}] and the [x] of [x[0] = 2] stay, the index of
    [arr[x] = ...] and the operand of [y = x + 1] become [5]. *)
Lemma replace_constant_exclusion_rules_witness :
  exists m',
    replace_constant example_module "x" (in_tree [0; 2]) false None = Ok (m', 3)
    /\ get m' [1; 0; 0] = Some (Name (at_ 2 0) "x")
    /\ get m' [2; 0; 0] = Some (Name (at_ 3 1) "x")
    /\ get m' [3; 0; 0] = Some (Name (at_ 4 0) "x")
    /\ get m' [5; 0; 1; 0] = Some (Constant (at_ 6 4) Int (py_int 5))
    /\ get m' [4; 1; 0] = Some (Constant (at_ 5 4) Int (py_int 5)).
Proof.
  eexists. split; [vm_compute; reflexivity|].
  lazymatch goal with
  | |- get ?m' _ = _ /\ _ =>
      assert (replace_constant example_module "x" (in_tree [0; 2]) false None = Ok (m', 3))
        as Hrc by (vm_compute; reflexivity)
  end.
  pose proof (fun p a (Hne : p <> []) Hp =>
                replace_constant_exclusion_rules example_module "x" (in_tree [0; 2])
                  false None _ 3 p a Hrc Hne Hp) as rules.
  split_and!.
  - destruct (rules [1; 0; 0] (at_ 2 0)) as (rule & _); [done..|].
    apply rule. by exists [(cModule, f_body); (cOther, f_children)].
  - destruct (rules [2; 0; 0] (at_ 3 1)) as (_ & rule & _); [done..|].
    apply rule. by exists [(cModule, f_body); (cOther, f_children)].
  - destruct (rules [3; 0; 0] (at_ 4 0)) as (_ & _ & rule & _); [done..|].
    apply rule.
    + exists [(cModule, f_body)], cAssign, [(cSubscript, f_value)].
      split; [reflexivity|]. split; [by left|].
      repeat constructor. simpl. by intros [?|[?|[?|?%elem_of_nil]%elem_of_cons]%elem_of_cons]%elem_of_cons.
    + intros (s1 & f & s2 & Hs). vm_compute in Hs. injection Hs as Hs.
      by repeat (destruct s1 as [|? s1]; simplify_eq/=).
  - destruct (rules [5; 0; 1; 0] (at_ 6 4)) as (_ & _ & _ & rule & _); [done..|].
    apply (rule) with (new := Constant (at_ 1 22) Int (py_int 5)); [| | | |done..].
    + exists [(cModule, f_body)], cAssign, [(cSubscript, f_slice); (cIndex, f_value)].
      split; [reflexivity|]. split; [by left|].
      repeat constructor; simpl;
        by intros [?|[?|[?|?%elem_of_nil]%elem_of_cons]%elem_of_cons]%elem_of_cons.
    + by exists [(cModule, f_body); (cAssign, f_target); (cSubscript, f_slice)], f_value, [].
    + intros [s Hs]. vm_compute in Hs. injection Hs as Hs.
      by repeat (destruct s as [|? s]; simplify_eq/=).
    + intros [s Hs]. vm_compute in Hs. injection Hs as Hs.
      by repeat (destruct s as [|? s]; simplify_eq/=).
  - destruct (rules [4; 1; 0] (at_ 5 4)) as (_ & _ & _ & _ & rule); [done..|].
    apply (rule) with (new := Constant (at_ 1 22) Int (py_int 5)); [|done..].
    intros H. eapply (spine_skips_spec example_module [4; 1; 0]) in H; [|reflexivity].
    by vm_compute in H.
Defined.
(** * Builtin constants *)

(** C3, as the code has it. [replace_builtin_constants] never raises. Every
    reference to a builtin constant in a value position (not the callee of a
    call, not a dictionary key, not in an assignment target outside an Index)
    is replaced by the literal of the table at the position of the
    reference; a reference in one of the excluded uses, a callee included, is
    silently kept. *)
Theorem builtin_constants_substituted m :
  exists m',
    replace_builtin_constants m = Ok m'
    /\ forall name cls value p a,
         (name, (cls, value)) ∈ BUILTIN_CONSTANTS -> p <> [] ->
         get m p = Some (Name a name) ->
         (~ not_substitutable m p ->
          get m' p = Some (Constant {| src := src a; _metadata := None |} cls value))
         /\ (not_substitutable m p -> get m' p = Some (Name a name)).
Proof.
  destruct (builtin_loop BUILTIN_CONSTANTS m BUILTIN_CONSTANTS_NoDup) as (m' & Hloop & _ & Hrefs).
  exists m'. split; [done|]. intros name cls value p a Hin Hne Hp.
  assert (is_Some (spine m p)) as [s Hs] by (apply spine_is_Some; eauto).
  destruct (Hrefs name cls value p a s Hin Hne Hp Hs) as [_ Hp'].
  pose proof (spine_skips_spec _ _ _ Hs) as Hspec.
  destruct (spine_skips s); split; intros H; try done.
  - destruct H. by apply Hspec.
  - by apply Hspec in H.
Qed.

(** On the sample module, the argument [MAX_INT128] of [max(x, MAX_INT128)]
    becomes the literal [2 ** 127 - 1], and the callee [MAX_UINT256] of
    [MAX_UINT256(7)] stays. *)
Lemma builtin_constants_substituted_witness :
  exists m',
    replace_builtin_constants example_module = Ok m'
    /\ get m' [5; 1; 2] = Some (Constant (at_ 6 16) Int (py_int (2 ^ 127 - 1)))
    /\ get m' [8; 0; 0] = Some (Name (at_ 9 0) "MAX_UINT256").
Proof.
  destruct (builtin_constants_substituted example_module) as (m' & Hm' & Hrefs).
  exists m'. split; [done|]. split.
  - destruct (Hrefs "MAX_INT128" Int (py_int (2 ^ 127 - 1)) [5; 1; 2] (at_ 6 16)) as [H _];
      [|done|reflexivity|].
    { do 2 right. by left. }
    apply H. intros Hn. eapply (spine_skips_spec example_module [5; 1; 2]) in Hn; [|reflexivity].
    by vm_compute in Hn.
  - destruct (Hrefs "MAX_UINT256" Int (py_int (2 ^ 256 - 1)) [8; 0; 0] (at_ 9 0)) as [_ H];
      [|done|reflexivity|].
    { do 6 right. by left. }
    apply H. left. by exists [(cModule, f_body); (cOther, f_children)].
Defined.

(** C3 as stated fails: [MAX_UINT256(7)] is folded without any exception and
    the callee is left in place. *)
Lemma builtin_constant_callee_is_skipped :
  used_as_call_target call_of_builtin_constant [0; 0; 0]
  /\ get call_of_builtin_constant [0; 0; 0] = Some (Name (at_ 1 0) "MAX_UINT256")
  /\ replace_builtin_constants call_of_builtin_constant = Ok call_of_builtin_constant
  /\ example_fold 1 call_of_builtin_constant = Some (Ok call_of_builtin_constant).
Proof.
  split_and!.
  - by exists [(cModule, f_body); (cOther, f_children)].
  - reflexivity.
  - vm_compute. reflexivity.
  - vm_compute. reflexivity.
Qed.
(** C4. When the evaluation methods keep their contracts, every pass lowers
    the number of nodes that are not literals by at least the number of
    replacements it counts (so a replacement strictly lowers it and no pass
    raises it), and [fold] ends: the loop returns within as many turns as the
    module has such nodes, plus one. *)
Theorem fold_terminates
    evaluate DISPATCH_TABLE get_type_from_annotation truth_value :
  evaluate_contract evaluate -> dispatch_contract DISPATCH_TABLE ->
  forall m,
    (forall m', replace_builtin_constants m = Ok m' -> unfolded_count m' <= unfolded_count m)
    /\ (forall m' c,
          replace_user_defined_constants get_type_from_annotation truth_value m = Ok (m', c) ->
          unfolded_count m' + c <= unfolded_count m)
    /\ (forall m' c,
          replace_literal_ops evaluate m = Ok (m', c) ->
          unfolded_count m' + c <= unfolded_count m)
    /\ (forall m' c,
          replace_subscripts evaluate m = Ok (m', c) ->
          unfolded_count m' + c <= unfolded_count m)
    /\ (forall m' c,
          replace_builtin_functions DISPATCH_TABLE m = Ok (m', c) ->
          unfolded_count m' + c <= unfolded_count m)
    /\ exists r,
         fold evaluate DISPATCH_TABLE get_type_from_annotation truth_value
              (S (unfolded_count m)) m = Some r.
Proof.
  intros He Hd m. split_and!.
  - intros m' [k Hk]%replace_builtin_constants_rewrites.
    apply (rewrites_mono _ folds_to), rewrites_measure in Hk; [lia|].
    apply name_to_literal_folds.
  - intros m' c Hk%replace_user_defined_constants_rewrites.
    apply (rewrites_mono _ folds_to), rewrites_measure in Hk; [lia|].
    apply name_to_literal_folds.
  - intros m' c Hk%replace_literal_ops_rewrites.
    apply (rewrites_mono _ folds_to), rewrites_measure in Hk; [lia|].
    intros old new [Hc Hev]. destruct (He _ _ Hev) as [Hlit|Hsel]; [left|by right].
    split; [|done].
    by repeat (apply elem_of_cons in Hc as [->|Hc]; [done|]); apply elem_of_nil in Hc.
  - intros m' c Hk%replace_subscripts_rewrites.
    apply (rewrites_mono _ folds_to), rewrites_measure in Hk; [lia|].
    intros old new [Hc Hev]. destruct (He _ _ Hev) as [Hlit|Hsel]; [left|by right].
    by rewrite Hc.
  - intros m' c Hk%replace_builtin_functions_rewrites.
    apply (rewrites_mono _ folds_to), rewrites_measure in Hk; [lia|].
    intros old new (a & fa & name & args & keywords & func & fe & -> & Hf & Hm & Hev).
    left. split; [done|]. by eapply Hd.
  - unfold fold. destruct (replace_builtin_constants m) as [m0|e] eqn:Hb; [|eauto].
    apply fold_while_terminates; [done..|].
    apply replace_builtin_constants_rewrites in Hb as [k Hk].
    apply (rewrites_mono _ folds_to), rewrites_measure in Hk; [lia|].
    apply name_to_literal_folds.
Qed.

(** With the sample collaborators, which keep the contracts, [fold] ends on
    the sample module. *)
Lemma fold_terminates_witness :
  exists r, example_fold (S (unfolded_count example_module)) example_module = Some r.
Proof.
  exact (proj2 (proj2 (proj2 (proj2 (proj2
           (fold_terminates example_evaluate example_DISPATCH_TABLE example_get_type
              example_truth example_evaluate_ok example_dispatch_ok example_module)))))).
Defined.
(** C5. When the evaluation methods keep their contracts and [fold] has
    returned [m'], a second [fold] of [m'] replaces nothing: builtin
    constant substitution and each of the four passes of the first turn
    return [m'] itself, the passes with count zero, and the loop ends in
    that turn. *)
Theorem fold_idempotent
    evaluate DISPATCH_TABLE get_type_from_annotation truth_value fuel m m' :
  evaluate_contract evaluate -> dispatch_contract DISPATCH_TABLE ->
  fold evaluate DISPATCH_TABLE get_type_from_annotation truth_value fuel m = Some (Ok m') ->
  replace_builtin_constants m' = Ok m'
  /\ replace_user_defined_constants get_type_from_annotation truth_value m' = Ok (m', 0)
  /\ replace_literal_ops evaluate m' = Ok (m', 0)
  /\ replace_subscripts evaluate m' = Ok (m', 0)
  /\ replace_builtin_functions DISPATCH_TABLE m' = Ok (m', 0)
  /\ forall fuel',
       fold evaluate DISPATCH_TABLE get_type_from_annotation truth_value (S fuel') m'
       = Some (Ok m').
Proof.
  intros He Hd Hfold. unfold fold in Hfold.
  destruct (replace_builtin_constants m) as [m0|e] eqn:Hb; [|done].
  assert (Hset : builtin_references_settled m').
  { apply replace_builtin_constants_settles in Hb.
    apply fold_while_Ok in Hfold as (groups & _ & Hg).
    revert Hb. induction Hg as [m1 m2 Hp|groups m1 m2 m3 total Hp _ _ IH]; intros Hb.
    - apply fold_iteration_Ok, (fold_iteration_rewrites _ _ _ _ He Hd) in Hp.
      by eapply rewrites_settled.
    - apply IH. apply fold_iteration_Ok, (fold_iteration_rewrites _ _ _ _ He Hd) in Hp.
      by eapply rewrites_settled. }
  apply fold_while_fixed in Hfold as [m1 Hit].
  pose proof Hit as (m2 & c1 & m3 & c2 & m4 & c3 & c4 & H1 & H2 & H3 & H4 & Hsum)%fold_iteration_Ok.
  assert (c1 = 0 /\ c2 = 0 /\ c3 = 0 /\ c4 = 0) as (-> & -> & -> & ->) by lia.
  pose proof (rewrites_zero _ _ _ (replace_user_defined_constants_rewrites _ _ _ _ _ H1)) as ->.
  pose proof (rewrites_zero _ _ _ (replace_literal_ops_rewrites _ _ _ _ H2)) as ->.
  pose proof (rewrites_zero _ _ _ (replace_subscripts_rewrites _ _ _ _ H3)) as ->.
  pose proof (rewrites_zero _ _ _ (replace_builtin_functions_rewrites _ _ _ _ H4)) as ->.
  pose proof (settled_replace_builtin_constants _ Hset) as Hb'.
  split_and!; try done.
  intros fuel'. unfold fold. rewrite Hb'. simpl. by rewrite Hit.
Qed.

(** The sample module, folded twice. *)
Lemma fold_idempotent_witness :
  exists m',
    example_fold 2 example_module = Some (Ok m')
    /\ replace_builtin_constants m' = Ok m'
    /\ example_fold 1 m' = Some (Ok m').
Proof.
  eexists. split; [vm_compute; reflexivity|].
  lazymatch goal with
  | |- replace_builtin_constants ?m' = _ /\ _ =>
      assert (example_fold 2 example_module = Some (Ok m')) as Hfolded
        by (vm_compute; reflexivity)
  end.
  pose proof (fold_idempotent example_evaluate example_DISPATCH_TABLE example_get_type
                example_truth 2 example_module _ example_evaluate_ok example_dispatch_ok
                Hfolded) as (Hb & _ & _ & _ & _ & Hfold).
  split; [exact Hb|exact (Hfold 0)].
Defined.
(** * Exceptions *)

(** C6. [fold] never ends with UnfoldableNode, and neither does any pass of
    its loop nor a name substitution with [raise_on_error] false.  In each of
    these passes a node whose evaluation (or replacement) raises
    UnfoldableNode is skipped: the loop goes on with the remaining nodes, the
    tree and the count as they were. *)
Theorem UnfoldableNode_never_propagates
    evaluate DISPATCH_TABLE get_type_from_annotation truth_value :
  (forall fuel m,
     fold_raises_UnfoldableNode
       (fold evaluate DISPATCH_TABLE get_type_from_annotation truth_value fuel m) = false)
  /\ (forall m,
        raises_UnfoldableNode (replace_literal_ops evaluate m) = false
        /\ raises_UnfoldableNode (replace_subscripts evaluate m) = false
        /\ raises_UnfoldableNode (replace_builtin_functions DISPATCH_TABLE m) = false
        /\ raises_UnfoldableNode
             (replace_user_defined_constants get_type_from_annotation truth_value m) = false
        /\ forall id_ replacement_node type_,
             raises_UnfoldableNode (replace_constant m id_ replacement_node false type_) = false)
  /\ (forall p rest m c node,
        get m p = Some node ->
        (evaluate node = Raise UnfoldableNode ->
         for_in (p :: rest) (replace_literal_ops_body evaluate) (m, c)
         = for_in rest (replace_literal_ops_body evaluate) (m, c)
         /\ for_in (p :: rest) (replace_subscripts_body evaluate) (m, c)
            = for_in rest (replace_subscripts_body evaluate) (m, c))
        /\ (forall a fa name args keywords func func_evaluate,
              node = Call a (Name fa name) args keywords ->
              DISPATCH_TABLE !! name = Some func ->
              evaluate_method func = Some func_evaluate ->
              func_evaluate node = Raise UnfoldableNode ->
              for_in (p :: rest) (replace_builtin_functions_body DISPATCH_TABLE) (m, c)
              = for_in rest (replace_builtin_functions_body DISPATCH_TABLE) (m, c))
        /\ (forall id_ replacement_node type_,
              match deref m replacement_node with
              | Some new => _replace node new type_ = Raise UnfoldableNode
              | None => True
              end ->
              for_in (p :: rest) (replace_constant_body id_ replacement_node false type_) (m, c)
              = for_in rest (replace_constant_body id_ replacement_node false type_) (m, c))).
Proof.
  split_and!.
  - apply fold_no_UnfoldableNode.
  - intros m. split_and!.
    + apply for_in_no_UnfoldableNode, replace_literal_ops_body_no_UnfoldableNode.
    + apply for_in_no_UnfoldableNode, replace_literal_ops_body_no_UnfoldableNode.
    + apply for_in_no_UnfoldableNode, replace_builtin_functions_body_no_UnfoldableNode.
    + apply for_in_no_UnfoldableNode, replace_user_defined_constants_body_no_UnfoldableNode.
    + intros. apply replace_constant_no_UnfoldableNode.
  - intros p rest m c node Hnode. split_and!.
    + intros He. rewrite !for_in_cons.
      unfold replace_literal_ops_body at 1, replace_subscripts_body at 1, node_at.
      by rewrite Hnode; cbn [bind]; rewrite He.
    + intros a fa name args keywords func fe -> Hf Hm He. rewrite for_in_cons.
      unfold replace_builtin_functions_body at 1, node_at. rewrite Hnode. cbn [bind].
      by rewrite Hf, Hm, He.
    + intros id_ repl type_ Hrep. rewrite for_in_cons.
      unfold replace_constant_body at 1, node_at.
      destruct (is_call_func m p); [done|]. destruct (is_dict_key m p); [done|].
      destruct (is_assignment_target m p); [done|]. rewrite Hnode. cbn [bind].
      destruct (deref m repl); [by rewrite Hrep|done].
Qed.

(** On the sample module: [x(7)] is a call of a name that is not in the
    dispatch table and [max(x, MAX_INT128)] cannot be evaluated before its
    arguments are literals; both are skipped and [fold] returns. *)
Lemma UnfoldableNode_never_propagates_witness :
  fold_raises_UnfoldableNode (example_fold 2 example_module) = false
  /\ for_in [[5; 1]; [1; 0]] (replace_builtin_functions_body example_DISPATCH_TABLE)
            (example_module, 0)
     = for_in [[1; 0]] (replace_builtin_functions_body example_DISPATCH_TABLE)
              (example_module, 0).
Proof.
  destruct (UnfoldableNode_never_propagates example_evaluate example_DISPATCH_TABLE
              example_get_type example_truth) as (Hfold & _ & Hskip).
  split; [apply Hfold|].
  destruct (Hskip [5; 1] [[1; 0]] example_module 0 _ eq_refl) as (_ & Hcall & _).
  eapply Hcall; reflexivity.
Defined.
(** C7. A node substituted for a reference to a constant has the source
    position of the reference it replaces and the resolved type descriptor
    (when there is one) in the type slot of its metadata; when the value of
    the constant is a list literal, the substituted node is a list with the
    full descriptor whose elements are the substitutions of the elements of
    the value with the descriptor's [value_type], and so on at every depth. *)
Theorem substituted_node_provenance
    m id_ replacement_node raise_on_error type_ m' changed_nodes p a new r :
  replace_constant m id_ replacement_node raise_on_error type_ = Ok (m', changed_nodes) ->
  p <> [] -> get m p = Some (Name a id_) -> ~ not_substitutable m p ->
  deref m replacement_node = Some new ->
  _replace (Name a id_) new type_ = Ok r ->
  get m' p = Some r
  /\ src (attrs r) = src a
  /\ _metadata (attrs r) = type_
  /\ (forall elements a',
        new = List a' elements ->
        exists list_values,
          r = List {| src := src a; _metadata := type_ |} list_values
          /\ Forall2 (fun i v => _replace (Name a id_) i (element_type type_) = Ok v)
                     elements list_values
          /\ (forall t, type_ = Some t -> is_Some (element_type type_)))
  /\ (forall q x, get r q = Some x ->
        src (attrs x) = src a
        /\ _metadata (attrs x) = nested_element_type (length q) type_).
Proof.
  intros Hrc Hne Hp Hsub Hd Hrep.
  pose proof (replace_constant_substitutes _ _ _ _ _ _ _ _ _ _ _ Hrc Hne Hp Hsub Hd Hrep) as Hr.
  pose proof (_replace_stamp _ _ _ _ [] r Hrep eq_refl) as [Hsrc Hmeta].
  split_and!; try done.
  - intros elements a' ->.
    destruct (_replace_List_inv _ _ _ _ _ Hrep) as (list_values & -> & Hl & Ht).
    exists list_values. split_and!; try done. intros t Heq. by apply (Ht t).
  - intros q x Hx. apply (_replace_stamp _ _ _ _ _ _ Hrep Hx).
Qed.

(** On the sample module, the reference [ARR] of [z = ARR[1]] becomes the
    list [[1, 2, 3]] at the position of the reference, typed with the array
    type, its elements typed with the element type. *)
Lemma substituted_node_provenance_witness :
  let int128 := TypeDefinition "int128" None in
  let array := TypeDefinition "array" (Some int128) in
  let stamp t := {| src := src (at_ 8 4); _metadata := Some t |} in
  exists m',
    replace_constant example_module "ARR" (in_tree [6; 2]) false (Some array) = Ok (m', 1)
    /\ get m' [7; 1; 0] =
       Some (List (stamp array)
               [Constant (stamp int128) Int (py_int 1); Constant (stamp int128) Int (py_int 2);
                Constant (stamp int128) Int (py_int 3)]).
Proof.
  intros int128 array stamp.
  eexists. split; [vm_compute; reflexivity|].
  lazymatch goal with
  | |- get ?m' _ = _ =>
      assert (replace_constant example_module "ARR" (in_tree [6; 2]) false (Some array)
              = Ok (m', 1)) as Hrc by (vm_compute; reflexivity)
  end.
  refine (proj1 (substituted_node_provenance example_module "ARR" (in_tree [6; 2]) false
                   (Some array) _ 1 [7; 1; 0] (at_ 8 4) _ _ Hrc _ eq_refl _ eq_refl eq_refl)).
  - done.
  - intros H. eapply (spine_skips_spec example_module [7; 1; 0]) in H; [|reflexivity].
    by vm_compute in H.
Defined.
(** * Constant declarations *)

(** C9. When [replace_user_defined_constants] comes to a module-level
    AnnAssign whose target is a Name and whose annotation is
    [constant(<type-expr>)], it substitutes the declared name with the type
    the resolver returns for the annotation argument (with no type when the
    argument is false).  When the resolver fails its exception is not caught:
    it ends the pass, the turn of the loop and [fold]. *)
Theorem constant_type_resolution
    evaluate DISPATCH_TABLE get_type_from_annotation truth_value :
  let body := replace_user_defined_constants_body get_type_from_annotation truth_value in
  forall m declarations p rest mc c a ta target_id ca fa constant_annotation args keywords value,
    get_children m [] (fun n => isinstance n [cAnnAssign]) = declarations ++ p :: rest ->
    for_in declarations body (m, 0) = Ok (mc, c) ->
    get mc p = Some (AnnAssign a (Name ta target_id)
                       (Call ca (Name fa "constant") (constant_annotation :: args) keywords)
                       value) ->
    (forall t,
       truth_value constant_annotation = true ->
       get_type_from_annotation constant_annotation UNSET = inl t ->
       body p (mc, c) =
       (r <- replace_constant mc target_id (in_tree (p ++ [2])) false (Some t) ;;
        Ok (fst r, c + snd r)))
    /\ (truth_value constant_annotation = false ->
        body p (mc, c) =
        (r <- replace_constant mc target_id (in_tree (p ++ [2])) false None ;;
         Ok (fst r, c + snd r)))
    /\ (forall msg,
          truth_value constant_annotation = true ->
          get_type_from_annotation constant_annotation UNSET = inr msg ->
          replace_user_defined_constants get_type_from_annotation truth_value m
          = Raise (TypeResolutionError msg)
          /\ fold_iteration evaluate DISPATCH_TABLE get_type_from_annotation truth_value m
             = Raise (TypeResolutionError msg)
          /\ (forall fuel,
                fold_while evaluate DISPATCH_TABLE get_type_from_annotation truth_value
                  (S fuel) m = Some (Raise (TypeResolutionError msg)))
          /\ (forall fuel module,
                replace_builtin_constants module = Ok m ->
                fold evaluate DISPATCH_TABLE get_type_from_annotation truth_value
                  (S fuel) module = Some (Raise (TypeResolutionError msg)))).
Proof.
  intros body m declarations p rest mc c a ta target_id ca fa constant_annotation args
    keywords value Hdecl Hloop Hp.
  pose proof (replace_user_defined_constants_body_declaration get_type_from_annotation
                truth_value p mc c a ta target_id ca fa constant_annotation args keywords
                value Hp) as Hbody.
  fold body in Hbody. split_and!.
  - intros t Htrue Ht. by rewrite Hbody, Htrue, Ht.
  - intros Hfalse. by rewrite Hbody, Hfalse.
  - intros msg Htrue Hmsg.
    assert (replace_user_defined_constants get_type_from_annotation truth_value m
            = Raise (TypeResolutionError msg)) as Hpass.
    { unfold replace_user_defined_constants. rewrite Hdecl.
      eapply for_in_Raise; [exact Hloop|]. fold body. by rewrite Hbody, Htrue, Hmsg. }
    assert (fold_iteration evaluate DISPATCH_TABLE get_type_from_annotation truth_value m
            = Raise (TypeResolutionError msg)) as Hturn.
    { unfold fold_iteration. by rewrite Hpass. }
    split_and!; try done.
    + intros fuel. simpl. by rewrite Hturn.
    + intros fuel module Hb. unfold fold. rewrite Hb. simpl. by rewrite Hturn.
Qed.

(** [bad: constant(uint7) = 1]: the sample resolver does not know [uint7]
    and [fold] ends with its exception. *)
Lemma constant_type_resolution_witness :
  example_fold 1 unresolvable_declaration = Some (Raise (TypeResolutionError "UnknownType")).
Proof.
  refine (proj2 (proj2 (proj2 (proj2 (proj2
            (constant_type_resolution example_evaluate example_DISPATCH_TABLE example_get_type
               example_truth unresolvable_declaration [] [0] [] unresolvable_declaration 0
               _ _ _ _ _ _ _ _ _ eq_refl eq_refl eq_refl)) "UnknownType" eq_refl eq_refl)))
            0 unresolvable_declaration eq_refl).
Defined.
(** * Address literals *)

(** C10. Given that [BasePrimitive.from_literal] accepts Hex literals for
    the address primitive, [from_literal] on a Hex literal with the string
    [addr] returns an AddressDefinition exactly when [addr] has 42 characters
    and is its own checksum encoding; it raises InvalidLiteral when [addr]
    does not have 42 characters, and CompilerPanic when it has 42 and its
    checksum encoding is another string. *)
Theorem address_from_literal checksum_encode BasePrimitive_from_literal a addr :
  (forall a value,
     exists t, BasePrimitive_from_literal _valid_literal AddressDefinition
                 (Constant a Hex value) = Ok t) ->
  let from_literal := from_literal checksum_encode BasePrimitive_from_literal in
  let node := Constant a Hex (py_str addr) in
  (from_literal node = Ok AddressDefinition
   <-> String.length addr = 42 /\ checksum_encode addr = Ok addr)
  /\ (forall t, from_literal node = Ok t -> t = AddressDefinition)
  /\ (String.length addr <> 42 ->
      from_literal node = Raise (InvalidLiteral "Invalid literal for type 'address'"))
  /\ (forall encoded,
        String.length addr = 42 -> checksum_encode addr = Ok encoded -> encoded <> addr ->
        from_literal node = Raise (CompilerPanic "Address checksum mismatch")).
Proof.
  intros Hsuper from_literal' node. unfold from_literal', from_literal, node.
  destruct (Hsuper a (py_str addr)) as [t ->]. cbn [bind].
  destruct (Nat.eqb_spec (String.length addr) 42) as [Hlen|Hlen]; cbn [negb].
  - destruct (checksum_encode addr) as [encoded|e] eqn:Henc; cbn [bind].
    + destruct (String.eqb_spec encoded addr) as [->|Hne]; cbn [negb].
      * split; [by split|]. split; [by intros t' [= <-]|]. split; [done|].
        intros encoded _ [= <-] Hne. by destruct Hne.
      * split; [split; [done|intros [_ [= ->]]; by destruct Hne]|].
        split; [done|]. split; [done|]. done.
    + split; [split; [done|by intros [_ ?]]|]. split; [done|]. split; [done|]. done.
  - split; [split; [done|by intros [? _]]|]. split; [done|]. split; [done|].
    intros encoded ? _ _. done.
Qed.

(** With the sample checksum: the zero address is its own encoding; an
    address with lower-case letters has 42 characters and another encoding;
    [0x12] is too short. *)
Lemma address_from_literal_witness :
  let from_literal := from_literal example_checksum_encode example_BasePrimitive_from_literal in
  from_literal (Constant (at_ 1 0) Hex (py_str "0x0000000000000000000000000000000000000000"))
  = Ok AddressDefinition
  /\ from_literal (Constant (at_ 1 0) Hex (py_str "0x12"))
     = Raise (InvalidLiteral "Invalid literal for type 'address'")
  /\ from_literal (Constant (at_ 1 0) Hex (py_str "0x00000000000000000000000000000000000000ab"))
     = Raise (CompilerPanic "Address checksum mismatch").
Proof.
  intros from_literal'.
  assert (Hsuper : forall a value,
    exists t, example_BasePrimitive_from_literal _valid_literal AddressDefinition
                (Constant a Hex value) = Ok t) by (intros; by eexists).
  split_and!.
  - apply (address_from_literal example_checksum_encode example_BasePrimitive_from_literal
             (at_ 1 0) "0x0000000000000000000000000000000000000000" Hsuper). by split.
  - apply (address_from_literal example_checksum_encode example_BasePrimitive_from_literal
             (at_ 1 0) "0x12" Hsuper). by simpl.
  - apply (address_from_literal example_checksum_encode example_BasePrimitive_from_literal
             (at_ 1 0) "0x00000000000000000000000000000000000000ab" Hsuper)
      with (encoded := "0x00000000000000000000000000000000000000AB"); done.
Defined.

(** * What the passes keep *)

Lemma put_root m p new m1 :
  p <> [] -> put m p new = Some m1 ->
  class_of m1 = class_of m /\ attrs m1 = attrs m
  /\ length (children m1) = length (children m).
Proof.
  intros Hp Hput.
  destruct (get_put_head m p new m1 [] m Hput) as (cs & Hlen & Hget); [|done|].
  { intros Hpre. by apply prefix_nil_inv in Hpre. }
  injection Hget as ->.
  rewrite class_of_with_children, attrs_with_children, children_with_children by done.
  done.
Qed.

Lemma rewrites_root R k m m' :
  rewrites R k m m' ->
  class_of m' = class_of m /\ attrs m' = attrs m
  /\ length (children m') = length (children m).
Proof.
  induction 1 as [|k m p old new m1 m' Hp _ _ Hput _ (IH1 & IH2 & IH3)]; [done|].
  destruct (put_root m p new m1 Hp Hput) as (H1 & H2 & H3).
  by rewrite IH1, IH2, IH3.
Qed.

Lemma pass_group_root evaluate DISPATCH_TABLE get_type_from_annotation truth_value m m' total :
  pass_group evaluate DISPATCH_TABLE get_type_from_annotation truth_value m m' total ->
  class_of m' = class_of m /\ attrs m' = attrs m
  /\ length (children m') = length (children m).
Proof.
  intros (m1 & c1 & m2 & c2 & m3 & c3 & c4 & H1 & H2 & H3 & H4 & _).
  apply replace_user_defined_constants_rewrites, rewrites_root in H1 as (A1 & B1 & C1).
  apply replace_literal_ops_rewrites, rewrites_root in H2 as (A2 & B2 & C2).
  apply replace_subscripts_rewrites, rewrites_root in H3 as (A3 & B3 & C3).
  apply replace_builtin_functions_rewrites, rewrites_root in H4 as (A4 & B4 & C4).
  by rewrite A4, A3, A2, A1, B4, B3, B2, B1, C4, C3, C2, C1.
Qed.

(** X1. [fold] gives back the module it was given: the root keeps its
    class, its attributes and the number of its statements; no statement is
    added or removed, whatever the evaluators do. *)
Theorem fold_keeps_the_statements
    evaluate DISPATCH_TABLE get_type_from_annotation truth_value fuel m m' :
  fold evaluate DISPATCH_TABLE get_type_from_annotation truth_value fuel m = Some (Ok m') ->
  class_of m' = class_of m /\ attrs m' = attrs m
  /\ length (children m') = length (children m).
Proof.
  unfold fold. destruct (replace_builtin_constants m) as [m0|e] eqn:Hb; [|done].
  apply replace_builtin_constants_rewrites in Hb as [k Hk].
  apply rewrites_root in Hk as (A0 & B0 & C0).
  intros (groups & _ & Hg)%fold_while_Ok. rewrite <- A0, <- B0, <- C0. clear -Hg.
  induction Hg as [m m' Hlast|groups m m1 m' total Hfirst _ _ (A & B & C)].
  - by eapply pass_group_root.
  - apply pass_group_root in Hfirst as (A1 & B1 & C1). by rewrite A, B, C.
Qed.

Lemma fold_keeps_the_statements_witness :
  exists m', example_fold 2 example_module = Some (Ok m')
    /\ class_of m' = cModule /\ attrs m' = at_ 0 0 /\ length (children m') = 9.
Proof.
  eexists. split; [vm_compute; reflexivity|].
  lazymatch goal with
  | |- class_of ?m' = _ /\ _ =>
      assert (example_fold 2 example_module = Some (Ok m')) as Hfolded
        by (vm_compute; reflexivity)
  end.
  pose proof (fold_keeps_the_statements example_evaluate example_DISPATCH_TABLE
                example_get_type example_truth 2 example_module _ Hfolded)
    as (Hclass & Hattrs & Hlength).
  split; [exact Hclass|]. split; [exact Hattrs|exact Hlength].
Defined.

(** * Passes that count nothing *)

Lemma sweep_loop_unchanged matches R body l m c m' :
  (forall x cs, length cs = length (children x) -> matches (with_children x cs) = matches x) ->
  (forall p m c r old,
      get m p = Some old -> matches old = true -> body p (m, c) = Ok r ->
      r = (m, c) \/ exists new m', R old new /\ put m p new = Some m' /\ r = (m', c + 1)) ->
  pending matches m l ->
  for_in l body (m, c) = Ok (m', c) ->
  m' = m /\ forall p, p ∈ l -> body p (m, c) = Ok (m, c).
Proof.
  intros Hhead Hspec. induction l as [|p l IH]; intros Hpen Hfor.
  { injection Hfor as <-. split; [done|]. intros p Hp. by apply elem_of_nil in Hp. }
  rewrite for_in_cons in Hfor. destruct (body p (m, c)) as [r|e] eqn:Hbody; [|done].
  pose proof Hpen as (Hord & Hall). apply Forall_cons in Hall as ((_ & x & Hx & Hm) & Hall).
  destruct (Hspec _ _ _ _ _ Hx Hm Hbody) as [->|(new & m1 & _ & Hput & ->)].
  - destruct IH as (-> & IH); [|done|].
    { split; [apply Hord|done]. }
    split; [done|]. intros q [->|Hq]%elem_of_cons; [done|by apply IH].
  - pose proof (pending_put matches Hhead _ _ _ _ _ Hpen Hput) as Hpen1.
    destruct (sweep_loop matches R body Hhead Hspec _ _ _ _ _ Hpen1 Hfor) as (k & Hk & _).
    lia.
Qed.

Lemma evaluate_body_fixed evaluate p m c old :
  get m p = Some old ->
  replace_literal_ops_body evaluate p (m, c) = Ok (m, c) ->
  evaluate old = Raise UnfoldableNode.
Proof.
  intros Hold. unfold replace_literal_ops_body, node_at. rewrite Hold. cbn [bind].
  destruct (evaluate old) as [new|e].
  - intros (m' & _ & [= _ Hc])%bind_Ok. lia.
  - by destruct e.
Qed.

Lemma replace_literal_ops_fixed evaluate m m' :
  replace_literal_ops evaluate m = Ok (m', 0) ->
  m' = m
  /\ forall p n, p <> [] -> get m p = Some n ->
       class_of n ∈ [cBoolOp; cBinOp; cUnaryOp; cCompare] ->
       evaluate n = Raise UnfoldableNode.
Proof.
  intros Hpass.
  eapply (sweep_loop_unchanged (fun n => isinstance n [cBoolOp; cBinOp; cUnaryOp; cCompare]))
    in Hpass as (-> & Hall).
  - split; [done|]. intros p n Hp Hn Hcls. eapply evaluate_body_fixed; [done|].
    apply Hall, elem_of_get_descendants. split.
    + exists n. by rewrite isinstance_spec.
    + right. destruct p as [|i r]; [done|]. by exists i, r.
  - intros x cs _. apply isinstance_with_children.
  - intros p m0 c0 r old Hold _. by apply evaluate_body_spec.
  - apply pending_snapshot.
Qed.

Lemma replace_subscripts_fixed evaluate m m' :
  replace_subscripts evaluate m = Ok (m', 0) ->
  m' = m
  /\ forall p n, p <> [] -> get m p = Some n -> class_of n = cSubscript ->
       evaluate n = Raise UnfoldableNode.
Proof.
  intros Hpass.
  eapply (sweep_loop_unchanged (fun n => isinstance n [cSubscript]))
    in Hpass as (-> & Hall).
  - split; [done|]. intros p n Hp Hn Hcls.
    eapply (evaluate_body_fixed evaluate p m 0); [done|].
    apply Hall, elem_of_get_descendants. split.
    + exists n. split; [done|]. rewrite isinstance_spec, Hcls. set_solver.
    + right. destruct p as [|i r]; [done|]. by exists i, r.
  - intros x cs _. apply isinstance_with_children.
  - intros p m0 c0 r old Hold _. by apply evaluate_body_spec.
  - apply pending_snapshot.
Qed.

Lemma replace_builtin_functions_body_fixed DISPATCH_TABLE p m c a fa name args keywords func func_evaluate :
  get m p = Some (Call a (Name fa name) args keywords) ->
  DISPATCH_TABLE !! name = Some func ->
  evaluate_method func = Some func_evaluate ->
  replace_builtin_functions_body DISPATCH_TABLE p (m, c) = Ok (m, c) ->
  func_evaluate (Call a (Name fa name) args keywords) = Raise UnfoldableNode.
Proof.
  intros Hold Hfunc Hev. unfold replace_builtin_functions_body, node_at.
  rewrite Hold. cbn [bind]. rewrite Hfunc, Hev.
  destruct (func_evaluate _) as [new|e].
  - intros (m' & _ & [= _ Hc])%bind_Ok. lia.
  - by destruct e.
Qed.

Lemma replace_builtin_functions_fixed DISPATCH_TABLE m m' :
  replace_builtin_functions DISPATCH_TABLE m = Ok (m', 0) ->
  m' = m
  /\ forall p a fa name args keywords func func_evaluate,
       p <> [] -> get m p = Some (Call a (Name fa name) args keywords) ->
       DISPATCH_TABLE !! name = Some func ->
       evaluate_method func = Some func_evaluate ->
       func_evaluate (Call a (Name fa name) args keywords) = Raise UnfoldableNode.
Proof.
  intros Hpass.
  eapply (sweep_loop_unchanged (fun n => isinstance n [cCall]))
    in Hpass as (-> & Hall).
  - split; [done|]. intros p a fa name args keywords func func_evaluate Hp Hn Hfunc Hev.
    eapply (replace_builtin_functions_body_fixed DISPATCH_TABLE p m 0); [done..|].
    apply Hall, elem_of_get_descendants. split.
    + by eexists.
    + right. destruct p as [|i r]; [done|]. by exists i, r.
  - intros x cs _. apply isinstance_with_children.
  - intros p m0 c0 r old Hold _. by apply replace_builtin_functions_body_spec.
  - apply pending_snapshot.
Qed.

(** The last turn of the loop of [fold] runs the four passes on the module
    that [fold] returns, and each of them counts nothing. *)
Lemma fold_last_turn evaluate DISPATCH_TABLE get_type_from_annotation truth_value fuel m m' :
  fold evaluate DISPATCH_TABLE get_type_from_annotation truth_value fuel m = Some (Ok m') ->
  replace_user_defined_constants get_type_from_annotation truth_value m' = Ok (m', 0)
  /\ replace_literal_ops evaluate m' = Ok (m', 0)
  /\ replace_subscripts evaluate m' = Ok (m', 0)
  /\ replace_builtin_functions DISPATCH_TABLE m' = Ok (m', 0).
Proof.
  unfold fold. destruct (replace_builtin_constants m) as [m0|e]; [|done].
  intros (m1 & Hlast)%fold_while_fixed.
  apply fold_iteration_Ok in Hlast as (ma & c1 & mb & c2 & mc & c3 & c4 & H1 & H2 & H3 & H4 & Hsum).
  assert (c1 = 0 /\ c2 = 0 /\ c3 = 0 /\ c4 = 0) as (-> & -> & -> & ->) by lia.
  pose proof (rewrites_zero _ _ _ (replace_builtin_functions_rewrites _ _ _ _ H4)) as ->.
  pose proof (rewrites_zero _ _ _ (replace_subscripts_rewrites _ _ _ _ H3)) as ->.
  pose proof (rewrites_zero _ _ _ (replace_literal_ops_rewrites _ _ _ _ H2)) as ->.
  pose proof (rewrites_zero _ _ _
                (replace_user_defined_constants_rewrites _ _ _ _ _ H1)) as ->.
  done.
Qed.

(** X2. In the module that [fold] returns nothing is left to evaluate: the
    [evaluate] method of every operator, comparison and subscript node below
    the root raises UnfoldableNode, and so does the evaluator of every call,
    by name, of a builtin function that has one. *)
Theorem fold_result_is_fully_evaluated
    evaluate DISPATCH_TABLE get_type_from_annotation truth_value fuel m m' :
  fold evaluate DISPATCH_TABLE get_type_from_annotation truth_value fuel m = Some (Ok m') ->
  (forall p n,
     p <> [] -> get m' p = Some n ->
     class_of n ∈ [cBoolOp; cBinOp; cUnaryOp; cCompare; cSubscript] ->
     evaluate n = Raise UnfoldableNode)
  /\ (forall p a fa name args keywords func func_evaluate,
        p <> [] -> get m' p = Some (Call a (Name fa name) args keywords) ->
        DISPATCH_TABLE !! name = Some func ->
        evaluate_method func = Some func_evaluate ->
        func_evaluate (Call a (Name fa name) args keywords) = Raise UnfoldableNode).
Proof.
  intros (_ & Hops & Hsub & Hcall)%fold_last_turn.
  apply replace_literal_ops_fixed in Hops as (_ & Hops).
  apply replace_subscripts_fixed in Hsub as (_ & Hsub).
  apply replace_builtin_functions_fixed in Hcall as (_ & Hcall).
  split; [|done]. intros p n Hp Hn Hcls.
  destruct (decide (class_of n = cSubscript)) as [Hs|Hs]; [by eapply Hsub|].
  apply (Hops p n Hp Hn).
  rewrite !elem_of_cons in Hcls. rewrite !elem_of_cons.
  destruct Hcls as [?|[?|[?|[?|[?|Hnil]]]]]; try done; auto.
Qed.

Lemma fold_result_is_fully_evaluated_witness :
  exists m', example_fold 2 example_module = Some (Ok m')
    /\ get m' [3; 0] = Some (Subscript (at_ 4 0) (Name (at_ 4 0) "x")
                               (Index (at_ 4 2) (Constant (at_ 4 2) Int (py_int 0))))
    /\ example_evaluate (Subscript (at_ 4 0) (Name (at_ 4 0) "x")
                           (Index (at_ 4 2) (Constant (at_ 4 2) Int (py_int 0))))
       = Raise UnfoldableNode.
Proof.
  eexists. split; [vm_compute; reflexivity|].
  lazymatch goal with
  | |- get ?m' _ = _ /\ _ =>
      assert (example_fold 2 example_module = Some (Ok m')) as Hfolded
        by (vm_compute; reflexivity);
      assert (get m' [3; 0] = Some (Subscript (at_ 4 0) (Name (at_ 4 0) "x")
                                      (Index (at_ 4 2) (Constant (at_ 4 2) Int (py_int 0)))))
        as Hget by (vm_compute; reflexivity)
  end.
  split; [exact Hget|].
  destruct (fold_result_is_fully_evaluated example_evaluate example_DISPATCH_TABLE
              example_get_type example_truth 2 example_module _ Hfolded) as (Hops & _).
  apply (Hops [3; 0] _ ltac:(discriminate) Hget).
  rewrite !elem_of_cons. auto 10.
Defined.

Lemma for_in_count_unchanged (body : path -> node * nat -> result (node * nat)) l :
  (forall p m c m1 c1,
      body p (m, c) = Ok (m1, c1) -> exists k, c1 = c + k /\ (k = 0 -> m1 = m)) ->
  forall m c m' c',
    for_in l body (m, c) = Ok (m', c') ->
    c <= c' /\ (c' = c -> m' = m /\ forall p, p ∈ l -> body p (m, c) = Ok (m, c)).
Proof.
  intros Hstep. induction l as [|p l IH]; intros m c m' c' Hfor.
  { injection Hfor as <- <-. split; [done|]. intros _. split; [done|].
    intros p Hp. by apply elem_of_nil in Hp. }
  rewrite for_in_cons in Hfor. destruct (body p (m, c)) as [[m1 c1]|e] eqn:Hbody; [|done].
  destruct (Hstep _ _ _ _ _ Hbody) as (k & -> & Hk).
  destruct (IH _ _ _ _ Hfor) as (Hle & Hrest). split; [lia|].
  intros ->. assert (k = 0) as -> by lia. rewrite Hk in * by done.
  rewrite Nat.add_0_r in *. destruct Hrest as (-> & Hrest); [done|].
  split; [done|]. intros q [->|Hq]%elem_of_cons; [done|by apply Hrest].
Qed.

Lemma replace_user_defined_constants_fixed get_type_from_annotation truth_value m m' :
  replace_user_defined_constants get_type_from_annotation truth_value m = Ok (m', 0) ->
  m' = m
  /\ forall p, p ∈ get_children m [] (fun n => isinstance n [cAnnAssign]) ->
       replace_user_defined_constants_body get_type_from_annotation truth_value p (m, 0)
       = Ok (m, 0).
Proof.
  intros Hpass. eapply for_in_count_unchanged in Hpass as (_ & Hpass); [by apply Hpass|].
  intros p m0 c m1 c1 (k & -> & Hk)%replace_user_defined_constants_body_rewrites.
  exists k. split; [done|]. intros ->. by apply rewrites_zero in Hk.
Qed.

(** X3. In the module that [fold] returns, the type of every declaration
    [x: constant(T) = v] at module level resolves, and when [v] is a literal
    that [_replace] accepts with that type, every reference to [x] that is
    left stands where references are never substituted: as the callee of a
    call, as a dictionary key, or in an assignment target outside an
    Index. *)
Theorem fold_result_has_no_reference_to_substitute
    evaluate DISPATCH_TABLE get_type_from_annotation truth_value fuel m m'
    i a ta id_ ca fa constant_annotation args keywords v :
  fold evaluate DISPATCH_TABLE get_type_from_annotation truth_value fuel m = Some (Ok m') ->
  get m' [i] = Some (AnnAssign a (Name ta id_)
                       (Call ca (Name fa "constant") (constant_annotation :: args) keywords)
                       (Some v)) ->
  exists type_,
    (if truth_value constant_annotation
     then match get_type_from_annotation constant_annotation UNSET with
          | inl t => Ok (Some t)
          | inr msg => Raise (TypeResolutionError msg)
          end
     else Ok None) = Ok type_
    /\ forall p a' r,
         p <> [] -> get m' p = Some (Name a' id_) ->
         _replace (Name a' id_) v type_ = Ok r ->
         not_substitutable m' p.
Proof.
  intros (Hpass & _)%fold_last_turn Hdecl.
  apply replace_user_defined_constants_fixed in Hpass as (_ & Hpass).
  specialize (Hpass [i]).
  rewrite (replace_user_defined_constants_body_declaration _ _ _ _ _ _ _ _ _ _ _ _ _ _ Hdecl)
    in Hpass.
  destruct (if truth_value constant_annotation then _ else _) as [type_|e] eqn:Htype.
  2:{ exfalso. cbn [bind] in Hpass. enough (Raise e = Ok (m', 0)) by done.
      apply Hpass, elem_of_get_children. simpl in Hdecl.
      destruct (children m' !! i) as [c|] eqn:Hc; [|done]. injection Hdecl as ->.
      by eexists m', i, _. }
  exists type_. split; [done|]. intros p a' r Hp Hname Hrep.
  cbn [bind] in Hpass.
  destruct (replace_constant m' id_ (in_tree ([i] ++ [2])) false type_) as [[m1 c1]|e]
    eqn:Hrc.
  2:{ exfalso. enough (Raise e = Ok (m', 0)) by done.
      apply Hpass, elem_of_get_children. simpl in Hdecl.
      destruct (children m' !! i) as [c|] eqn:Hc; [|done]. injection Hdecl as ->.
      by eexists m', i, _. }
  assert (m1 = m' /\ c1 = 0) as (-> & ->).
  { enough (Ok (m1, 0 + c1) = Ok (m', 0)) as [= -> ->] by done.
    apply Hpass, elem_of_get_children. simpl in Hdecl.
    destruct (children m' !! i) as [c|] eqn:Hc; [|done]. injection Hdecl as ->.
    by eexists m', i, _. }
  destruct (spine m' p) as [s|] eqn:Hs.
  2:{ assert (is_Some (spine m' p)) as [? ?] by (by apply spine_is_Some); congruence. }
  apply (spine_skips_spec _ _ _ Hs).
  destruct (spine_skips s) eqn:Hskip; [done|exfalso].
  destruct (replace_constant_at _ _ _ _ _ _ _ _ _ _ Hrc Hp Hname Hs) as (_ & _ & Hsub).
  specialize (Hsub Hskip).
  assert (deref m' (in_tree ([i] ++ [2])) = Some v) as Hv.
  { change ([i] ++ [2]) with ([i; 2]). simpl. simpl in Hdecl.
    destruct (children m' !! i) as [c|] eqn:Hc; [|done]. by injection Hdecl as ->. }
  rewrite Hv, Hrep, Hname in Hsub. injection Hsub as <-.
  by apply _replace_is_literal in Hrep.
Qed.

Lemma fold_result_has_no_reference_to_substitute_witness :
  exists m', example_fold 2 example_module = Some (Ok m')
    /\ get m' [1; 0; 0] = Some (Name (at_ 2 0) "x")
    /\ not_substitutable m' [1; 0; 0].
Proof.
  eexists. split; [vm_compute; reflexivity|].
  lazymatch goal with
  | |- get ?m' _ = _ /\ _ =>
      assert (example_fold 2 example_module = Some (Ok m')) as Hfolded
        by (vm_compute; reflexivity);
      assert (get m' [0] = Some (AnnAssign (at_ 1 0) (Name (at_ 1 0) "x")
                                   (Call (at_ 1 3) (Name (at_ 1 3) "constant")
                                      [Name (at_ 1 12) "int128"] [])
                                   (Some (Constant (at_ 1 22) Int (py_int 5)))))
        as Hdecl by (vm_compute; reflexivity);
      assert (get m' [1; 0; 0] = Some (Name (at_ 2 0) "x")) as Hname
        by (vm_compute; reflexivity)
  end.
  split; [exact Hname|].
  destruct (fold_result_has_no_reference_to_substitute
              example_evaluate example_DISPATCH_TABLE example_get_type example_truth
              2 example_module _ _ _ _ _ _ _ _ _ _ _ Hfolded Hdecl)
    as (type_ & Htype & Hleft).
  injection Htype as <-.
  apply (Hleft [1; 0; 0] (at_ 2 0) _ ltac:(discriminate) Hname eq_refl).
Defined.

(** * Names of builtin constants *)

Lemma fold_settles evaluate DISPATCH_TABLE get_type_from_annotation truth_value fuel m m' :
  evaluate_contract evaluate -> dispatch_contract DISPATCH_TABLE ->
  fold evaluate DISPATCH_TABLE get_type_from_annotation truth_value fuel m = Some (Ok m') ->
  builtin_references_settled m'.
Proof.
  intros He Hd Hfold. unfold fold in Hfold.
  destruct (replace_builtin_constants m) as [m0|e] eqn:Hb; [|done].
  apply replace_builtin_constants_settles in Hb.
  apply fold_while_Ok in Hfold as (groups & _ & Hg).
  revert Hb. induction Hg as [m1 m2 Hp|groups m1 m2 m3 total Hp _ _ IH]; intros Hb.
  - apply fold_iteration_Ok, (fold_iteration_rewrites _ _ _ _ He Hd) in Hp.
    by eapply rewrites_settled.
  - apply IH. apply fold_iteration_Ok, (fold_iteration_rewrites _ _ _ _ He Hd) in Hp.
    by eapply rewrites_settled.
Qed.

Lemma settled_replace_constant m name repl roe type_ :
  builtin_references_settled m -> name ∈ BUILTIN_CONSTANTS.*1 ->
  replace_constant m name repl roe type_ = Ok (m, 0).
Proof.
  intros Hset Hname. apply replace_constant_nothing.
  intros p a s Hp Hget Hs. by eapply Hset.
Qed.

(** X4. The name of a builtin constant cannot be given another value. Once
    [replace_builtin_constants] has run, [replace_constant] for such a name
    changes nothing and counts nothing, whatever the replacement; and when
    the evaluators return literals or elements of the list they subscript,
    the same holds in the module that [fold] returns, where every reference
    to the name that is left stands where references are never
    substituted. *)
Theorem builtin_constant_names_are_taken
    evaluate DISPATCH_TABLE get_type_from_annotation truth_value name m :
  name ∈ BUILTIN_CONSTANTS.*1 ->
  (forall m0 replacement_node raise_on_error type_,
     replace_builtin_constants m = Ok m0 ->
     replace_constant m0 name replacement_node raise_on_error type_ = Ok (m0, 0))
  /\ (evaluate_contract evaluate -> dispatch_contract DISPATCH_TABLE ->
      forall fuel m',
        fold evaluate DISPATCH_TABLE get_type_from_annotation truth_value fuel m
        = Some (Ok m') ->
        (forall p a, p <> [] -> get m' p = Some (Name a name) -> not_substitutable m' p)
        /\ forall replacement_node raise_on_error type_,
             replace_constant m' name replacement_node raise_on_error type_ = Ok (m', 0)).
Proof.
  intros Hname. split.
  - intros m0 repl roe type_ Hb%replace_builtin_constants_settles.
    by apply settled_replace_constant.
  - intros He Hd fuel m' Hset%fold_settles; [|done..]. split.
    + intros p a Hp Hget.
      destruct (spine m' p) as [s|] eqn:Hs.
      2:{ assert (is_Some (spine m' p)) as [? ?] by (by apply spine_is_Some); congruence. }
      apply (spine_skips_spec _ _ _ Hs). by eapply Hset.
    + intros repl roe type_. by apply settled_replace_constant.
Qed.

Lemma builtin_constant_names_are_taken_witness :
  exists m0,
    replace_builtin_constants redefined_builtin_constant = Ok m0
    /\ get m0 [1; 1] = Some (Constant (at_ 2 4) Int (py_int (2 ^ 127 - 1)))
    /\ replace_constant m0 "MAX_INT128" (in_tree [0; 2]) false None = Ok (m0, 0)
    /\ example_fold 1 redefined_builtin_constant = Some (Ok m0).
Proof.
  eexists. split; [vm_compute; reflexivity|].
  lazymatch goal with
  | |- get ?m0 _ = _ /\ _ =>
      assert (replace_builtin_constants redefined_builtin_constant = Ok m0) as Hb
        by (vm_compute; reflexivity)
  end.
  split; [vm_compute; reflexivity|].
  assert ("MAX_INT128" ∈ BUILTIN_CONSTANTS.*1) as Hname.
  { apply list_elem_of_In. simpl. auto. }
  destruct (builtin_constant_names_are_taken example_evaluate example_DISPATCH_TABLE
              example_get_type example_truth "MAX_INT128" redefined_builtin_constant Hname)
    as (Hpass & _).
  split; [exact (Hpass _ _ _ _ Hb)|vm_compute; reflexivity].
Defined.

(** * The literals [_replace] accepts *)

Lemma list_comprehension_map {A B} (f : A -> result B) (g : A -> B) l :
  (forall x, x ∈ l -> f x = Ok (g x)) -> list_comprehension f l = Ok (map g l).
Proof.
  induction l as [|x l IH]; intros Hall; simpl; [done|].
  rewrite (Hall x) by apply list_elem_of_here.
  rewrite IH; [done|].
  intros y Hy. apply Hall. by apply list_elem_of_further.
Qed.

Lemma list_comprehension_raises {A B} (f : A -> result B) l e :
  (forall x, x ∈ l -> (exists y, f x = Ok y) \/ f x = Raise e) ->
  (exists x, x ∈ l /\ f x = Raise e) ->
  list_comprehension f l = Raise e.
Proof.
  intros Hall (z & Hz & Hraise).
  destruct (list_comprehension f l) as [ys|e'] eqn:Hl.
  - apply list_comprehension_Ok in Hl. apply list_elem_of_lookup in Hz as [i Hi].
    destruct (Forall2_lookup_l _ _ _ _ _ Hl Hi) as (y & _ & Hy). congruence.
  - apply list_comprehension_Raise in Hl as (x & Hx & Hfx).
    destruct (Hall x Hx) as [[y Hy]|Hr]; congruence.
Qed.

Lemma forallb_false_elem {A} (f : A -> bool) l :
  forallb f l = false -> exists x, x ∈ l /\ f x = false.
Proof.
  induction l as [|x l IH]; [done|]. simpl.
  destruct (f x) eqn:Hx; simpl.
  - intros (y & Hy & Hfy)%IH. exists y. split; [by apply list_elem_of_further|done].
  - intros _. exists x. split; [apply list_elem_of_here|done].
Qed.

Lemma _replace_untyped old new :
  (is_literal new = true -> _replace old new None = Ok (restamp (from_node old) new))
  /\ (is_literal new = false -> _replace old new None = Raise UnfoldableNode).
Proof.
  induction new as [new IH] using node_children_ind.
  destruct new as [| | | | |a cls value|a elements| | | | | | | | |]; try done.
  assert (forall x, x ∈ elements ->
            (is_literal x = true -> _replace old x None = Ok (restamp (from_node old) x))
            /\ (is_literal x = false -> _replace old x None = Raise UnfoldableNode)) as Helts.
  { intros x Hx. apply IH. unfold children. simpl. by rewrite list_fmap_id. }
  rewrite _replace_List. cbn [bind]. split; intros Hlit; simpl in Hlit.
  - rewrite forallb_forall in Hlit.
    rewrite (list_comprehension_map _ (restamp (from_node old))); [done|].
    intros x Hx. apply Helts; [done|]. by apply Hlit, list_elem_of_In.
  - rewrite (list_comprehension_raises _ _ UnfoldableNode); [done| |].
    + intros x Hx. destruct (is_literal x) eqn:Hlx.
      * left. eexists. by apply Helts.
      * right. by apply Helts.
    + apply forallb_false_elem in Hlit as (x & Hx & Hlx).
      exists x. split; [done|]. by apply Helts.
Qed.

Lemma restamp_set_metadata_type a n t :
  restamp a (set_metadata_type n t) = restamp a n.
Proof. by destruct n. Qed.

Lemma _replace_restamp old new type_ r a :
  _replace old new type_ = Ok r -> restamp a r = restamp a new.
Proof.
  revert type_ r; induction new as [new IH] using node_children_ind; intros type_ r.
  destruct new as [| | | | |a' cls value|a' elements| | | | | | | | |]; try done.
  - simpl. destruct type_; intros [= <-]; done.
  - rewrite _replace_List.
    intros (base_type & _ & (list_values & Hl & Hr)%bind_Ok)%bind_Ok.
    assert (map (restamp a) list_values = map (restamp a) elements) as Hmap.
    { assert (Forall2 (fun x y => restamp a y = restamp a x) elements list_values) as HF.
      { apply list_comprehension_Ok in Hl. apply Forall2_same_length_lookup.
        split; [by eapply Forall2_length|]. intros i x y Hx Hy.
        destruct (Forall2_lookup_l _ _ _ _ _ Hl Hx) as (y' & Hy' & Hxy).
        assert (y' = y) as -> by congruence.
        eapply IH; [|done]. unfold children. simpl. rewrite list_fmap_id.
        by eapply list_elem_of_lookup_2. }
      clear -HF. induction HF as [|x y l l' Hxy _ IHF]; [done|]. simpl.
      by rewrite Hxy, IHF. }
    destruct type_; injection Hr as <-; simpl; by rewrite Hmap.
Qed.

(** X5. [_replace] accepts literals and nothing else. Whatever the type,
    it returns only for a Constant or a List of literals, the node it
    returns is that literal with other attributes, and it raises nothing but
    UnfoldableNode and AttributeError. Without a type it returns for every
    literal, giving each node of it the source position of the node it
    replaces and an empty metadata, and raises UnfoldableNode for every node
    that is not a literal. *)
Theorem _replace_accepts_literals old new type_ :
  (forall r, _replace old new type_ = Ok r ->
     is_literal new = true /\ is_literal r = true
     /\ forall a, restamp a r = restamp a new)
  /\ (forall e, _replace old new type_ = Raise e -> e = UnfoldableNode \/ e = AttributeError)
  /\ (is_literal new = true -> _replace old new None = Ok (restamp (from_node old) new))
  /\ (is_literal new = false -> _replace old new None = Raise UnfoldableNode).
Proof.
  split_and!.
  - intros r Hr. split_and!.
    + by eapply _replace_input_literal.
    + by eapply _replace_is_literal.
    + intros a. by eapply _replace_restamp.
  - intros e. apply _replace_Raise.
  - apply _replace_untyped.
  - apply _replace_untyped.
Qed.

(** * Replacements that are not literals *)

Lemma for_in_raises {A S} (l : list A) (body : A -> S -> result S) s e :
  (forall x, x ∈ l -> body x s = Ok s \/ body x s = Raise e) ->
  (exists x, x ∈ l /\ body x s = Raise e) ->
  for_in l body s = Raise e.
Proof.
  induction l as [|x l IH]; intros Hall (z & Hz & Hraise).
  { by apply elem_of_nil in Hz. }
  rewrite for_in_cons.
  destruct (Hall x) as [Hx|Hx]; [apply list_elem_of_here| |by rewrite Hx].
  rewrite Hx. apply IH.
  - intros y Hy. apply Hall. by apply list_elem_of_further.
  - apply elem_of_cons in Hz as [Hzx|Hz]; [|by exists z]. subst. congruence.
Qed.

Lemma replace_constant_body_unfoldable id_ repl roe type_ p m c a :
  match deref m repl with
  | Some new => forall old, _replace old new type_ = Raise UnfoldableNode
  | None => True
  end ->
  get m p = Some (Name a id_) ->
  replace_constant_body id_ repl roe type_ p (m, c) =
  if is_call_func m p || is_dict_key m p || is_assignment_target m p then Ok (m, c)
  else if roe then Raise UnfoldableNode else Ok (m, c).
Proof.
  intros Hrepl Hget. unfold replace_constant_body, node_at.
  destruct (is_call_func m p); [done|]. destruct (is_dict_key m p); [done|].
  destruct (is_assignment_target m p); [done|]. rewrite Hget. cbn [bind orb].
  destruct (deref m repl) as [new|]; [by rewrite Hrepl|done].
Qed.

Lemma tests_not_substitutable m p a id_ :
  get m p = Some (Name a id_) ->
  is_call_func m p || is_dict_key m p || is_assignment_target m p = true
  <-> not_substitutable m p.
Proof.
  intros Hget. destruct (spine m p) as [s|] eqn:Hs.
  2:{ assert (is_Some (spine m p)) as [? ?] by (by apply spine_is_Some); congruence. }
  destruct (skips_spine _ _ _ Hs) as (-> & -> & ->).
  apply (spine_skips_spec _ _ _ Hs).
Qed.

(** X6. A replacement that is not a literal. When the replacement node is
    missing, or is neither a Constant nor a List, or no type is given and it
    is not a literal throughout, [replace_constant] changes nothing and
    counts nothing if [raise_on_error] is false. If [raise_on_error] is true
    it raises UnfoldableNode as soon as the name has a reference that would
    be substituted, and changes nothing when it has none. *)
Theorem replace_constant_without_a_literal m id_ replacement_node type_ :
  (deref m replacement_node = None
   \/ exists new,
        deref m replacement_node = Some new
        /\ (is_literal_class (class_of new) = false
            \/ (type_ = None /\ is_literal new = false))) ->
  replace_constant m id_ replacement_node false type_ = Ok (m, 0)
  /\ ((exists p a, p <> [] /\ get m p = Some (Name a id_) /\ ~ not_substitutable m p) ->
      replace_constant m id_ replacement_node true type_ = Raise UnfoldableNode)
  /\ ((forall p a, p <> [] -> get m p = Some (Name a id_) -> not_substitutable m p) ->
      replace_constant m id_ replacement_node true type_ = Ok (m, 0)).
Proof.
  intros Hrepl.
  assert (match deref m replacement_node with
          | Some new => forall old, _replace old new type_ = Raise UnfoldableNode
          | None => True
          end) as Hraise.
  { destruct Hrepl as [->|(new & -> & [Hcls| [-> Hlit]])]; [done| |].
    - intros old. by destruct new.
    - intros old. by apply _replace_untyped. }
  split_and!.
  - apply for_in_skip. intros p (_ & a & Hget)%Name_positions.
    rewrite (replace_constant_body_unfoldable _ _ _ _ _ _ _ _ Hraise Hget).
    by destruct (_ || _).
  - intros (p & a & Hp & Hget & Hsub). apply for_in_raises.
    + intros q (_ & b & Hq)%Name_positions.
      rewrite (replace_constant_body_unfoldable _ _ _ _ _ _ _ _ Hraise Hq).
      destruct (_ || _); auto.
    + exists p. split; [apply Name_positions; eauto|].
      rewrite (replace_constant_body_unfoldable _ _ _ _ _ _ _ _ Hraise Hget).
      destruct (_ || _) eqn:Htests; [|done].
      by apply (tests_not_substitutable _ _ _ _ Hget) in Htests.
  - intros Hnone. apply for_in_skip. intros p (Hp & a & Hget)%Name_positions.
    rewrite (replace_constant_body_unfoldable _ _ _ _ _ _ _ _ Hraise Hget).
    destruct (_ || _) eqn:Htests; [done|].
    pose proof (Hnone _ _ Hp Hget) as Hno.
    apply (tests_not_substitutable _ _ _ _ Hget) in Hno. congruence.
Qed.

Lemma replace_constant_without_a_literal_witness :
  replace_constant example_module "x" (in_tree [4; 1]) false None = Ok (example_module, 0)
  /\ replace_constant example_module "x" (in_tree [4; 1]) true None = Raise UnfoldableNode.
Proof.
  destruct (replace_constant_without_a_literal example_module "x" (in_tree [4; 1]) None)
    as (Hfalse & Htrue & _).
  { right. eexists. split; [reflexivity|]. by left. }
  split; [done|]. apply Htrue.
  exists [4; 1; 0], (at_ 5 4). split; [done|]. split; [done|].
  intros Hno.
  apply (tests_not_substitutable example_module [4; 1; 0] (at_ 5 4) "x" eq_refl) in Hno.
  by vm_compute in Hno.
Defined.

(** * Builtin calls *)

(** ** The loop of a pass, up to one of its positions *)

Lemma sweep_prefix matches R body l1 l2 m c mc c1 :
  (forall x cs, length cs = length (children x) -> matches (with_children x cs) = matches x) ->
  (forall p m c r old,
      get m p = Some old -> matches old = true -> body p (m, c) = Ok r ->
      r = (m, c) \/ exists new m', R old new /\ put m p new = Some m' /\ r = (m', c + 1)) ->
  pending matches m (l1 ++ l2) ->
  for_in l1 body (m, c) = Ok (mc, c1) ->
  pending matches mc l2.
Proof.
  intros Hhead Hspec. revert m c. induction l1 as [|p l1 IH]; intros m c Hpen Hfor.
  { by injection Hfor as <- <-. }
  rewrite for_in_cons in Hfor. simpl in Hpen.
  destruct (body p (m, c)) as [r|e] eqn:Hbody; [|done].
  pose proof Hpen as (Hord & Hall). apply Forall_cons in Hall as ((_ & x & Hx & Hm) & Hall).
  destruct (Hspec _ _ _ _ _ Hx Hm Hbody) as [->|(new & m1 & _ & Hput & ->)].
  - eapply IH; [|done]. split; [apply Hord|done].
  - eapply IH; [|done]. by eapply (pending_put matches Hhead).
Qed.

Lemma sweep_visit matches R body l m c m' c' p :
  (forall x cs, length cs = length (children x) -> matches (with_children x cs) = matches x) ->
  (forall p m c r old,
      get m p = Some old -> matches old = true -> body p (m, c) = Ok r ->
      r = (m, c) \/ exists new m', R old new /\ put m p new = Some m' /\ r = (m', c + 1)) ->
  pending matches m l ->
  for_in l body (m, c) = Ok (m', c') ->
  p ∈ l ->
  exists l1 l2 mc c1 r,
    l = l1 ++ p :: l2
    /\ for_in l1 body (m, c) = Ok (mc, c1)
    /\ pending matches mc (p :: l2)
    /\ body p (mc, c1) = Ok r
    /\ for_in l2 body r = Ok (m', c').
Proof.
  intros Hhead Hspec Hpen Hfor (l1 & l2 & ->)%list_elem_of_split.
  rewrite for_in_app in Hfor. apply bind_Ok in Hfor as ([mc c1] & H1 & H2).
  rewrite for_in_cons in H2. destruct (body p (mc, c1)) as [r|e] eqn:Hbody; [|done].
  exists l1, l2, mc, c1, r. split_and!; try done. by eapply sweep_prefix.
Qed.

(** The node at a position that no position of the loop is above keeps its
    class and its attributes. *)
Lemma loop_keeps_head (body : path -> node * nat -> result (node * nat)) l m c m' c' p n :
  (forall p m c m1 c1,
      body p (m, c) = Ok (m1, c1) -> m1 = m \/ exists new, put m p new = Some m1) ->
  (forall q, q ∈ l -> ~ q `prefix_of` p) ->
  for_in l body (m, c) = Ok (m', c') ->
  get m p = Some n ->
  exists old, get m' p = Some old /\ class_of old = class_of n /\ attrs old = attrs n.
Proof.
  intros Hlocal. revert m c n. induction l as [|q l IH]; intros m c n Hq Hfor Hn.
  { injection Hfor as <- <-. by exists n. }
  rewrite for_in_cons in Hfor. destruct (body q (m, c)) as [[m1 c1]|e] eqn:Hbody; [|done].
  assert (forall q', q' ∈ l -> ~ q' `prefix_of` p) as Hq'.
  { intros q' Hin. apply Hq. by apply list_elem_of_further. }
  destruct (Hlocal _ _ _ _ _ Hbody) as [->|[new Hput]]; [by eapply IH|].
  destruct (get_put_head _ _ _ _ p n Hput) as (cs & Hlen & Hget); [|done|].
  { apply Hq, list_elem_of_here. }
  destruct (IH _ _ _ Hq' Hfor Hget) as (old & Hold & Hcls & Hattrs).
  exists old. split; [done|].
  by rewrite Hcls, Hattrs, class_of_with_children, attrs_with_children.
Qed.

(** ** The body of [replace_builtin_functions] *)

Lemma replace_builtin_functions_body_local DISPATCH_TABLE p m c m1 c1 :
  replace_builtin_functions_body DISPATCH_TABLE p (m, c) = Ok (m1, c1) ->
  m1 = m \/ exists new, put m p new = Some m1.
Proof.
  intros Hbody. destruct (get m p) as [old|] eqn:Hold.
  - destruct (replace_builtin_functions_body_spec DISPATCH_TABLE _ _ _ _ _ Hold Hbody)
      as [[= -> ->]|(new & m' & _ & Hput & [= -> ->])]; [by left|right; by exists new].
  - unfold replace_builtin_functions_body, node_at in Hbody. by rewrite Hold in Hbody.
Qed.

Lemma replace_builtin_functions_body_cases DISPATCH_TABLE p m c r old :
  p <> [] -> get m p = Some old -> class_of old = cCall ->
  replace_builtin_functions_body DISPATCH_TABLE p (m, c) = Ok r ->
  (skipped_call DISPATCH_TABLE old /\ r = (m, c))
  \/ (exists new m2,
        builtin_evaluates_to DISPATCH_TABLE old new
        /\ put m p new = Some m2 /\ r = (m2, c + 1)).
Proof.
  intros Hp Hold Hcls. unfold replace_builtin_functions_body, node_at.
  rewrite Hold. cbn [bind].
  destruct old as [| | | | | | | |a func args keywords| | | | | | |]; try done.
  destruct func as [| | | |fa name| | | | | | | | | | |];
    try (intros [= <-]; left; split; [|done];
         exists a; eexists; exists args, keywords; split; [done|]; by left).
  destruct (DISPATCH_TABLE !! name) as [entry|] eqn:Hentry.
  2:{ intros [= <-]. left. split; [|done].
      exists a, (Name fa name), args, keywords. split; [done|]. right. left. eauto. }
  destruct (evaluate_method entry) as [func_evaluate|] eqn:Hev.
  2:{ intros [= <-]. left. split; [|done].
      exists a, (Name fa name), args, keywords. split; [done|]. right. right. left.
      by exists fa, name, entry. }
  destruct (func_evaluate _) as [new|e] eqn:He.
  - intros (m2 & [_ Hput]%replace_in_tree_Ok & [= <-])%bind_Ok. right.
    exists new, m2. split; [|done]. by exists a, fa, name, args, keywords, entry, func_evaluate.
  - destruct e; try done. intros [= <-]. left. split; [|done].
    exists a, (Name fa name), args, keywords. split; [done|]. right. right. right.
    by exists fa, name, entry, func_evaluate.
Qed.

Lemma skipped_call_not_evaluated DISPATCH_TABLE old new :
  skipped_call DISPATCH_TABLE old -> builtin_evaluates_to DISPATCH_TABLE old new -> False.
Proof.
  intros (a & func & args & keywords & -> & Hwhy)
         (a' & fa & name & args' & keywords' & entry & fe & [= -> -> -> ->] & Hentry & Hev & He).
  destruct Hwhy as [Hf|[(fa' & name' & [= -> ->] & Hn)
                   |[(fa' & name' & entry' & [= -> ->] & Hn & Hnone)
                   |(fa' & name' & entry' & fe' & [= -> ->] & Hn & Hsome & Hr)]]].
  - done.
  - congruence.
  - congruence.
  - congruence.
Qed.

Lemma builtin_evaluates_to_fun DISPATCH_TABLE old new new' :
  builtin_evaluates_to DISPATCH_TABLE old new ->
  builtin_evaluates_to DISPATCH_TABLE old new' -> new = new'.
Proof.
  intros (a & fa & name & args & keywords & entry & fe & -> & Hentry & Hev & He)
         (a' & fa' & name' & args' & keywords' & entry' & fe' & [= -> -> -> -> ->]
          & Hentry' & Hev' & He').
  congruence.
Qed.

Lemma skipped_call_of_fixed DISPATCH_TABLE p m c old :
  p <> [] -> get m p = Some old -> class_of old = cCall ->
  replace_builtin_functions_body DISPATCH_TABLE p (m, c) = Ok (m, c) ->
  skipped_call DISPATCH_TABLE old.
Proof.
  intros Hp Hold Hcls Hbody.
  destruct (replace_builtin_functions_body_cases _ _ _ _ _ _ Hp Hold Hcls Hbody)
    as [[Hskip _]|(new & m2 & _ & _ & [= _ Hc])]; [done|lia].
Qed.

(** ** The pass, call by call *)

Lemma Call_positions m p :
  p ∈ get_descendants m [] (fun n => isinstance n [cCall]) false true <->
  p <> [] /\ exists a func args keywords, get m p = Some (Call a func args keywords).
Proof.
  rewrite elem_of_get_descendants. split.
  - intros [(x & Hx & Hc%isinstance_spec%list_elem_of_singleton) [[? _]|(i & r & ->)]]; [done|].
    split; [done|]. destruct x; try done. eauto.
  - intros [Hne (a & func & args & keywords & Hp)]. split; [eauto|].
    right. destruct p as [|i r]; [done|]. by exists i, r.
Qed.

Lemma Call_position_class m p n :
  p <> [] -> get m p = Some n -> class_of n = cCall ->
  p ∈ get_descendants m [] (fun n => isinstance n [cCall]) false true.
Proof.
  intros Hp Hn Hcls. apply Call_positions. split; [done|].
  destruct n; try done. eauto.
Qed.

Lemma prefix_snoc_cases (q p : path) i :
  q `prefix_of` p ++ [i] -> q `prefix_of` p \/ q = p ++ [i].
Proof.
  intros [k Hk]. destruct k as [|z k _] using rev_ind.
  - right. by rewrite app_nil_r in Hk.
  - left. rewrite app_assoc in Hk. apply app_inj_tail in Hk as [-> _]. by exists k.
Qed.

Lemma replace_builtin_functions_visit DISPATCH_TABLE m m' c p n :
  replace_builtin_functions DISPATCH_TABLE m = Ok (m', c) ->
  p <> [] -> get m p = Some n -> class_of n = cCall ->
  exists l1 l2 mc c1 old,
    get_descendants m [] (fun n => isinstance n [cCall]) false true = l1 ++ p :: l2
    /\ for_in l1 (replace_builtin_functions_body DISPATCH_TABLE) (m, 0) = Ok (mc, c1)
    /\ get mc p = Some old /\ class_of old = cCall /\ attrs old = attrs n
    /\ (forall a fa name args0 keywords0,
          n = Call a (Name fa name) args0 keywords0 ->
          exists args keywords, old = Call a (Name fa name) args keywords)
    /\ ((skipped_call DISPATCH_TABLE old
         /\ for_in l2 (replace_builtin_functions_body DISPATCH_TABLE) (mc, c1) = Ok (m', c))
        \/ (exists new m2,
              builtin_evaluates_to DISPATCH_TABLE old new
              /\ put mc p new = Some m2
              /\ for_in l2 (replace_builtin_functions_body DISPATCH_TABLE) (m2, c1 + 1)
                 = Ok (m', c))).
Proof.
  intros Hpass Hp Hn Hcls.
  pose proof (Call_position_class _ _ _ Hp Hn Hcls) as Hin.
  pose proof (get_descendants_reverse_ordered m (fun n => isinstance n [cCall])) as Hord.
  eapply (sweep_visit (fun n => isinstance n [cCall]) (builtin_evaluates_to DISPATCH_TABLE))
    in Hpass as (l1 & l2 & mc & c1 & r & Hl & H1 & Hpen & Hbody & H2); [|
      by intros x cs _; apply isinstance_with_children|
      by intros q m0 c0 r old Hold _; apply replace_builtin_functions_body_spec|
      apply pending_snapshot|exact Hin].
  rewrite Hl in Hord. apply ordered_app in Hord as (_ & _ & Hbefore).
  assert (forall q, q ∈ l1 -> ~ q `prefix_of` p) as Hq.
  { intros q Hq. apply Hbefore; [done|apply list_elem_of_here]. }
  destruct (loop_keeps_head _ _ _ _ _ _ _ _
              (replace_builtin_functions_body_local DISPATCH_TABLE) Hq H1 Hn)
    as (old & Hold & Hclass & Hattrs).
  rewrite Hcls in Hclass.
  exists l1, l2, mc, c1, old. split_and!; try done.
  - intros a fa name args0 keywords0 ->.
    assert (get mc (p ++ [0]) = Some (Name fa name)) as Hfunc.
    { destruct (local_loop_frame _ (replace_builtin_functions_body_local DISPATCH_TABLE)
                  _ _ _ _ _ H1) as (Hframe & _).
      rewrite Hframe; [by rewrite get_snoc, Hn|].
      intros q Hin1.
      assert (q ∈ get_descendants m [] (fun n => isinstance n [cCall]) false true) as Hqc.
      { rewrite Hl. apply elem_of_app. by left. }
      apply Call_positions in Hqc as (_ & a' & func' & args' & keywords' & Hqn).
      split.
      - intros [Hpre| ->]%prefix_snoc_cases; [by apply (Hq q)|].
        by rewrite get_snoc, Hn in Hqn.
      - intros [k ->]. destruct k as [|i k].
        + rewrite app_nil_r in Hqn. by rewrite get_snoc, Hn in Hqn.
        + rewrite (Name_leaf m (p ++ [0]) fa name) in Hqn; [done|].
          by rewrite get_snoc, Hn. }
    rewrite get_snoc, Hold in Hfunc. simpl in Hattrs.
    destruct old as [| | | | | | | |a' func args keywords| | | | | | |]; try done.
    simpl in Hattrs, Hfunc. injection Hfunc as ->. subst a'. by exists args, keywords.
  - destruct (replace_builtin_functions_body_cases _ _ _ _ _ _ Hp Hold Hclass Hbody)
      as [[Hskip ->]|(new & m2 & Hev & Hput & ->)]; [by left|right].
    by exists new, m2.
Qed.

Lemma replace_builtin_functions_isolated DISPATCH_TABLE m m' c p n :
  replace_builtin_functions DISPATCH_TABLE m = Ok (m', c) ->
  p <> [] -> get m p = Some n -> class_of n = cCall ->
  (forall q x, q <> [] -> q <> p -> get m q = Some x -> class_of x = cCall ->
               ~ q `prefix_of` p /\ ~ p `prefix_of` q) ->
  (skipped_call DISPATCH_TABLE n -> get m' p = Some n)
  /\ (forall new, builtin_evaluates_to DISPATCH_TABLE n new -> get m' p = Some new).
Proof.
  intros Hpass Hp Hn Hcls Halone.
  pose proof (Call_position_class _ _ _ Hp Hn Hcls) as Hin.
  pose proof (get_descendants_reverse_ordered m (fun n => isinstance n [cCall])) as Hord.
  eapply (sweep_visit (fun n => isinstance n [cCall]) (builtin_evaluates_to DISPATCH_TABLE))
    in Hpass as (l1 & l2 & mc & c1 & r & Hl & H1 & Hpen & Hbody & H2); [|
      by intros x cs _; apply isinstance_with_children|
      by intros q m0 c0 r old Hold _; apply replace_builtin_functions_body_spec|
      apply pending_snapshot|exact Hin].
  rewrite Hl in Hord. apply ordered_NoDup in Hord.
  apply NoDup_app in Hord as (_ & Hnot1 & [Hnot2 _]%NoDup_cons).
  assert (forall q, q ∈ l1 \/ q ∈ l2 -> ~ q `prefix_of` p /\ ~ p `prefix_of` q) as Hfar.
  { intros q Hq.
    assert (q ∈ get_descendants m [] (fun n => isinstance n [cCall]) false true) as Hqc.
    { rewrite Hl, elem_of_app, elem_of_cons. tauto. }
    apply Call_positions in Hqc as (Hqne & a' & func' & args' & keywords' & Hqn).
    apply (Halone q (Call a' func' args' keywords') Hqne); [|done|done].
    intros ->. destruct Hq as [Hq|Hq]; [|done].
    apply (Hnot1 p Hq), list_elem_of_here. }
  destruct (local_loop_frame _ (replace_builtin_functions_body_local DISPATCH_TABLE)
              _ _ _ _ _ H1) as (Hframe1 & _).
  assert (get mc p = Some n) as Hold.
  { rewrite Hframe1; [done|]. intros q Hq. apply Hfar. by left. }
  destruct r as [m2 c2].
  destruct (local_loop_frame _ (replace_builtin_functions_body_local DISPATCH_TABLE)
              _ _ _ _ _ H2) as (Hframe2 & _).
  assert (get m' p = get m2 p) as ->.
  { apply Hframe2. intros q Hq. apply Hfar. by right. }
  destruct (replace_builtin_functions_body_cases _ _ _ _ _ _ Hp Hold Hcls Hbody)
    as [[Hskip [= -> ->]]|(new & m3 & Hev & Hput & [= -> ->])].
  - split; [done|]. intros new Hev. by destruct (skipped_call_not_evaluated _ _ _ Hskip Hev).
  - rewrite (get_put_same _ _ _ _ Hput). split.
    + intros Hskip. by destruct (skipped_call_not_evaluated _ _ _ Hskip Hev).
    + intros new' Hev'. by rewrite (builtin_evaluates_to_fun _ _ _ _ Hev Hev').
Qed.

(** ** What is left when the evaluators return literals *)

Lemma is_literal_literal_class x : is_literal x = true -> is_literal_class (class_of x) = true.
Proof. by destruct x. Qed.

Lemma rewrites_class_inv (R : node -> node -> Prop) k m m' p x :
  (forall old new, R old new -> is_literal new = true) ->
  rewrites R k m m' ->
  get m' p = Some x -> is_literal_class (class_of x) = false ->
  exists y, get m p = Some y /\ class_of y = class_of x.
Proof.
  intros HR Hk. revert x.
  induction Hk as [m|k m q old new m1 m' Hq Hold Hnew Hput _ IH]; intros x Hx Hcls.
  { by exists x. }
  destruct (IH _ Hx Hcls) as (y1 & Hy1 & Hc1).
  assert (~ q `prefix_of` p) as Hpre.
  { intros [r ->]. rewrite (get_put_below _ _ _ _ _ Hput) in Hy1.
    apply HR in Hnew. apply (is_literal_get _ _ _ Hnew), is_literal_literal_class in Hy1.
    congruence. }
  pose proof (class_put _ _ _ _ p Hput Hpre) as Hclass. rewrite Hy1 in Hclass.
  destruct (get m p) as [y|]; [|done]. injection Hclass as Hclass.
  exists y. split; [done|congruence].
Qed.

Lemma replace_builtin_functions_body_literal DISPATCH_TABLE q m c m1 c1 :
  dispatch_contract DISPATCH_TABLE ->
  replace_builtin_functions_body DISPATCH_TABLE q (m, c) = Ok (m1, c1) ->
  m1 = m \/ exists new, is_literal new = true /\ put m q new = Some m1.
Proof.
  intros Hd Hbody. destruct (get m q) as [old|] eqn:Hold.
  - destruct (replace_builtin_functions_body_spec DISPATCH_TABLE _ _ _ _ _ Hold Hbody)
      as [[= -> ->]|(new & m' & Hev & Hput & [= -> ->])]; [by left|right].
    exists new. split; [|done].
    destruct Hev as (a & fa & name & args & keywords & entry & fe & -> & Hentry & Hm & He).
    by eapply Hd.
  - unfold replace_builtin_functions_body, node_at in Hbody. by rewrite Hold in Hbody.
Qed.

Lemma loop_keeps_or_folds DISPATCH_TABLE l p m0 c0 m' c' :
  dispatch_contract DISPATCH_TABLE ->
  (forall q, q ∈ l -> ~ p `prefix_of` q) ->
  for_in l (replace_builtin_functions_body DISPATCH_TABLE) (m0, c0) = Ok (m', c') ->
  get m' p = get m0 p \/ (forall x, get m' p = Some x -> is_literal x = true).
Proof.
  intros Hd. revert m0 c0. induction l as [|q l IH]; intros m0 c0 Hq Hfor.
  { injection Hfor as <- <-. by left. }
  rewrite for_in_cons in Hfor.
  destruct (replace_builtin_functions_body DISPATCH_TABLE q (m0, c0)) as [[m1 c1]|e] eqn:Hbody;
    [|done].
  assert (forall q', q' ∈ l -> ~ p `prefix_of` q') as Hq'.
  { intros q' Hin. apply Hq. by apply list_elem_of_further. }
  specialize (IH _ _ Hq' Hfor).
  destruct (replace_builtin_functions_body_literal _ _ _ _ _ _ Hd Hbody)
    as [->|(new & Hlit & Hput)]; [done|].
  destruct (decide (q `prefix_of` p)) as [[r ->]|Hpre].
  - right. intros x Hx. destruct IH as [IH|IH]; [|by apply IH].
    rewrite IH, (get_put_below _ _ _ _ _ Hput) in Hx. by eapply is_literal_get.
  - destruct IH as [IH|IH]; [left|by right].
    rewrite IH. apply (get_put_ne _ _ _ _ _ Hput); [done|].
    apply Hq, list_elem_of_here.
Qed.

Lemma replace_builtin_functions_complete DISPATCH_TABLE m m' c p x :
  dispatch_contract DISPATCH_TABLE ->
  replace_builtin_functions DISPATCH_TABLE m = Ok (m', c) ->
  p <> [] -> get m' p = Some x -> class_of x = cCall ->
  skipped_call DISPATCH_TABLE x.
Proof.
  intros Hd Hpass Hp Hx Hcls.
  assert (exists y, get m p = Some y /\ class_of y = cCall) as (y & Hy & Hclsy).
  { rewrite <- Hcls.
    apply (rewrites_class_inv (builtin_evaluates_to DISPATCH_TABLE) c m m'); [| |done|].
    - intros old new (a & fa & name & args & keywords & entry & fe & -> & Hentry & Hm & He).
      by eapply Hd.
    - by apply replace_builtin_functions_rewrites.
    - by rewrite Hcls. }
  pose proof (Call_position_class _ _ _ Hp Hy Hclsy) as Hin.
  eapply (sweep_visit (fun n => isinstance n [cCall]) (builtin_evaluates_to DISPATCH_TABLE))
    in Hpass as (l1 & l2 & mc & c1 & r & Hl & H1 & Hpen & Hbody & H2); [|
      by intros z cs _; apply isinstance_with_children|
      by intros q m0 c0 r old Hold _; apply replace_builtin_functions_body_spec|
      apply pending_snapshot|exact Hin].
  destruct Hpen as ([Hafter _] & [(_ & old & Hold & Hm) _]%Forall_cons_1).
  apply isinstance_spec, list_elem_of_singleton in Hm.
  rewrite Forall_forall in Hafter. destruct r as [m2 c2].
  destruct (loop_keeps_or_folds _ _ p _ _ _ _ Hd Hafter H2) as [Hsame|Hlit].
  - rewrite Hsame in Hx.
    destruct (replace_builtin_functions_body_cases _ _ _ _ _ _ Hp Hold Hm Hbody)
      as [[Hskip [= -> ->]]|(new & m3 & Hev & Hput & [= -> ->])].
    + rewrite Hold in Hx. by injection Hx as <-.
    + rewrite (get_put_same _ _ _ _ Hput) in Hx. injection Hx as <-.
      destruct Hev as (a & fa & name & args & keywords & entry & fe & -> & Hentry & Hev & He).
      apply (Hd _ _ _ _ _ Hentry Hev), is_literal_literal_class in He.
      by rewrite Hcls in He.
  - apply Hlit, is_literal_literal_class in Hx. by rewrite Hcls in Hx.
Qed.

(** ** Where an exception of the pass comes from *)

Lemma sweep_loop_Raise matches R body l m c e :
  (forall x cs, length cs = length (children x) -> matches (with_children x cs) = matches x) ->
  (forall p m c r old,
      get m p = Some old -> matches old = true -> body p (m, c) = Ok r ->
      r = (m, c) \/ exists new m', R old new /\ put m p new = Some m' /\ r = (m', c + 1)) ->
  pending matches m l ->
  for_in l body (m, c) = Raise e ->
  exists p m1 c1 old,
    p <> [] /\ get m1 p = Some old /\ matches old = true /\ body p (m1, c1) = Raise e.
Proof.
  intros Hhead Hspec. revert m c. induction l as [|p l IH]; intros m c Hpen Hfor; [done|].
  rewrite for_in_cons in Hfor.
  pose proof Hpen as (Hord & Hall). apply Forall_cons in Hall as ((Hp & x & Hx & Hm) & Hall).
  destruct (body p (m, c)) as [r|e'] eqn:Hbody.
  - destruct (Hspec _ _ _ _ _ Hx Hm Hbody) as [->|(new & m1 & _ & Hput & ->)].
    + eapply IH; [|done]. split; [apply Hord|done].
    + eapply IH; [|done]. by eapply (pending_put matches Hhead).
  - injection Hfor as ->. by exists p, m, c, x.
Qed.

Lemma replace_builtin_functions_body_Raise DISPATCH_TABLE p m c old e :
  p <> [] -> get m p = Some old ->
  replace_builtin_functions_body DISPATCH_TABLE p (m, c) = Raise e ->
  exists a fa name args keywords func func_evaluate,
    old = Call a (Name fa name) args keywords
    /\ DISPATCH_TABLE !! name = Some func
    /\ evaluate_method func = Some func_evaluate
    /\ func_evaluate old = Raise e.
Proof.
  intros Hp Hold. unfold replace_builtin_functions_body, node_at. rewrite Hold. cbn [bind].
  destruct old as [| | | | | | | |a [| | | |fa name| | | | | | | | | | |] args keywords| | | | | | |];
    try done.
  destruct (DISPATCH_TABLE !! name) as [func|] eqn:Hfunc; [|done].
  destruct (evaluate_method func) as [func_evaluate|] eqn:Hev; [|done].
  destruct (func_evaluate _) as [new|e'] eqn:He.
  - destruct (replace_in_tree_attached m p new Hp) as [m' ->]; [by eexists|done].
  - intros Hr. exists a, fa, name, args, keywords, func, func_evaluate.
    split_and!; try done. rewrite He. destruct e'; try done; by injection Hr as <-.
Qed.

(** C8. [replace_builtin_functions] deals with every Call node of the
    module, and with nothing else.  The loop comes once to each call, after
    the calls below it and to its right; the call it finds there has the
    attributes of the call of the module, and its callee when that is a
    Name.  A call is left alone, and the loop goes on with the state
    unchanged, when its callee is not a Name, when the name is not in the
    dispatch table, when the entry has no [evaluate] method, and when the
    method raises UnfoldableNode; when the method returns a node, that node
    is put in the place of the call and counted, and the loop goes on.  So
    the pass returns the module after exactly as many replacements of a call
    by what its evaluator returned as it counts; a call that has no other
    call above or below it is found replaced, or left as it was, in the
    module that comes out; a count of zero means that every call of the
    module is of those left alone; and when the evaluators return literals
    no call that could be evaluated is left in the module that comes out.
    The pass fails only when the evaluator of one of the calls raises
    something other than UnfoldableNode. *)
Theorem replace_builtin_functions_spec DISPATCH_TABLE m :
  (forall e,
     replace_builtin_functions DISPATCH_TABLE m = Raise e ->
     e <> UnfoldableNode
     /\ exists a fa name args keywords entry func_evaluate,
          DISPATCH_TABLE !! name = Some entry
          /\ evaluate_method entry = Some func_evaluate
          /\ func_evaluate (Call a (Name fa name) args keywords) = Raise e)
  /\ forall m' changed_nodes,
       replace_builtin_functions DISPATCH_TABLE m = Ok (m', changed_nodes) ->
       rewrites (builtin_evaluates_to DISPATCH_TABLE) changed_nodes m m'
       /\ (forall p n,
             p <> [] -> get m p = Some n -> class_of n = cCall ->
             exists l1 l2 mc c1 old,
               get_descendants m [] (fun n => isinstance n [cCall]) false true
               = l1 ++ p :: l2
               /\ for_in l1 (replace_builtin_functions_body DISPATCH_TABLE) (m, 0)
                  = Ok (mc, c1)
               /\ get mc p = Some old /\ class_of old = cCall /\ attrs old = attrs n
               /\ (forall a fa name args0 keywords0,
                     n = Call a (Name fa name) args0 keywords0 ->
                     exists args keywords, old = Call a (Name fa name) args keywords)
               /\ ((skipped_call DISPATCH_TABLE old
                    /\ for_in l2 (replace_builtin_functions_body DISPATCH_TABLE) (mc, c1)
                       = Ok (m', changed_nodes))
                   \/ (exists new m2,
                         builtin_evaluates_to DISPATCH_TABLE old new
                         /\ put mc p new = Some m2
                         /\ for_in l2 (replace_builtin_functions_body DISPATCH_TABLE)
                                   (m2, c1 + 1)
                            = Ok (m', changed_nodes))))
       /\ (forall p n,
             p <> [] -> get m p = Some n -> class_of n = cCall ->
             (forall q x, q <> [] -> q <> p -> get m q = Some x -> class_of x = cCall ->
                          ~ q `prefix_of` p /\ ~ p `prefix_of` q) ->
             (skipped_call DISPATCH_TABLE n -> get m' p = Some n)
             /\ (forall new, builtin_evaluates_to DISPATCH_TABLE n new -> get m' p = Some new))
       /\ (changed_nodes = 0 ->
           m' = m
           /\ forall p n, p <> [] -> get m p = Some n -> class_of n = cCall ->
                          skipped_call DISPATCH_TABLE n)
       /\ (dispatch_contract DISPATCH_TABLE ->
           forall p x, p <> [] -> get m' p = Some x -> class_of x = cCall ->
                       skipped_call DISPATCH_TABLE x).
Proof.
  split.
  - intros e Hpass. split.
    + intros ->.
      pose proof (for_in_no_UnfoldableNode
                    (get_descendants m [] (fun n => isinstance n [cCall]) false true)
                    (replace_builtin_functions_body DISPATCH_TABLE) (m, 0)
                    (replace_builtin_functions_body_no_UnfoldableNode DISPATCH_TABLE)) as Hno.
      unfold replace_builtin_functions in Hpass. by rewrite Hpass in Hno.
    + eapply (sweep_loop_Raise (fun n => isinstance n [cCall])
                (builtin_evaluates_to DISPATCH_TABLE))
        in Hpass as (p & m1 & c1 & old & Hp & Hold & Hm & Hbody); [|
          by intros x cs _; apply isinstance_with_children|
          by intros q m0 c0 r old Hold _; apply replace_builtin_functions_body_spec|
          apply pending_snapshot].
      eapply replace_builtin_functions_body_Raise in Hbody
        as (a & fa & name & args & keywords & func & fe & -> & Hf & Hev & He); [|done..].
      by exists a, fa, name, args, keywords, func, fe.
  - intros m' changed_nodes Hpass. split_and!.
    + by apply replace_builtin_functions_rewrites.
    + intros p n. by apply replace_builtin_functions_visit.
    + intros p n. by apply replace_builtin_functions_isolated with changed_nodes.
    + intros ->. pose proof Hpass as Hloop.
      eapply (sweep_loop_unchanged (fun n => isinstance n [cCall])
                (builtin_evaluates_to DISPATCH_TABLE))
        in Hloop as (-> & Hall); [|
          by intros x cs _; apply isinstance_with_children|
          by intros q m0 c0 r old Hold _; apply replace_builtin_functions_body_spec|
          apply pending_snapshot].
      split; [done|]. intros p n Hp Hn Hcls.
      apply (skipped_call_of_fixed DISPATCH_TABLE p m 0 n Hp Hn Hcls).
      by apply Hall, Call_position_class with n.
    + intros Hd p x. by apply replace_builtin_functions_complete with m changed_nodes.
Qed.

(** On the sample module, once [x] and [MAX_INT128] are literals, the call
    of [max] is replaced and counted; the call of [x], which is not in the
    table, is among those left. *)
Lemma replace_builtin_functions_spec_witness :
  exists m0 m1 m',
    replace_builtin_constants example_module = Ok m0
    /\ replace_constant m0 "x" (in_tree [0; 2]) false None = Ok (m1, 3)
    /\ replace_builtin_functions example_DISPATCH_TABLE m1 = Ok (m', 1)
    /\ get m' [5; 1] = Some (Constant (at_ 6 9) Int (py_int (2 ^ 127 - 1)))
    /\ get m' [1; 0] = Some (Call (at_ 2 0) (Name (at_ 2 0) "x")
                               [Constant (at_ 2 2) Int (py_int 7)] [])
    /\ rewrites (builtin_evaluates_to example_DISPATCH_TABLE) 1 m1 m'
    /\ skipped_call example_DISPATCH_TABLE
         (Call (at_ 2 0) (Name (at_ 2 0) "x") [Constant (at_ 2 2) Int (py_int 7)] []).
Proof.
  eexists _, _, _. split; [vm_compute; reflexivity|].
  split; [vm_compute; reflexivity|].
  split; [vm_compute; reflexivity|].
  split; [vm_compute; reflexivity|].
  lazymatch goal with
  | |- get ?m' _ = _ /\ rewrites _ _ ?m1 _ /\ _ =>
      assert (replace_builtin_functions example_DISPATCH_TABLE m1 = Ok (m', 1)) as Hpass
        by (vm_compute; reflexivity);
      assert (get m' [1; 0] = Some (Call (at_ 2 0) (Name (at_ 2 0) "x")
                                      [Constant (at_ 2 2) Int (py_int 7)] []))
        as Hget by (vm_compute; reflexivity);
      destruct (replace_builtin_functions_spec example_DISPATCH_TABLE m1)
        as (_ & Hspec);
      destruct (Hspec m' 1 Hpass) as (Hrewrites & _ & _ & _ & Hleft)
  end.
  split; [exact Hget|]. split; [exact Hrewrites|].
  exact (Hleft example_dispatch_ok [1; 0] _ ltac:(discriminate) Hget eq_refl).
Defined.

(** * Where the exceptions of a pass come from *)

Lemma evaluate_body_Raise evaluate p m c old e :
  p <> [] -> get m p = Some old ->
  replace_literal_ops_body evaluate p (m, c) = Raise e ->
  evaluate old = Raise e.
Proof.
  intros Hp Hold. unfold replace_literal_ops_body, node_at. rewrite Hold. cbn [bind].
  destruct (evaluate old) as [new|e'].
  - destruct (replace_in_tree_attached m p new Hp) as [m' ->]; [by eexists|done].
  - destruct e'; by intros [= <-].
Qed.

Lemma replace_constant_body_Raise id_ repl roe type_ p m c old e :
  p <> [] -> get m p = Some old ->
  replace_constant_body id_ repl roe type_ p (m, c) = Raise e ->
  (e = UnfoldableNode /\ roe = true) \/ (e = AttributeError /\ is_Some type_).
Proof.
  intros Hp Hold. unfold replace_constant_body, node_at.
  destruct (is_call_func m p); [done|]. destruct (is_dict_key m p); [done|].
  destruct (is_assignment_target m p); [done|]. rewrite Hold. cbn [bind].
  destruct (deref m repl) as [new|].
  - destruct (_replace old new type_) as [r|e'] eqn:Hrep.
    + destruct (replace_in_tree_attached m p r Hp) as [m' ->]; [by eexists|done].
    + pose proof (_replace_Raise _ _ _ _ Hrep) as [->| ->].
      * destruct roe; [|done]. intros [= <-]. by left.
      * intros [= <-]. right. split; [done|]. destruct type_ as [t|]; [by eexists|].
        destruct (is_literal new) eqn:Hlit.
        -- by rewrite (proj1 (_replace_untyped old new) Hlit) in Hrep.
        -- by rewrite (proj2 (_replace_untyped old new) Hlit) in Hrep.
  - destruct roe; [|done]. intros [= <-]. by left.
Qed.

(** X7. A pass fails only with an exception of what it calls.  When
    [replace_literal_ops] or [replace_subscripts] raises, the [evaluate]
    method of a node of the classes it visits raised that exception; when
    [replace_builtin_functions] raises, the evaluator of a builtin function
    called by name raised it; and [replace_constant] raises nothing but
    UnfoldableNode, with [raise_on_error] true, and AttributeError, with a
    type.  The replacement itself never fails: a node the loop comes to is
    still attached to the tree. *)
Theorem passes_raise_what_they_call evaluate DISPATCH_TABLE m e :
  (replace_literal_ops evaluate m = Raise e ->
   exists n, class_of n ∈ [cBoolOp; cBinOp; cUnaryOp; cCompare] /\ evaluate n = Raise e)
  /\ (replace_subscripts evaluate m = Raise e ->
      exists n, class_of n = cSubscript /\ evaluate n = Raise e)
  /\ (replace_builtin_functions DISPATCH_TABLE m = Raise e ->
      exists a fa name args keywords func func_evaluate,
        DISPATCH_TABLE !! name = Some func
        /\ evaluate_method func = Some func_evaluate
        /\ func_evaluate (Call a (Name fa name) args keywords) = Raise e)
  /\ (forall id_ replacement_node raise_on_error type_,
        replace_constant m id_ replacement_node raise_on_error type_ = Raise e ->
        (e = UnfoldableNode /\ raise_on_error = true)
        \/ (e = AttributeError /\ is_Some type_)).
Proof.
  split_and!.
  - intros Hpass.
    eapply (sweep_loop_Raise (fun n => isinstance n [cBoolOp; cBinOp; cUnaryOp; cCompare]))
      in Hpass as (p & m1 & c1 & old & Hp & Hold & Hm & Hbody).
    + exists old. split; [by apply isinstance_spec|]. by eapply evaluate_body_Raise.
    + intros x cs _. apply isinstance_with_children.
    + intros p m0 c0 r old Hold _. by apply evaluate_body_spec.
    + apply pending_snapshot.
  - intros Hpass.
    eapply (sweep_loop_Raise (fun n => isinstance n [cSubscript]))
      in Hpass as (p & m1 & c1 & old & Hp & Hold & Hm & Hbody).
    + exists old. split; [|by eapply evaluate_body_Raise].
      rewrite isinstance_singleton in Hm. by apply bool_decide_eq_true in Hm.
    + intros x cs _. apply isinstance_with_children.
    + intros p m0 c0 r old Hold _. by apply evaluate_body_spec.
    + apply pending_snapshot.
  - intros Hpass.
    eapply (sweep_loop_Raise (fun n => isinstance n [cCall]))
      in Hpass as (p & m1 & c1 & old & Hp & Hold & Hm & Hbody).
    + eapply replace_builtin_functions_body_Raise in Hbody
        as (a & fa & name & args & keywords & func & fe & -> & Hf & Hev & He); [|done..].
      by exists a, fa, name, args, keywords, func, fe.
    + intros x cs _. apply isinstance_with_children.
    + intros p m0 c0 r old Hold _. by apply replace_builtin_functions_body_spec.
    + apply pending_snapshot.
  - intros id_ repl roe type_ Hpass.
    eapply (sweep_loop_Raise (Name_with_id id_))
      in Hpass as (p & m1 & c1 & old & Hp & Hold & Hm & Hbody).
    + by eapply replace_constant_body_Raise.
    + intros x cs _. apply Name_with_id_with_children.
    + intros p m0 c0 r old. apply replace_constant_body_spec.
    + apply pending_snapshot.
Qed.

(** * The count and the change *)

Lemma rewrites_count_zero k m m' :
  rewrites folds_to k m m' -> k = 0 <-> m' = m.
Proof.
  intros Hk. split.
  - intros ->. by apply rewrites_zero in Hk.
  - intros ->. apply rewrites_measure in Hk. lia.
Qed.

Lemma evaluate_folds evaluate old new :
  evaluate_contract evaluate ->
  is_literal_class (class_of old) = false -> evaluates_to evaluate old new ->
  folds_to old new.
Proof.
  intros He Hcls Hev. destruct (He _ _ Hev) as [Hlit|Hsel]; [by left|by right].
Qed.

(** X8. The count a pass returns tells whether it changed the module.  For
    [replace_constant] and [replace_user_defined_constants], and, when the
    evaluators return literals or elements of the list they subscript, for
    the three evaluation passes and for a whole turn of the loop of [fold]:
    the count is zero exactly when the module that comes out is the module
    that went in.  So the loop of [fold] stops at the first turn that leaves
    the module as it was. *)
Theorem count_is_zero_iff_unchanged
    evaluate DISPATCH_TABLE get_type_from_annotation truth_value m m' changed_nodes :
  (forall id_ replacement_node raise_on_error type_,
     replace_constant m id_ replacement_node raise_on_error type_ = Ok (m', changed_nodes) ->
     changed_nodes = 0 <-> m' = m)
  /\ (replace_user_defined_constants get_type_from_annotation truth_value m
      = Ok (m', changed_nodes) ->
      changed_nodes = 0 <-> m' = m)
  /\ (evaluate_contract evaluate -> dispatch_contract DISPATCH_TABLE ->
      (replace_literal_ops evaluate m = Ok (m', changed_nodes) ->
       changed_nodes = 0 <-> m' = m)
      /\ (replace_subscripts evaluate m = Ok (m', changed_nodes) ->
          changed_nodes = 0 <-> m' = m)
      /\ (replace_builtin_functions DISPATCH_TABLE m = Ok (m', changed_nodes) ->
          changed_nodes = 0 <-> m' = m)
      /\ (fold_iteration evaluate DISPATCH_TABLE get_type_from_annotation truth_value m
          = Ok (m', changed_nodes) ->
          changed_nodes = 0 <-> m' = m)).
Proof.
  split_and!.
  - intros id_ repl roe type_ Hpass%replace_constant_rewrites.
    apply rewrites_count_zero. eapply rewrites_mono; [|done]. apply name_to_literal_folds.
  - intros Hpass%replace_user_defined_constants_rewrites.
    apply rewrites_count_zero. eapply rewrites_mono; [|done]. apply name_to_literal_folds.
  - intros He Hd. split_and!.
    + intros Hpass%replace_literal_ops_rewrites.
      apply rewrites_count_zero. eapply rewrites_mono; [|done].
      intros old new [Hc Hev]. apply (evaluate_folds evaluate); [done| |done].
      by repeat (apply elem_of_cons in Hc as [->|Hc]; [done|]); apply elem_of_nil in Hc.
    + intros Hpass%replace_subscripts_rewrites.
      apply rewrites_count_zero. eapply rewrites_mono; [|done].
      intros old new [Hc Hev]. apply (evaluate_folds evaluate); [done| |done].
      by rewrite Hc.
    + intros Hpass%replace_builtin_functions_rewrites.
      apply rewrites_count_zero. eapply rewrites_mono; [|done].
      intros old new (a & fa & name & args & keywords & func & fe & -> & Hf & Hm & Hev).
      left. split; [done|]. by eapply Hd.
    + intros Hpass. apply rewrites_count_zero. by eapply fold_iteration_rewrites.
Qed.
